(** * base/debug/activity_tracker.cc: a shallow embedding

    The per-thread activity stack ([ThreadActivityTracker]) and the free list
    of recycled memory blocks ([GlobalActivityTracker]) are embedded as
    functions over an explicit memory state.  Integer fields are [Z] with the
    wrap-around of their C++ width written out.  The release build is the one
    modelled: [DCHECK] and [NOTREACHED] compile to nothing, and the contracts
    they state are carried by hypotheses of the theorems.  A memory access
    that C++ leaves undefined (null pointer, index outside the block) is the
    explicit outcome [Fault]. *)

From stdpp Require Import base numbers list gmap.

Local Open Scope Z_scope.

(** ** Outcomes of memory accesses *)

Inductive result (A : Type) : Type :=
| Ok (a : A)
| Fault.
Arguments Ok {A} a.
Arguments Fault {A}.

Definition rbind {A B : Type} (x : result A) (f : A -> result B) : result B :=
  match x with
  | Ok a => f a
  | Fault => Fault
  end.

Notation "'do' x <- e ; k" := (rbind e (fun x => k))
  (at level 10, x name, e at level 100, k at level 200).

(** ** Fixed-width arithmetic *)

(** [uint32_t] arithmetic. *)
Definition wrap32 (z : Z) : Z := z mod 2 ^ 32.

(** [int64_t] arithmetic (two's complement). *)
Definition wrap64s (z : Z) : Z := (z + 2 ^ 63) mod 2 ^ 64 - 2 ^ 63.

Definition UINT32_MAX : Z := 2 ^ 32 - 1.

(** ** Constants of the anonymous namespace *)

Definition kHeaderCookie : Z := 0xC0029B240D4A3092 + 1.

Definition kMinStackDepth : Z := 2.

(** Modelled from the spec: the enumeration [ActivityType] is declared in
    activity_tracker.h, which is not part of the sources.  The tag is 8 bits
    wide, a 4-bit category over a 4-bit sub-action; [ACT_NULL] is the
    do-not-change sentinel. *)
Definition ACT_NULL : Z := 0.
Definition ACT_TASK_RUN : Z := 1 * 16.
Definition ACT_LOCK_ACQUIRE : Z := 2 * 16.
Definition ACT_GENERIC : Z := 15 * 16.
Definition ACT_CATEGORY_MASK : Z := 15 * 16.

(** ** Records of the shared region *)

(** [ActivityData] is a 64-bit union; its raw word is kept. *)
Definition ActivityData : Type := Z.

(** [kNullActivityData = {}]: all zeros, and "only the address of it is
    important". *)
Definition kNullActivityData : ActivityData := 0.

(** A [const ActivityData&] argument.  The code compares the address of the
    argument with the address of [kNullActivityData], so a reference is
    either that very object or some other object holding a value. *)
Inductive DataRef : Type :=
| RefNullActivityData
| RefOther (d : ActivityData).

Definition deref (p : DataRef) : ActivityData :=
  match p with
  | RefNullActivityData => kNullActivityData
  | RefOther d => d
  end.

(** [&data == &kNullActivityData] *)
Definition is_kNullActivityData (p : DataRef) : bool :=
  match p with
  | RefNullActivityData => true
  | RefOther _ => false
  end.

(** Modelled from the spec: the structure [Activity] is declared in
    activity_tracker.h, which is not part of the sources; the fields are
    those of the spec's data model, in its order, and the ones the code
    here reads and writes. *)
Record Activity : Type := mkActivity {
  time_internal : Z;
  origin_address : Z;
  activity_type : Z;
  call_stack : list Z;
  data : ActivityData
}.

Record Header : Type := mkHeader {
  cookie : Z;
  process_id : Z;
  thread_ref : Z;
  start_time : Z;
  start_ticks : Z;
  stack_slots : Z;
  current_depth : Z;
  stack_unchanged : Z;
  thread_name : list Z
}.

(** The memory block a tracker works on: the header followed by the
    records. *)
Record Region : Type := mkRegion {
  hdr : Header;
  stack : list Activity
}.

(** The private members of a [ThreadActivityTracker]; [header_] and [stack_]
    point into the region, which is passed along explicitly. *)
Record Tracker : Type := mkTracker {
  stack_slots_ : Z;
  valid_ : bool
}.

(** *** Field updates *)

Definition set_time_internal (v : Z) (a : Activity) : Activity :=
  mkActivity v (origin_address a) (activity_type a) (call_stack a) (data a).
Definition set_origin_address (v : Z) (a : Activity) : Activity :=
  mkActivity (time_internal a) v (activity_type a) (call_stack a) (data a).
Definition set_activity_type (v : Z) (a : Activity) : Activity :=
  mkActivity (time_internal a) (origin_address a) v (call_stack a) (data a).
Definition set_call_stack (v : list Z) (a : Activity) : Activity :=
  mkActivity (time_internal a) (origin_address a) (activity_type a) v (data a).
Definition set_data (v : ActivityData) (a : Activity) : Activity :=
  mkActivity (time_internal a) (origin_address a) (activity_type a) (call_stack a) v.

Definition set_current_depth (v : Z) (h : Header) : Header :=
  mkHeader (cookie h) (process_id h) (thread_ref h) (start_time h)
    (start_ticks h) (stack_slots h) v (stack_unchanged h) (thread_name h).
Definition set_stack_unchanged (v : Z) (h : Header) : Header :=
  mkHeader (cookie h) (process_id h) (thread_ref h) (start_time h)
    (start_ticks h) (stack_slots h) (current_depth h) v (thread_name h).

Definition with_hdr (f : Header -> Header) (r : Region) : Region :=
  mkRegion (f (hdr r)) (stack r).

(** [stack_[i].field = v]: a store through the index [i]; outside the block
    it is undefined behaviour. *)
Definition store_slot (i : Z) (f : Activity -> Activity) (r : Region)
  : result Region :=
  match stack r !! Z.to_nat i with
  | Some a => Ok (mkRegion (hdr r) (<[Z.to_nat i := f a]> (stack r)))
  | None => Fault
  end.

(** ** The writer: PushActivity, ChangeActivity, PopActivity *)

(** [now] is the value [TimeTicks::Now().ToInternalValue()] returns inside
    the call.  Without SYZYASAN the call stack of the slot is not written. *)
Definition PushActivity (t : Tracker) (now origin type : Z)
    (d : ActivityData) (r : Region) : result Region :=
  let depth := current_depth (hdr r) in
  if stack_slots_ t <=? depth then
    Ok (with_hdr (set_current_depth (wrap32 (depth + 1))) r)
  else
    do r1 <- store_slot depth (set_time_internal now) r;
    do r2 <- store_slot depth (set_origin_address origin) r1;
    do r3 <- store_slot depth (set_activity_type type) r2;
    do r4 <- store_slot depth (set_data d) r3;
    Ok (with_hdr (set_current_depth (wrap32 (depth + 1))) r4).

Definition ChangeActivity (t : Tracker) (type : Z) (d : DataRef)
    (r : Region) : result Region :=
  let depth := current_depth (hdr r) in
  if depth <=? stack_slots_ t then
    let top := wrap32 (depth - 1) in
    do r1 <- (if type =? ACT_NULL then Ok r
              else store_slot top (set_activity_type type) r);
    if is_kNullActivityData d then Ok r1
    else store_slot top (set_data (deref d)) r1
  else Ok r.

Definition PopActivity (r : Region) : Region :=
  let depth := current_depth (hdr r) in
  let r1 := with_hdr (set_current_depth (wrap32 (depth - 1))) r in
  with_hdr (set_stack_unchanged 0) r1.

(** ** IsValid *)

Definition IsValid (t : Tracker) (r : Region) : bool :=
  let h := hdr r in
  if negb (cookie h =? kHeaderCookie)
     || (process_id h =? 0)
     || (thread_ref h =? 0)
     || (start_time h =? 0)
     || (start_ticks h =? 0)
     || negb (stack_slots h =? stack_slots_ t)
     || negb (default 0 (thread_name h !! 31%nat) =? 0)
  then false
  else valid_ t.

(** ** Snapshot *)

(** Modelled from the spec: the length of [Activity::call_stack], "a
    fixed-length array of program counters", is declared in
    activity_tracker.h; no theorem depends on the value. *)
Definition kActivityCallStackSize : nat := 10.

Definition zero_call_stack : list Z := replicate kActivityCallStackSize 0.

(** A value-initialised [Activity], as [std::vector::resize] appends. *)
Definition zero_activity : Activity := mkActivity 0 0 0 zero_call_stack 0.

(** Modelled from the spec: [ActivitySnapshot] is declared in
    activity_tracker.h; these are the members [Snapshot] assigns. *)
Record ActivitySnapshot : Type := mkSnapshot {
  activity_stack : list Activity;
  activity_stack_depth : Z;
  snap_thread_name : list Z;
  snap_thread_id : Z;
  snap_process_id : Z
}.

Definition set_activity_stack (v : list Activity) (o : ActivitySnapshot) :=
  mkSnapshot v (activity_stack_depth o) (snap_thread_name o)
    (snap_thread_id o) (snap_process_id o).
Definition set_activity_stack_depth (v : Z) (o : ActivitySnapshot) :=
  mkSnapshot (activity_stack o) v (snap_thread_name o)
    (snap_thread_id o) (snap_process_id o).
Definition set_snap_thread_name (v : list Z) (o : ActivitySnapshot) :=
  mkSnapshot (activity_stack o) (activity_stack_depth o) v
    (snap_thread_id o) (snap_process_id o).
Definition set_snap_thread_id (v : Z) (o : ActivitySnapshot) :=
  mkSnapshot (activity_stack o) (activity_stack_depth o) (snap_thread_name o)
    v (snap_process_id o).
Definition set_snap_process_id (v : Z) (o : ActivitySnapshot) :=
  mkSnapshot (activity_stack o) (activity_stack_depth o) (snap_thread_name o)
    (snap_thread_id o) v.

Definition kMaxAttempts : nat := 10.

(** Modelled from the spec: [Time] and [TimeDelta] are declared in
    base/time; a tick count becomes wall time as
    [start_time + (ticks - start_ticks)], here in 64-bit arithmetic. *)
Definition wall_time (start_time start_ticks ticks : Z) : Z :=
  wrap64s (start_time + wrap64s (ticks - start_ticks)).

Definition to_wall (h : Header) (a : Activity) : Activity :=
  set_time_internal
    (wall_time (start_time h) (start_ticks h) (time_internal a)) a.

(** [strlen] of a character buffer. *)
Fixpoint strlen (s : list Z) : nat :=
  match s with
  | [] => O
  | c :: s' => if c =? 0 then O else S (strlen s')
  end.

(** [std::string(thread_name, sizeof(thread_name) - 1)] cut at its first
    NUL. *)
Definition name_of_buffer (buf : list Z) : list Z :=
  let s := take 31 buf in take (strlen s) s.

(** [memcpy(&activity_stack[0], stack_, count * sizeof(Activity))] *)
Definition memcpy_stack (count : nat) (r : Region) (dst : list Activity)
  : result (list Activity) :=
  if (count <=? length (stack r))%nat
  then Ok (take count (stack r) ++ drop count dst)
  else Fault.

Inductive attempt_outcome : Type :=
| Continue (r : Region) (o : ActivitySnapshot)
| Return (r : Region) (o : ActivitySnapshot) (b : bool).

(** The body of the [for] loop of [Snapshot]. *)
Definition Snapshot_attempt (t : Tracker) (r : Region) (o : ActivitySnapshot)
  : result attempt_outcome :=
  let starting_process_id := process_id (hdr r) in
  let starting_thread_id := thread_ref (hdr r) in
  let r := with_hdr (set_stack_unchanged 1) r in
  let depth := current_depth (hdr r) in
  let count := Z.to_nat (Z.min depth (stack_slots_ t)) in
  let o := set_activity_stack (resize count zero_activity (activity_stack o)) o in
  do copied <- (if (0 <? count)%nat then memcpy_stack count r (activity_stack o)
                else Ok (activity_stack o));
  let o := set_activity_stack copied o in
  if stack_unchanged (hdr r) =? 0 then Ok (Continue r o)
  else
    let o := set_activity_stack_depth depth o in
    let o := set_snap_thread_name (take 31 (thread_name (hdr r))) o in
    let o := set_snap_thread_id (thread_ref (hdr r)) o in
    let o := set_snap_process_id (process_id (hdr r)) o in
    let o := set_snap_thread_name
               (take (strlen (snap_thread_name o)) (snap_thread_name o)) o in
    if negb (snap_process_id o =? starting_process_id)
       || negb (snap_thread_id o =? starting_thread_id)
    then Ok (Continue r o)
    else if negb (IsValid t r) then Ok (Return r o false)
    else
      Ok (Return r (set_activity_stack
                      (to_wall (hdr r) <$> activity_stack o) o) true).

Fixpoint Snapshot_loop (attempts : nat) (t : Tracker) (r : Region)
    (o : ActivitySnapshot) : result (Region * ActivitySnapshot * bool) :=
  match attempts with
  | O => Ok (r, o, false)
  | S n =>
      do a <- Snapshot_attempt t r o;
      match a with
      | Continue r' o' => Snapshot_loop n t r' o'
      | Return r' o' b => Ok (r', o', b)
      end
  end.

Definition Snapshot (t : Tracker) (r : Region) (o : ActivitySnapshot)
  : result (Region * ActivitySnapshot * bool) :=
  if negb (IsValid t r) then Ok (r, o, false)
  else Snapshot_loop kMaxAttempts t r o.

(** ** Sequences of writer operations and the reference stack *)

Inductive Op : Type :=
| OpPush (now origin type : Z) (d : ActivityData)
| OpChange (type : Z) (d : DataRef)
| OpPop.

Definition apply_op (t : Tracker) (op : Op) (r : Region) : result Region :=
  match op with
  | OpPush now origin type d => PushActivity t now origin type d r
  | OpChange type d => ChangeActivity t type d r
  | OpPop => Ok (PopActivity r)
  end.

Fixpoint run_ops (t : Tracker) (ops : list Op) (r : Region) : result Region :=
  match ops with
  | [] => Ok r
  | op :: ops' =>
      do r' <- apply_op t op r;
      run_ops t ops' r'
  end.

Definition is_push (op : Op) : bool :=
  match op with
  | OpPush _ _ _ _ => true
  | _ => false
  end.

(** The category bits of an activity type. *)
Definition category (type : Z) : Z := Z.land type ACT_CATEGORY_MASK.

(** The reference model keeps every activity in an unbounded list, the
    oldest first. *)
Definition pushed_record (now origin type : Z) (d : ActivityData) : Activity :=
  mkActivity now origin type zero_call_stack d.

Definition changed_record (type : Z) (d : DataRef) (a : Activity) : Activity :=
  let a1 := if type =? ACT_NULL then a else set_activity_type type a in
  if is_kNullActivityData d then a1 else set_data (deref d) a1.

Definition ref_step (s : list Activity) (op : Op) : list Activity :=
  match op with
  | OpPush now origin type d => s ++ [pushed_record now origin type d]
  | OpChange type d => alter (changed_record type d) (pred (length s)) s
  | OpPop => take (pred (length s)) s
  end.

Definition ref_run (s : list Activity) (ops : list Op) : list Activity :=
  foldl ref_step s ops.

(** The contract of the writer: [DCHECK_LT(0U, depth)] in ChangeActivity and
    PopActivity, and a depth that fits the 32-bit counter. *)
Definition op_in_contract (s : list Activity) (op : Op) : bool :=
  match op with
  | OpPush _ _ _ _ => Z.of_nat (length s) <? UINT32_MAX
  | OpChange _ _ => (0 <? length s)%nat
  | OpPop => (0 <? length s)%nat
  end.

Fixpoint in_contract (s : list Activity) (ops : list Op) : bool :=
  match ops with
  | [] => true
  | op :: ops' => op_in_contract s op && in_contract (ref_step s op) ops'
  end.

(** What a snapshot of the reference stack [s] shows through a tracker of
    [stack_slots_ t] slots whose header is [h]. *)
Definition reference_snapshot (t : Tracker) (h : Header) (s : list Activity)
  : ActivitySnapshot :=
  mkSnapshot (to_wall h <$> take (Z.to_nat (stack_slots_ t)) s)
             (Z.of_nat (length s))
             (name_of_buffer (thread_name h))
             (thread_ref h)
             (process_id h).

(** The writer performs [ops]; after each of them [Snapshot] is called on
    the same output object.  The results of the calls are collected. *)
Fixpoint run_with_snapshots (t : Tracker) (ops : list Op) (r : Region)
    (o : ActivitySnapshot) : result (list (ActivitySnapshot * bool)) :=
  match ops with
  | [] => Ok []
  | op :: ops' =>
      do r1 <- apply_op t op r;
      do x <- Snapshot t r1 o;
      let '(r2, o2, b) := x in
      do rest <- run_with_snapshots t ops' r2 o2;
      Ok ((o2, b) :: rest)
  end.

Fixpoint reference_snapshots (t : Tracker) (h : Header) (s : list Activity)
    (ops : list Op) : list (ActivitySnapshot * bool) :=
  match ops with
  | [] => []
  | op :: ops' =>
      (reference_snapshot t h (ref_step s op), true)
        :: reference_snapshots t h (ref_step s op) ops'
  end.

(** ** Snapshot and the writer as interleaved steps

    A reader in another thread runs [Snapshot] while the owning thread runs
    its operations.  Each step below is one access to the shared region;
    [memcpy] copies the records field by field in address order.  An
    execution is an interleaving of reader and writer steps: every access
    takes effect at once and in program order (the memory orders of the
    atomics are not modelled). *)

Inductive field : Type :=
| F_time_internal | F_origin_address | F_activity_type | F_call_stack | F_data.

Definition copy_field (f : field) (src dst : Activity) : Activity :=
  match f with
  | F_time_internal => set_time_internal (time_internal src) dst
  | F_origin_address => set_origin_address (origin_address src) dst
  | F_activity_type => set_activity_type (activity_type src) dst
  | F_call_stack => set_call_stack (call_stack src) dst
  | F_data => set_data (data src) dst
  end.

Definition next_field (f : field) : option field :=
  match f with
  | F_time_internal => Some F_origin_address
  | F_origin_address => Some F_activity_type
  | F_activity_type => Some F_call_stack
  | F_call_stack => Some F_data
  | F_data => None
  end.

(** Where the reader is in [Snapshot]. *)
Inductive rpc : Type :=
| R_IsValid
| R_load_process_id
| R_load_thread_id
| R_store_unchanged
| R_load_depth
| R_memcpy (i : nat) (f : field)
| R_load_unchanged
| R_read_thread_name
| R_read_thread_id
| R_load_process_id_again
| R_IsValid_again
| R_translate
| R_return (b : bool).

Record rstate : Type := mkR {
  r_pc : rpc;
  r_attempt : nat;
  starting_process_id : Z;
  starting_thread_id : Z;
  r_depth : Z;
  r_count : nat;
  r_out : ActivitySnapshot
}.

Definition r_goto (pc : rpc) (s : rstate) : rstate :=
  mkR pc (r_attempt s) (starting_process_id s) (starting_thread_id s)
    (r_depth s) (r_count s) (r_out s).
Definition r_with_out (o : ActivitySnapshot) (s : rstate) : rstate :=
  mkR (r_pc s) (r_attempt s) (starting_process_id s) (starting_thread_id s)
    (r_depth s) (r_count s) o.

(** [continue]: the next attempt, if one is left. *)
Definition r_continue (s : rstate) : rstate :=
  let a := S (r_attempt s) in
  mkR (if (a <? kMaxAttempts)%nat then R_load_process_id else R_return false)
    a (starting_process_id s) (starting_thread_id s)
    (r_depth s) (r_count s) (r_out s).

Definition reader_init (o : ActivitySnapshot) : rstate :=
  mkR R_IsValid 0 0 0 0 0 o.

Definition reader_step (t : Tracker) (r : Region) (s : rstate)
  : result (Region * rstate) :=
  let h := hdr r in
  let o := r_out s in
  match r_pc s with
  | R_IsValid =>
      if negb (IsValid t r) then Ok (r, r_goto (R_return false) s)
      else Ok (r, r_goto R_load_process_id s)
  | R_load_process_id =>
      Ok (r, mkR R_load_thread_id (r_attempt s) (process_id h)
               (starting_thread_id s) (r_depth s) (r_count s) o)
  | R_load_thread_id =>
      Ok (r, mkR R_store_unchanged (r_attempt s) (starting_process_id s)
               (thread_ref h) (r_depth s) (r_count s) o)
  | R_store_unchanged =>
      Ok (with_hdr (set_stack_unchanged 1) r, r_goto R_load_depth s)
  | R_load_depth =>
      let depth := current_depth h in
      let count := Z.to_nat (Z.min depth (stack_slots_ t)) in
      let o' := set_activity_stack
                  (resize count zero_activity (activity_stack o)) o in
      Ok (r, mkR (if (0 <? count)%nat then R_memcpy 0 F_time_internal
                  else R_load_unchanged)
               (r_attempt s) (starting_process_id s) (starting_thread_id s)
               depth count o')
  | R_memcpy i f =>
      match stack r !! i, activity_stack o !! i with
      | Some src, Some dst =>
          let o' := set_activity_stack
                      (<[i := copy_field f src dst]> (activity_stack o)) o in
          let pc' := match next_field f with
                     | Some f' => R_memcpy i f'
                     | None => if (S i <? r_count s)%nat
                               then R_memcpy (S i) F_time_internal
                               else R_load_unchanged
                     end in
          Ok (r, r_goto pc' (r_with_out o' s))
      | _, _ => Fault
      end
  | R_load_unchanged =>
      if stack_unchanged h =? 0 then Ok (r, r_continue s)
      else Ok (r, r_goto R_read_thread_name
                    (r_with_out (set_activity_stack_depth (r_depth s) o) s))
  | R_read_thread_name =>
      Ok (r, r_goto R_read_thread_id
               (r_with_out (set_snap_thread_name (take 31 (thread_name h)) o) s))
  | R_read_thread_id =>
      Ok (r, r_goto R_load_process_id_again
               (r_with_out (set_snap_thread_id (thread_ref h) o) s))
  | R_load_process_id_again =>
      let o1 := set_snap_process_id (process_id h) o in
      let o2 := set_snap_thread_name
                  (take (strlen (snap_thread_name o1)) (snap_thread_name o1))
                  o1 in
      let s' := r_with_out o2 s in
      if negb (snap_process_id o2 =? starting_process_id s)
         || negb (snap_thread_id o2 =? starting_thread_id s)
      then Ok (r, r_continue s')
      else Ok (r, r_goto R_IsValid_again s')
  | R_IsValid_again =>
      if negb (IsValid t r) then Ok (r, r_goto (R_return false) s)
      else Ok (r, r_goto R_translate s)
  | R_translate =>
      Ok (r, r_goto (R_return true)
               (r_with_out (set_activity_stack
                              (to_wall h <$> activity_stack o) o) s))
  | R_return b => Ok (r, s)
  end.

(** Where the writer is inside an operation. *)
Inductive wpc : Type :=
| W_idle
| W_push_time (depth now origin type : Z) (d : ActivityData)
| W_push_origin (depth origin type : Z) (d : ActivityData)
| W_push_type (depth type : Z) (d : ActivityData)
| W_push_data (depth : Z) (d : ActivityData)
| W_push_publish (depth : Z)
| W_push_overflow (depth : Z)
| W_change_type (depth type : Z) (d : DataRef)
| W_change_data (depth : Z) (d : DataRef)
| W_pop_clear.

(** The writer's position and the operations it has still to start. *)
Record wstate : Type := mkW {
  w_pc : wpc;
  w_todo : list Op
}.

Definition writer_step (t : Tracker) (r : Region) (w : wstate)
  : result (Region * wstate) :=
  let todo := w_todo w in
  match w_pc w with
  | W_idle =>
      match todo with
      | [] => Ok (r, w)
      | OpPush now origin type d :: rest =>
          let depth := current_depth (hdr r) in
          if stack_slots_ t <=? depth
          then Ok (r, mkW (W_push_overflow depth) rest)
          else Ok (r, mkW (W_push_time depth now origin type d) rest)
      | OpChange type d :: rest =>
          let depth := current_depth (hdr r) in
          if depth <=? stack_slots_ t
          then Ok (r, mkW (W_change_type depth type d) rest)
          else Ok (r, mkW W_idle rest)
      | OpPop :: rest =>
          let depth := current_depth (hdr r) in
          Ok (with_hdr (set_current_depth (wrap32 (depth - 1))) r,
              mkW W_pop_clear rest)
      end
  | W_push_overflow depth =>
      Ok (with_hdr (set_current_depth (wrap32 (depth + 1))) r, mkW W_idle todo)
  | W_push_time depth now origin type d =>
      do r' <- store_slot depth (set_time_internal now) r;
      Ok (r', mkW (W_push_origin depth origin type d) todo)
  | W_push_origin depth origin type d =>
      do r' <- store_slot depth (set_origin_address origin) r;
      Ok (r', mkW (W_push_type depth type d) todo)
  | W_push_type depth type d =>
      do r' <- store_slot depth (set_activity_type type) r;
      Ok (r', mkW (W_push_data depth d) todo)
  | W_push_data depth d =>
      do r' <- store_slot depth (set_data d) r;
      Ok (r', mkW (W_push_publish depth) todo)
  | W_push_publish depth =>
      Ok (with_hdr (set_current_depth (wrap32 (depth + 1))) r, mkW W_idle todo)
  | W_change_type depth type d =>
      do r' <- (if type =? ACT_NULL then Ok r
                else store_slot (wrap32 (depth - 1)) (set_activity_type type) r);
      Ok (r', mkW (W_change_data depth d) todo)
  | W_change_data depth d =>
      do r' <- (if is_kNullActivityData d then Ok r
                else store_slot (wrap32 (depth - 1)) (set_data (deref d)) r);
      Ok (r', mkW W_idle todo)
  | W_pop_clear =>
      Ok (with_hdr (set_stack_unchanged 0) r, mkW W_idle todo)
  end.

(** Which thread moves next. *)
Inductive thread : Type := Writer | Reader.

Record system : Type := mkSys {
  sys_region : Region;
  sys_writer : wstate;
  sys_reader : rstate
}.

Definition sys_step (t : Tracker) (who : thread) (sy : system) : result system :=
  match who with
  | Writer =>
      do x <- writer_step t (sys_region sy) (sys_writer sy);
      Ok (mkSys (fst x) (snd x) (sys_reader sy))
  | Reader =>
      do x <- reader_step t (sys_region sy) (sys_reader sy);
      Ok (mkSys (fst x) (sys_writer sy) (snd x))
  end.

Fixpoint sys_run (t : Tracker) (sched : list thread) (sy : system)
  : result system :=
  match sched with
  | [] => Ok sy
  | who :: sched' =>
      do sy' <- sys_step t who sy;
      sys_run t sched' sy'
  end.

Definition sys_init (r : Region) (ops : list Op) (o : ActivitySnapshot)
  : system :=
  mkSys r (mkW W_idle ops) (reader_init o).

(** ** Construction over a block of memory *)

(** What the constructor reads from its environment. *)
Record Env : Type := mkEnv {
  env_thread_handle : Z;          (* PlatformThread::CurrentHandle() *)
  env_time_now : Z;               (* Time::Now() *)
  env_ticks_now : Z;              (* TimeTicks::Now() *)
  env_thread_name : list Z;       (* PlatformThread::GetName() *)
  env_process_id : Z              (* GetCurrentProcId() *)
}.

(** [size_t] arithmetic on a 64-bit build. *)
Definition wrap_size_t (z : Z) : Z := z mod 2 ^ 64.

(** [strlcpy(dst, src, n)]: at most [n - 1] characters and a NUL. *)
Definition strlcpy (dst src : list Z) (n : nat) : list Z :=
  let s := take (pred n) (take (strlen src) src) in
  s ++ [0] ++ drop (S (length s)) dst.

Section Construction.

(** [sizeof(Header)] and [sizeof(Activity)]; the latter structure is
    declared in the header file. *)
Variables sizeof_Header sizeof_Activity : Z.

(** [base] is [None] for a null pointer.  The in-class initialiser
    [valid_ = false] is modelled from the spec ("the tracker is created but
    IsValid() is false"): the member declaration is in the header file. *)
Definition ThreadActivityTracker_new (e : Env) (base : option Region)
    (size : Z) : Tracker * option Region :=
  let slots := wrap_size_t (size - sizeof_Header) / sizeof_Activity in
  let stack_slots_ := wrap32 slots in
  match base with
  | None => (mkTracker stack_slots_ false, None)
  | Some r =>
      if (size <? sizeof_Header + kMinStackDepth * sizeof_Activity)
         || (UINT32_MAX <? slots)
      then (mkTracker stack_slots_ false, Some r)
      else if cookie (hdr r) =? 0 then
        let h := hdr r in
        let h' := mkHeader kHeaderCookie (env_process_id e)
                    (env_thread_handle e) (env_time_now e) (env_ticks_now e)
                    stack_slots_ (current_depth h) (stack_unchanged h)
                    (strlcpy (thread_name h) (env_thread_name e) 32) in
        (mkTracker stack_slots_ true, Some (mkRegion h' (stack r)))
      else
        let t := mkTracker stack_slots_ true in
        (mkTracker stack_slots_ (IsValid t r), Some r)
  end.

(** [SizeForStackDepth] *)
Definition SizeForStackDepth (stack_depth : Z) : Z :=
  wrap_size_t (wrap_size_t stack_depth * sizeof_Activity + sizeof_Header).

End Construction.

(** The methods as called through the object, whose [header_] may be null:
    every one of them starts by reading or writing a header field. *)
Definition through_header {A : Type} (base : option Region)
    (f : Region -> result A) : result A :=
  match base with
  | None => Fault
  | Some r => f r
  end.

Definition IsValid_method (t : Tracker) (base : option Region) : result bool :=
  through_header base (fun r => Ok (IsValid t r)).

Definition PushActivity_method (t : Tracker) (now origin type : Z)
    (d : ActivityData) (base : option Region) : result Region :=
  through_header base (PushActivity t now origin type d).

Definition Snapshot_method (t : Tracker) (base : option Region)
    (o : ActivitySnapshot) : result (Region * ActivitySnapshot * bool) :=
  through_header base (fun r => Snapshot t r o).

(** ** GlobalActivityTracker: handing out and taking back memory blocks *)

(** The two type tags a tracker block carries in the persistent
    allocator. *)
Inductive TypeId : Type :=
| kTypeIdActivityTracker
| kTypeIdActivityTrackerFree.

Definition TypeId_eqb (a b : TypeId) : bool :=
  match a, b with
  | kTypeIdActivityTracker, kTypeIdActivityTracker => true
  | kTypeIdActivityTrackerFree, kTypeIdActivityTrackerFree => true
  | _, _ => false
  end.

Definition zero_header : Header :=
  mkHeader 0 0 0 0 0 0 0 0 (replicate 32 0).

(** [memset(mem_base, 0, stack_memory_size_)] on a block of a header and
    [stack_depth] records. *)
Definition memset_zero (stack_depth : nat) (r : Region) : Region :=
  mkRegion zero_header
    (replicate (min stack_depth (length (stack r))) zero_activity
       ++ drop stack_depth (stack r)).

(** The members of the [GlobalActivityTracker] together with the memory
    they refer to: the blocks by address and the allocator's type tag of
    each reference. *)
Record Global : Type := mkGlobal {
  available_memories_ : list Z;
  available_memories_count_ : Z;
  thread_tracker_count_ : Z;
  alloc_types : gmap Z TypeId;
  blocks : gmap Z Region
}.

Definition set_available_memories_ (v : list Z) (g : Global) : Global :=
  mkGlobal v (available_memories_count_ g) (thread_tracker_count_ g)
    (alloc_types g) (blocks g).
Definition set_available_memories_count_ (v : Z) (g : Global) : Global :=
  mkGlobal (available_memories_ g) v (thread_tracker_count_ g)
    (alloc_types g) (blocks g).
Definition set_thread_tracker_count_ (v : Z) (g : Global) : Global :=
  mkGlobal (available_memories_ g) (available_memories_count_ g) v
    (alloc_types g) (blocks g).
Definition set_alloc_types (v : gmap Z TypeId) (g : Global) : Global :=
  mkGlobal (available_memories_ g) (available_memories_count_ g)
    (thread_tracker_count_ g) v (blocks g).
Definition set_blocks (v : gmap Z Region) (g : Global) : Global :=
  mkGlobal (available_memories_ g) (available_memories_count_ g)
    (thread_tracker_count_ g) (alloc_types g) v.

(** [available_memories_[i]]: an access outside the array is undefined. *)
Definition load_slot (i : Z) (g : Global) : result Z :=
  if i <? 0 then Fault
  else match available_memories_ g !! Z.to_nat i with
       | Some v => Ok v
       | None => Fault
       end.

Definition store_slot_ref (i v : Z) (g : Global) : result Global :=
  if i <? 0 then Fault
  else match available_memories_ g !! Z.to_nat i with
       | Some _ =>
           Ok (set_available_memories_
                 (<[Z.to_nat i := v]> (available_memories_ g)) g)
       | None => Fault
       end.

(** [allocator_->ChangeType(ref, to, from)]: a compare-and-swap on the
    tag. *)
Definition ChangeType (ref : Z) (to from : TypeId) (g : Global) : Global :=
  match alloc_types g !! ref with
  | Some ty =>
      if TypeId_eqb ty from
      then set_alloc_types (<[ref := to]> (alloc_types g)) g
      else g
  | None => g
  end.

(** Where a thread is inside [ReturnTrackerMemory] (the [U_] positions) or
    inside the free-list loop of [CreateTrackerForCurrentThread] (the [P_]
    positions).  Each position is one access to shared memory. *)
Inductive gpc : Type :=
| U_memset (mem_reference mem_base : Z)
| U_tracker_count_sub (mem_reference mem_base : Z)
| U_change_type (mem_reference : Z)
| U_load_count (mem_reference : Z)
| U_slot_cas (mem_reference count : Z)
| U_count_cas (mem_reference count : Z)
| U_slot_clear (mem_reference count : Z)
| U_delete (mem_base : Z)
| U_pushed (mem_reference : Z)
| U_abandoned (mem_reference : Z)
| U_deleted
| P_load_count
| P_exchange (count : Z)
| P_count_cas (count mem_reference : Z)
| P_restore (count oldcount mem_reference : Z)
| P_change_type (mem_reference : Z)
| P_took (mem_reference : Z)
| P_allocate_new.

Section FreeList.

(** Declared in the header file: the length of [available_memories_]. *)
Variable kMaxThreadCount : Z.

(** The number of records of a block of [stack_memory_size_] bytes. *)
Variable stack_depth : nat.

(** The head of the [while (count > 0)] loop of
    [CreateTrackerForCurrentThread]. *)
Definition P_loop_head (count : Z) : gpc :=
  if 0 <? count then P_exchange count else P_allocate_new.

Definition global_step (pc : gpc) (g : Global) : result (Global * gpc) :=
  match pc with
  | U_memset ref base =>
      match blocks g !! base with
      | Some r =>
          Ok (set_blocks (<[base := memset_zero stack_depth r]> (blocks g)) g,
              U_tracker_count_sub ref base)
      | None => Fault
      end
  | U_tracker_count_sub ref base =>
      Ok (set_thread_tracker_count_ (thread_tracker_count_ g - 1) g,
          if ref =? 0 then U_delete base else U_change_type ref)
  | U_change_type ref =>
      Ok (ChangeType ref kTypeIdActivityTrackerFree kTypeIdActivityTracker g,
          U_load_count ref)
  | U_load_count ref =>
      let count := available_memories_count_ g in
      if kMaxThreadCount <=? count then Ok (g, U_abandoned ref)
      else Ok (g, U_slot_cas ref count)
  | U_slot_cas ref count =>
      do v <- load_slot count g;
      if v =? 0 then
        do g' <- store_slot_ref count ref g;
        Ok (g', U_count_cas ref count)
      else Ok (g, U_load_count ref)
  | U_count_cas ref count =>
      if available_memories_count_ g =? count
      then Ok (set_available_memories_count_ (count + 1) g, U_pushed ref)
      else Ok (g, U_slot_clear ref count)
  | U_slot_clear ref count =>
      do g' <- store_slot_ref count 0 g;
      Ok (g', U_load_count ref)
  | U_delete base =>
      match blocks g !! base with
      | Some _ => Ok (set_blocks (delete base (blocks g)) g, U_deleted)
      | None => Fault
      end
  | P_load_count =>
      Ok (g, P_loop_head (available_memories_count_ g))
  | P_exchange count =>
      do v <- load_slot (count - 1) g;
      do g' <- store_slot_ref (count - 1) 0 g;
      if v =? 0 then Ok (g', P_load_count)
      else Ok (g', P_count_cas count v)
  | P_count_cas count ref =>
      let oldcount := available_memories_count_ g in
      if oldcount =? count
      then Ok (set_available_memories_count_ (count - 1) g, P_change_type ref)
      else Ok (g, P_restore count oldcount ref)
  | P_restore count oldcount ref =>
      do g' <- store_slot_ref (count - 1) ref g;
      Ok (g', P_loop_head oldcount)
  | P_change_type ref =>
      Ok (ChangeType ref kTypeIdActivityTracker kTypeIdActivityTrackerFree g,
          P_took ref)
  | U_pushed _ | U_abandoned _ | U_deleted | P_took _ | P_allocate_new =>
      Ok (g, pc)
  end.

(** The threads of the process, each inside one call, and the shared
    state.  A schedule names the thread that makes the next step. *)
Definition threads_step (i : nat) (x : Global * list gpc)
  : result (Global * list gpc) :=
  match snd x !! i with
  | Some pc =>
      do y <- global_step pc (fst x);
      Ok (fst y, <[i := snd y]> (snd x))
  | None => Ok x
  end.

Fixpoint threads_run (sched : list nat) (x : Global * list gpc)
  : result (Global * list gpc) :=
  match sched with
  | [] => Ok x
  | i :: sched' =>
      do y <- threads_step i x;
      threads_run sched' y
  end.

(** [ReturnTrackerMemory(tracker)] from its first statement. *)
Definition ReturnTrackerMemory_start (mem_reference mem_base : Z) : gpc :=
  U_memset mem_reference mem_base.

(** One thread on its own: [n] steps of the call at position [pc]. *)
Fixpoint solo_run (n : nat) (pc : gpc) (g : Global) : result (Global * gpc) :=
  match n with
  | O => Ok (g, pc)
  | S n' =>
      do y <- global_step pc g;
      solo_run n' (snd y) (fst y)
  end.

End FreeList.

(** ** Contracts stated by the assertions of the writer *)

(** The index of the topmost record, [depth - 1] in [uint32_t]. *)
Definition top_index (r : Region) : nat :=
  Z.to_nat (wrap32 (current_depth (hdr r) - 1)).

(** [DCHECK_LT(0U, depth)] and
    [DCHECK_EQ(activity->activity_type & ACT_CATEGORY_MASK,
               type & ACT_CATEGORY_MASK)] of ChangeActivity. *)
Definition change_precondition (type : Z) (r : Region) : Prop :=
  0 < current_depth (hdr r) /\
  (type <> ACT_NULL ->
   forall a, stack r !! top_index r = Some a ->
             category (activity_type a) = category type).

Definition op_precondition (op : Op) (r : Region) : Prop :=
  match op with
  | OpChange type _ => change_precondition type r
  | _ => True
  end.

(** ** The region seen as the reference stack *)

(** The header fields that are written once, on the birth of the region. *)
Definition same_identity (h h0 : Header) : Prop :=
  cookie h = cookie h0 /\ process_id h = process_id h0 /\
  thread_ref h = thread_ref h0 /\ start_time h = start_time h0 /\
  start_ticks h = start_ticks h0 /\ stack_slots h = stack_slots h0 /\
  thread_name h = thread_name h0.

(** The region [r] of a valid tracker holds the reference stack [s]: the
    depth counts all of [s], the slots hold its first [stack_slots_]
    records, and no call stack was ever written. *)
Definition tracks (t : Tracker) (h0 : Header) (s : list Activity)
    (r : Region) : Prop :=
  IsValid t r = true /\
  same_identity (hdr r) h0 /\
  length (stack r) = Z.to_nat (stack_slots_ t) /\
  current_depth (hdr r) = Z.of_nat (length s) /\
  Z.of_nat (length s) <= UINT32_MAX /\
  take (length s) (stack r) = take (Z.to_nat (stack_slots_ t)) s /\
  Forall (fun a => call_stack a = zero_call_stack) (stack r).

(** ** Positions of ReturnTrackerMemory after its first statement *)

(** The positions [ReturnTrackerMemory(mem_reference, mem_base)] goes
    through once the [memset] is done. *)
Definition after_memset (mem_reference mem_base : Z) (pc : gpc) : Prop :=
  match pc with
  | U_tracker_count_sub ref base => ref = mem_reference /\ base = mem_base
  | U_change_type ref | U_load_count ref | U_slot_cas ref _
  | U_count_cas ref _ | U_slot_clear ref _ | U_pushed ref | U_abandoned ref =>
      ref = mem_reference /\ mem_reference <> 0
  | U_delete base => base = mem_base /\ mem_reference = 0
  | U_deleted => mem_reference = 0
  | _ => False
  end.

(** ** Well-formed free lists *)

(** The count is within the array, and the array has [kMaxThreadCount]
    entries. *)
Definition free_list_ok (kMaxThreadCount : Z) (g : Global) : Prop :=
  0 <= available_memories_count_ g <= kMaxThreadCount /\
  length (available_memories_ g) = Z.to_nat kMaxThreadCount.

(** The count a thread has loaded is one the shared count has had. *)
Definition pc_count_ok (kMaxThreadCount : Z) (pc : gpc) : Prop :=
  match pc with
  | U_slot_cas _ c | U_count_cas _ c | U_slot_clear _ c =>
      0 <= c < kMaxThreadCount
  | P_exchange c | P_count_cas c _ => 0 < c <= kMaxThreadCount
  | P_restore c old _ => 0 < c <= kMaxThreadCount /\ 0 <= old <= kMaxThreadCount
  | _ => True
  end.

(** ** A race on the free list

    The free list holds the reference 16.  Threads 0 and 1 are being born
    and take a block; threads 2 and 3 exit and return the blocks 32 and
    48. *)
Definition c8_region : Region :=
  mkRegion (mkHeader kHeaderCookie 77 88 1000 500 2 0 0 (replicate 32 0))
    (replicate 2 zero_activity).

Definition c8_global : Global :=
  mkGlobal (16 :: replicate 99 0) 1 2
    (<[16 := kTypeIdActivityTrackerFree]>
       (<[32 := kTypeIdActivityTracker]>
          (<[48 := kTypeIdActivityTracker]> ∅)))
    (<[1016 := memset_zero 2 c8_region]>
       (<[1032 := c8_region]> (<[1048 := c8_region]> ∅))).

Definition c8_threads : list gpc :=
  [P_load_count; P_load_count;
   ReturnTrackerMemory_start 32 1032; ReturnTrackerMemory_start 48 1048].

Definition c8_schedule : list nat := (
  [2; 2; 2; 3; 3; 3]   (* both exiting threads: memset, count, type tag *)
  ++ [0]               (* thread 0 loads count = 1 *)
  ++ [1; 1; 1; 1]      (* thread 1 takes 16: count = 0, slot 0 empty *)
  ++ [2; 2]            (* thread 2 loads count = 0, writes 32 to slot 0 *)
  ++ [0]               (* thread 0 exchanges slot 0: takes 32 out *)
  ++ [3; 3; 3]         (* thread 3 loads 0, writes 48 to slot 0, count = 1 *)
  ++ [2; 2]            (* thread 2 fails its count CAS, zeroes slot 0 *)
  ++ [0; 0]            (* thread 0: count CAS 1 -> 0 succeeds; type tag *)
  ++ [2; 2; 2]         (* thread 2 again: slot 0 := 32, count = 1 *)
  )%nat.

(** ** Invariants of the interleaved execution *)

Definition is_change (op : Op) : bool :=
  match op with
  | OpChange _ _ => true
  | _ => false
  end.

(** The fields of the record under copy that [memcpy] has already passed
    when it is about to copy [f]: in [dst] they are those of [src]. *)
Definition fields_before (f : field) (src dst : Activity) : Prop :=
  match f with
  | F_time_internal => True
  | F_origin_address => time_internal dst = time_internal src
  | F_activity_type =>
      time_internal dst = time_internal src /\
      origin_address dst = origin_address src
  | F_call_stack =>
      time_internal dst = time_internal src /\
      origin_address dst = origin_address src /\
      activity_type dst = activity_type src
  | F_data =>
      time_internal dst = time_internal src /\
      origin_address dst = origin_address src /\
      activity_type dst = activity_type src /\
      call_stack dst = call_stack src
  end.

Section Interleaving.

(** The tracker, the header the region was born with, the reference stack
    at the start and the operations the writer is going to perform. *)
Variable t : Tracker.
Variable h0 : Header.
Variable s0 : list Activity.
Variable ops : list Op.

(** The reference stack after the first [j] operations. *)
Definition stack_after (j : nat) : list Activity := ref_run s0 (take j ops).

(** What the writer has written of the slot it is filling. *)
Definition push_progress (pc : wpc) (depth now origin type : Z)
    (d : ActivityData) (a : Activity) : Prop :=
  match pc with
  | W_push_time depth' now' origin' type' d' =>
      depth' = depth /\ now' = now /\ origin' = origin /\ type' = type /\ d' = d
  | W_push_origin depth' origin' type' d' =>
      depth' = depth /\ origin' = origin /\ type' = type /\ d' = d /\
      time_internal a = now
  | W_push_type depth' type' d' =>
      depth' = depth /\ type' = type /\ d' = d /\
      time_internal a = now /\ origin_address a = origin
  | W_push_data depth' d' =>
      depth' = depth /\ d' = d /\
      time_internal a = now /\ origin_address a = origin /\
      activity_type a = type
  | W_push_publish depth' =>
      depth' = depth /\
      time_internal a = now /\ origin_address a = origin /\
      activity_type a = type /\ data a = d
  | _ => False
  end.

(** The writer has completed [j] operations as far as the depth tells; the
    region holds the reference stack after them. *)
Definition writer_at (j : nat) (r : Region) (w : wstate) : Prop :=
  match w_pc w with
  | W_idle | W_pop_clear => w_todo w = drop j ops
  | W_push_overflow depth =>
      exists now origin type d,
        ops !! j = Some (OpPush now origin type d) /\
        w_todo w = drop (S j) ops /\
        depth = Z.of_nat (length (stack_after j)) /\
        stack_slots_ t <= depth
  | W_change_type _ _ _ | W_change_data _ _ => False
  | pc =>
      exists now origin type d a,
        ops !! j = Some (OpPush now origin type d) /\
        w_todo w = drop (S j) ops /\
        Z.of_nat (length (stack_after j)) < stack_slots_ t /\
        stack r !! length (stack_after j) = Some a /\
        push_progress pc (Z.of_nat (length (stack_after j))) now origin type d a
  end.

Definition writer_inv (r : Region) (w : wstate) : Prop :=
  exists j, (j <= length ops)%nat /\
            tracks t h0 (stack_after j) r /\ writer_at j r w.

(** While the tear flag is still set, the records under copy are those of
    the reference stack at the moment the reader loaded the depth, and the
    part copied so far agrees with them. *)
Definition copy_sound (i : nat) (f : field) (r : Region) (w : wstate)
    (s : rstate) : Prop :=
  exists j, (j <= length ops)%nat /\
    let tgt := take (Z.to_nat (stack_slots_ t)) (stack_after j) in
    r_depth s = Z.of_nat (length (stack_after j)) /\
    r_count s = length tgt /\
    take (r_count s) (stack r) = tgt /\
    (w_pc w = W_pop_clear \/ r_depth s <= current_depth (hdr r)) /\
    take i (activity_stack (r_out s)) = take i tgt /\
    (forall a b, tgt !! i = Some a -> activity_stack (r_out s) !! i = Some b ->
                 fields_before f a b).

Definition copy_phase (i : nat) (f : field) (r : Region) (w : wstate)
    (s : rstate) : Prop :=
  (r_count s <= Z.to_nat (stack_slots_ t))%nat /\
  length (activity_stack (r_out s)) = r_count s /\
  (stack_unchanged (hdr r) <> 0 -> copy_sound i f r w s).

(** The copy that passed the tear check. *)
Definition copied (j : nat) (o : ActivitySnapshot) : Prop :=
  (j <= length ops)%nat /\
  activity_stack o = take (Z.to_nat (stack_slots_ t)) (stack_after j) /\
  activity_stack_depth o = Z.of_nat (length (stack_after j)).

Definition reader_inv (r : Region) (w : wstate) (s : rstate) : Prop :=
  let o := r_out s in
  match r_pc s with
  | R_memcpy i f => (i < r_count s)%nat /\ copy_phase i f r w s
  | R_load_unchanged => copy_phase (r_count s) F_time_internal r w s
  | R_read_thread_name => exists j, copied j o
  | R_read_thread_id =>
      exists j, copied j o /\ snap_thread_name o = take 31 (thread_name h0)
  | R_load_process_id_again =>
      exists j, copied j o /\ snap_thread_name o = take 31 (thread_name h0) /\
                snap_thread_id o = thread_ref h0
  | R_IsValid_again | R_translate =>
      exists j, copied j o /\
                snap_thread_name o = name_of_buffer (thread_name h0) /\
                snap_thread_id o = thread_ref h0 /\
                snap_process_id o = process_id h0
  | R_return true =>
      exists j, (j <= length ops)%nat /\
                o = reference_snapshot t h0 (stack_after j)
  | _ => True
  end.

Definition sys_inv (sy : system) : Prop :=
  writer_inv (sys_region sy) (sys_writer sy) /\
  reader_inv (sys_region sy) (sys_writer sy) (sys_reader sy).

End Interleaving.

(** What a writer step does to the parts of the region a reader relies
    on. *)
Definition writer_frame (r : Region) (w : wstate) (r' : Region) (w' : wstate)
  : Prop :=
  (w_pc w = W_pop_clear -> stack_unchanged (hdr r') = 0) /\
  (w_pc w <> W_pop_clear ->
   stack_unchanged (hdr r') = stack_unchanged (hdr r) /\
   (forall c : nat, Z.of_nat c <= current_depth (hdr r) ->
                    take c (stack r') = take c (stack r)) /\
   (w_pc w' = W_pop_clear \/ current_depth (hdr r) <= current_depth (hdr r'))).

(** ** The reader against any environment *)

(** Before each step of the reader the region holds whatever the rest of
    the world left there: the writer's operations, or the zeros of a
    thread that exited. *)
Fixpoint reader_run_any (t : Tracker) (regions : list Region) (s : rstate)
  : result rstate :=
  match regions with
  | [] => Ok s
  | r :: regions' =>
      do x <- reader_step t r s;
      reader_run_any t regions' (snd x)
  end.

(** ** Concrete regions and operations for the examples *)

Definition c9_region : Region :=
  mkRegion (mkHeader kHeaderCookie 77 88 1000 500 2 1 1 (replicate 32 0))
    [mkActivity 510 4096 (ACT_GENERIC + 1) zero_call_stack 42; zero_activity].

Definition c3_region : Region :=
  mkRegion (mkHeader kHeaderCookie 77 88 1000 500 2 0 0 (replicate 32 0))
    (replicate 2 zero_activity).

Definition c3_pushes : list Op :=
  [OpPush 510 1 ACT_TASK_RUN 42; OpPush 520 2 ACT_LOCK_ACQUIRE 43;
   OpPush 530 3 ACT_GENERIC 44].

Definition c1_ops : list Op :=
  [OpPush 510 1 ACT_TASK_RUN 42; OpPush 520 2 ACT_LOCK_ACQUIRE 43;
   OpPush 530 3 ACT_GENERIC 44; OpPop; OpPop].

Definition empty_snapshot : ActivitySnapshot := mkSnapshot [] 0 [] 0 0.

(** ** What a reader leaves in its output *)

(** The output has the size the last copy gave it. *)
Definition sized (t : Tracker) (s : rstate) : Prop :=
  length (activity_stack (r_out s)) = r_count s /\
  r_count s = Z.to_nat (Z.min (r_depth s) (stack_slots_ t)).

(** Before the first copy the output is the object [o] the caller passed;
    from the first copy on it holds a copy. *)
Definition out_inv (t : Tracker) (o : ActivitySnapshot) (s : rstate) : Prop :=
  match r_pc s with
  | R_IsValid => r_out s = o
  | R_load_process_id | R_load_thread_id | R_store_unchanged | R_load_depth
  | R_return false => r_out s = o \/ sized t s
  | _ => sized t s
  end.

(** ** Two interleavings of a reader with the writer *)

Definition two_slots : Tracker := mkTracker 2 true.

(** An in-place change lands in the middle of the copy of the record. *)
Definition c2_ops : list Op :=
  [OpPush 510 1 (ACT_GENERIC + 1) 42;
   OpChange (ACT_GENERIC + 7) (RefOther 99)].

Definition c2_schedule : list thread :=
  replicate 6 Writer      (* the push, up to the published depth *)
  ++ replicate 5 Reader   (* IsValid, ids, flag := 1, depth = 1 *)
  ++ replicate 3 Reader   (* copy time_internal, origin_address, activity_type *)
  ++ replicate 3 Writer   (* the change: depth, activity_type, data *)
  ++ replicate 2 Reader   (* copy call_stack, data *)
  ++ replicate 6 Reader.  (* flag still 1, name, ids, IsValid, wall time *)

(** The record the reader ends up with: the old type with the new data. *)
Definition c2_torn : Activity :=
  mkActivity 510 1 (ACT_GENERIC + 1) zero_call_stack 99.

Definition c2_never_torn (k : nat) : bool :=
  match sys_run two_slots (take k c2_schedule)
          (sys_init c3_region c2_ops empty_snapshot) with
  | Ok sy =>
      match stack (sys_region sy) !! 0%nat with
      | Some a => negb ((activity_type a =? ACT_GENERIC + 1) && (data a =? 99))
      | None => true
      end
  | Fault => true
  end.





(** A push in the middle of the copy: the snapshot succeeds. *)
Definition c2_good_ops : list Op :=
  [OpPush 510 1 ACT_TASK_RUN 42; OpPush 520 2 ACT_LOCK_ACQUIRE 43; OpPop].

Definition c2_good_schedule : list thread :=
  replicate 6 Writer ++ replicate 8 Reader ++ replicate 6 Writer
  ++ replicate 8 Reader.

(** ** The steps an operation takes when the writer runs alone *)

Definition op_steps (t : Tracker) (r : Region) (op : Op) : nat :=
  match op with
  | OpPush _ _ _ _ => if stack_slots_ t <=? current_depth (hdr r) then 2 else 6
  | OpChange _ _ => if current_depth (hdr r) <=? stack_slots_ t then 3 else 1
  | OpPop => 2
  end.

(** ** Further definitions: what a Snapshot of a region shows *)

(** The output of a Snapshot that nobody disturbs, read off the region. *)
Definition snapshot_of (t : Tracker) (r : Region) : ActivitySnapshot :=
  mkSnapshot
    (to_wall (hdr r) <$>
       take (Z.to_nat (Z.min (current_depth (hdr r)) (stack_slots_ t)))
            (stack r))
    (current_depth (hdr r))
    (name_of_buffer (thread_name (hdr r)))
    (thread_ref (hdr r))
    (process_id (hdr r)).

(** A block as the allocator hands it out: all zeros. *)
Definition zero_region (slots : nat) : Region :=
  mkRegion zero_header (replicate slots zero_activity).

(** An environment for the examples: thread handle, wall clock, ticks, the
    name "net" and the process id. *)
Definition example_env : Env := mkEnv 88 1000 500 [110; 101; 116; 0] 77.

(** [(size - sizeof(Header)) / sizeof(Activity)], the number of records a
    block of [size] bytes holds. *)
Definition slots_of_size (sizeof_Header sizeof_Activity size : Z) : Z :=
  wrap_size_t (size - sizeof_Header) / sizeof_Activity.

(** Every field the constructor takes from the environment is set. *)
Definition env_nonzero (e : Env) : Prop :=
  env_process_id e <> 0 /\ env_thread_handle e <> 0 /\
  env_time_now e <> 0 /\ env_ticks_now e <> 0.

(** Another process, as an analyser of the file would be. *)
Definition other_env : Env := mkEnv 5 2000 900 [0] 6.

(** The last byte of the name buffer is zero. *)
Definition thread_name_last_ok (buf : list Z) : Prop :=
  default 0 (buf !! 31%nat) = 0.

(** ** How long a Snapshot can take *)

Definition field_index (f : field) : nat :=
  match f with
  | F_time_internal => 0
  | F_origin_address => 1
  | F_activity_type => 2
  | F_call_stack => 3
  | F_data => 4
  end.

(** The accesses of one attempt over a stack of [n] slots: four before
    the copy, five for each record, six after it. *)
Definition attempt_steps (n : nat) : nat := 5 * n + 10.

(** A bound on the accesses the reader at [s] has left in its attempt. *)
Definition steps_in_attempt (n : nat) (s : rstate) : nat :=
  match r_pc s with
  | R_IsValid => S (attempt_steps n)
  | R_load_process_id => attempt_steps n
  | R_load_thread_id => 5 * n + 9
  | R_store_unchanged => 5 * n + 8
  | R_load_depth => 5 * n + 7
  | R_memcpy i f => 5 * (r_count s - S i) + (5 - field_index f) + 6
  | R_load_unchanged => 6
  | R_read_thread_name => 5
  | R_read_thread_id => 4
  | R_load_process_id_again => 3
  | R_IsValid_again => 2
  | R_translate => 1
  | R_return _ => 0
  end.

(** A bound on the accesses left until Snapshot returns. *)
Definition steps_left (n : nat) (s : rstate) : nat :=
  match r_pc s with
  | R_return _ => 0
  | _ => (kMaxAttempts - 1 - r_attempt s) * attempt_steps n
         + steps_in_attempt n s
  end.

Definition Snapshot_step_bound (t : Tracker) : nat :=
  S (kMaxAttempts * attempt_steps (Z.to_nat (stack_slots_ t))).

(** While it copies, the reader is inside the count it computed and its
    output has that many entries. *)
Definition copy_in_bounds (t : Tracker) (s : rstate) : Prop :=
  match r_pc s with
  | R_memcpy i _ => (i < r_count s)%nat /\ sized t s
  | _ => True
  end.

(** A region with all the records the tracker was sized for. *)
Definition full_size (t : Tracker) (r : Region) : Prop :=
  (Z.to_nat (stack_slots_ t) <= length (stack r))%nat.

(** ** The shape of what a successful Snapshot reports *)

Definition name_ok (name : list Z) : Prop :=
  (length name <= 31)%nat /\ Forall (fun c => c <> 0) name.

Definition result_shape (t : Tracker) (s : rstate) : Prop :=
  let o := r_out s in
  length (activity_stack o)
    = Z.to_nat (Z.min (activity_stack_depth o) (stack_slots_ t)) /\
  name_ok (snap_thread_name o) /\
  snap_process_id o = starting_process_id s /\
  snap_thread_id o = starting_thread_id s.

(** What the reader has established on its way to a successful return. *)
Definition result_inv (s : rstate) : Prop :=
  let o := r_out s in
  match r_pc s with
  | R_read_thread_name => activity_stack_depth o = r_depth s
  | R_read_thread_id | R_load_process_id_again =>
      activity_stack_depth o = r_depth s /\
      (length (snap_thread_name o) <= 31)%nat
  | R_IsValid_again | R_translate | R_return true =>
      activity_stack_depth o = r_depth s /\
      name_ok (snap_thread_name o) /\
      snap_process_id o = starting_process_id s /\
      snap_thread_id o = starting_thread_id s
  | _ => True
  end.

(** ** The free list, one call at a time and under any interleaving *)

(** What [ChangeType(ref, to, from)] does to the type tags. *)
Definition change_tag (ref : Z) (to from : TypeId) (m : gmap Z TypeId)
  : gmap Z TypeId :=
  match m !! ref with
  | Some ty => if TypeId_eqb ty from then <[ref := to]> m else m
  | None => m
  end.

(** The positions that touch only the free list, its count and the type
    tags: all of [CreateTrackerForCurrentThread]'s loop, and
    [ReturnTrackerMemory] of an allocator block once the block is zeroed. *)
Definition list_phase (pc : gpc) : Prop :=
  match pc with
  | U_memset _ _ | U_delete _ => False
  | U_tracker_count_sub ref _ => ref <> 0
  | _ => True
  end.

(** [ReturnTrackerMemory] has come to its end. *)
Definition returned (pc : gpc) : bool :=
  match pc with
  | U_pushed _ | U_abandoned _ | U_deleted => true
  | _ => false
  end.

(** A free list of four entries holding 16, with the block 32 in use. *)
Definition example_global : Global :=
  mkGlobal [16; 0; 0; 0] 1 2
    (<[16 := kTypeIdActivityTrackerFree]>
       (<[32 := kTypeIdActivityTracker]> ∅))
    (<[1016 := memset_zero 2 c8_region]> (<[1032 := c9_region]> ∅)).

(** ** A free list left with an entry above its count

    The free list holds 16 and 32.  Threads 0, 1 and 3 are being born;
    thread 2 exits and returns the block 48.  Afterwards thread 4, the
    one born as thread 1, exits and returns 32.  When the count CAS of
    thread 0 fails the count has gone down, not up as the
    [DCHECK_LT(count, oldcount)] there expects. *)
Definition stale_start : Global :=
  mkGlobal [16; 32; 0; 0] 2 5
    (<[16 := kTypeIdActivityTrackerFree]>
       (<[32 := kTypeIdActivityTrackerFree]>
          (<[48 := kTypeIdActivityTracker]> ∅)))
    (<[1016 := memset_zero 2 c8_region]>
       (<[1032 := memset_zero 2 c8_region]> (<[1048 := c8_region]> ∅))).

Definition stale_threads : list gpc :=
  [P_load_count; P_load_count; ReturnTrackerMemory_start 48 1048;
   P_load_count; ReturnTrackerMemory_start 32 1032].

Definition stale_schedule : list nat := (
  [0]                  (* thread 0 loads count = 2 *)
  ++ [1; 1; 1; 1]      (* thread 1 takes 32: count = 1, slot 1 empty *)
  ++ [2; 2; 2; 2; 2]   (* thread 2: memset, count, tag; loads 1, slot 1 := 48 *)
  ++ [0]               (* thread 0 exchanges slot 1: takes 48 out *)
  ++ [3; 3; 3; 3]      (* thread 3 takes 16: count = 0 *)
  ++ [2; 2; 2; 2; 2]   (* thread 2: count CAS fails, slot 1 := 0; pushes 48
                          to slot 0, count = 1 *)
  ++ [0; 0; 0; 0; 0]   (* thread 0: count CAS fails, slot 1 := 48 again;
                          then takes 48 from slot 0, count = 0 *)
  ++ [4; 4; 4; 4; 4; 4] (* thread 4 returns 32 to slot 0, count = 1 *)
  )%nat.

Definition stale_global : Global :=
  mkGlobal [32; 48; 0; 0] 1 3
    (<[16 := kTypeIdActivityTracker]>
       (<[32 := kTypeIdActivityTrackerFree]>
          (<[48 := kTypeIdActivityTracker]> ∅)))
    (<[1016 := memset_zero 2 c8_region]>
       (<[1032 := memset_zero 2 c8_region]>
          (<[1048 := memset_zero 2 c8_region]> ∅))).

(** The references on the free list, the oldest first. *)
Definition free_refs (g : Global) : list Z :=
  take (Z.to_nat (available_memories_count_ g)) (available_memories_ g).

(** A free list as non-overlapping calls leave it: references below the
    count, zeros from the count on. *)
Definition clean_free_list (kMaxThreadCount : Z) (g : Global) : Prop :=
  free_list_ok kMaxThreadCount g /\
  Forall (fun ref => ref <> 0) (free_refs g) /\
  Forall (fun ref => ref = 0)
    (drop (Z.to_nat (available_memories_count_ g)) (available_memories_ g)).

(** [GlobalActivityTracker::GlobalActivityTracker]: no tracker, an empty
    free list of zeros.  [types] and [mem] are the allocator's. *)
Definition GlobalActivityTracker_new (kMaxThreadCount : Z)
    (types : gmap Z TypeId) (mem : gmap Z Region) : Global :=
  mkGlobal (replicate (Z.to_nat kMaxThreadCount) 0) 0 0 types mem.

(** ** ScopedActivity *)

(** [static_cast<ActivityType>(ACT_GENERIC | action)], the type
    ScopedActivity pushes and changes to. *)
Definition ScopedActivity_type (action : Z) : Z := Z.lor ACT_GENERIC action.

(** ** The records a copy leaves in the output

    [rs] are the regions the reader finds at the accesses of one copy, in
    order: five for each record, one for each field. *)











(** * Properties *)

(** ** Basic facts about the region *)

Lemma wrap32_small z : 0 <= z <= UINT32_MAX -> wrap32 z = z.
Proof. unfold wrap32, UINT32_MAX. intros. apply Z.mod_small. lia. Qed.

Lemma store_slot_Ok i f r a :
  stack r !! Z.to_nat i = Some a ->
  store_slot i f r = Ok (mkRegion (hdr r) (<[Z.to_nat i := f a]> (stack r))).
Proof. unfold store_slot. intros ->. reflexivity. Qed.

Lemma store_slot_inv i f r r' :
  store_slot i f r = Ok r' ->
  exists a, stack r !! Z.to_nat i = Some a
            /\ r' = mkRegion (hdr r) (<[Z.to_nat i := f a]> (stack r)).
Proof.
  unfold store_slot. destruct (stack r !! Z.to_nat i) as [a|] eqn:E; [|discriminate].
  intros [= <-]. eauto.
Qed.

Lemma store_slot_hdr i f r r' : store_slot i f r = Ok r' -> hdr r' = hdr r.
Proof. intros (a & _ & ->)%store_slot_inv. reflexivity. Qed.

Lemma store_slot_length i f r r' :
  store_slot i f r = Ok r' -> length (stack r') = length (stack r).
Proof. intros (a & _ & ->)%store_slot_inv. simpl. apply length_insert. Qed.

Lemma store_slot_other i f r r' j :
  store_slot i f r = Ok r' -> j <> Z.to_nat i -> stack r' !! j = stack r !! j.
Proof.
  intros (a & _ & ->)%store_slot_inv Hne. simpl.
  apply list_lookup_insert_ne. congruence.
Qed.

Lemma store_slot_same i f r r' a :
  store_slot i f r = Ok r' -> stack r !! Z.to_nat i = Some a ->
  stack r' !! Z.to_nat i = Some (f a).
Proof.
  intros (a' & Ha & ->)%store_slot_inv Hl. simpl.
  rewrite Hl in Ha. injection Ha as <-.
  apply list_lookup_insert_eq. apply lookup_lt_Some in Hl. exact Hl.
Qed.

(** What a push below capacity leaves in memory. *)
Lemma PushActivity_below t now origin type d r a :
  current_depth (hdr r) < stack_slots_ t ->
  stack r !! Z.to_nat (current_depth (hdr r)) = Some a ->
  PushActivity t now origin type d r =
    Ok (mkRegion
          (set_current_depth (wrap32 (current_depth (hdr r) + 1)) (hdr r))
          (<[Z.to_nat (current_depth (hdr r)) :=
               mkActivity now origin type (call_stack a) d]> (stack r))).
Proof.
  intros Hlt Ha. unfold PushActivity.
  destruct (Z.leb_spec (stack_slots_ t) (current_depth (hdr r))) as [?|_]; [lia|].
  pose proof (lookup_lt_Some _ _ _ Ha) as Hlen.
  rewrite (store_slot_Ok _ _ _ _ Ha). simpl.
  unfold store_slot at 1. simpl. rewrite list_lookup_insert_eq by exact Hlen. simpl.
  unfold store_slot at 1. simpl.
  rewrite list_lookup_insert_eq by (rewrite length_insert; exact Hlen). simpl.
  unfold store_slot at 1. simpl.
  rewrite list_lookup_insert_eq by (rewrite !length_insert; exact Hlen). simpl.
  rewrite !list_insert_insert_eq. reflexivity.
Qed.

Lemma PushActivity_overflow t now origin type d r :
  stack_slots_ t <= current_depth (hdr r) ->
  PushActivity t now origin type d r =
    Ok (with_hdr (set_current_depth (wrap32 (current_depth (hdr r) + 1))) r).
Proof.
  intros Hle. unfold PushActivity.
  destruct (Z.leb_spec (stack_slots_ t) (current_depth (hdr r))); [reflexivity|lia].
Qed.

(** ** ChangeActivity *)

Lemma ChangeActivity_overflowed t type d r :
  stack_slots_ t < current_depth (hdr r) -> ChangeActivity t type d r = Ok r.
Proof.
  intros H. unfold ChangeActivity.
  destruct (Z.leb_spec (current_depth (hdr r)) (stack_slots_ t)); [lia|reflexivity].
Qed.

Lemma ChangeActivity_top t type d r a :
  current_depth (hdr r) <= stack_slots_ t ->
  stack r !! top_index r = Some a ->
  ChangeActivity t type d r =
    Ok (mkRegion (hdr r) (<[top_index r := changed_record type d a]> (stack r))).
Proof.
  intros Hle Ha. unfold ChangeActivity, changed_record.
  destruct (Z.leb_spec (current_depth (hdr r)) (stack_slots_ t)) as [_|?]; [|lia].
  fold (top_index r).
  pose proof (lookup_lt_Some _ _ _ Ha) as Hlen.
  cbv zeta.
  destruct (type =? ACT_NULL); simpl.
  - destruct d as [|v]; simpl.
    + rewrite list_insert_id by exact Ha. destruct r; reflexivity.
    + rewrite (store_slot_Ok _ _ r a Ha). reflexivity.
  - rewrite (store_slot_Ok _ _ r a Ha).
    destruct d as [|v]; simpl; [reflexivity|].
    erewrite store_slot_Ok
      by (simpl; apply list_lookup_insert_eq; exact Hlen).
    simpl. fold (top_index r). rewrite list_insert_insert_eq. reflexivity.
Qed.

Lemma ChangeActivity_inv t type d r r' :
  ChangeActivity t type d r = Ok r' ->
  r' = r \/
  exists a, stack r !! top_index r = Some a /\
            current_depth (hdr r) <= stack_slots_ t /\
            r' = mkRegion (hdr r)
                   (<[top_index r := changed_record type d a]> (stack r)).
Proof.
  intros H.
  destruct (Z.le_gt_cases (current_depth (hdr r)) (stack_slots_ t)) as [Hle|Hgt].
  - destruct (stack r !! top_index r) as [a|] eqn:Ha.
    + right. exists a. rewrite (ChangeActivity_top _ _ _ _ _ Hle Ha) in H.
      injection H as <-. auto.
    + left. revert H. unfold ChangeActivity.
      destruct (Z.leb_spec (current_depth (hdr r)) (stack_slots_ t)) as [_|?]; [|lia].
      cbv zeta. unfold store_slot. fold (top_index r). rewrite Ha.
      destruct (type =? ACT_NULL); simpl; [|discriminate].
      destruct d; simpl; [congruence|].
      fold (top_index r). rewrite Ha. discriminate.
  - left. rewrite ChangeActivity_overflowed in H by lia. congruence.
Qed.

Lemma changed_record_frame type d a :
  time_internal (changed_record type d a) = time_internal a /\
  origin_address (changed_record type d a) = origin_address a /\
  call_stack (changed_record type d a) = call_stack a.
Proof.
  unfold changed_record.
  destruct (type =? ACT_NULL), d; simpl; auto.
Qed.

Lemma changed_record_type type d a :
  activity_type (changed_record type d a) =
    if type =? ACT_NULL then activity_type a else type.
Proof. unfold changed_record. destruct (type =? ACT_NULL), d; reflexivity. Qed.

Lemma changed_record_data type d a :
  data (changed_record type d a) =
    if is_kNullActivityData d then data a else deref d.
Proof. unfold changed_record. destruct (type =? ACT_NULL), d; reflexivity. Qed.

(** C9: ChangeActivity leaves the whole header (so [current_depth] and
    [stack_unchanged] too) and every record but the topmost as they were,
    and in the topmost record it leaves [time_internal], [origin_address]
    and [call_stack] as they were. *)
Theorem C9_ChangeActivity_frame t type d r r' :
  ChangeActivity t type d r = Ok r' ->
  hdr r' = hdr r /\
  length (stack r') = length (stack r) /\
  (forall i, i <> top_index r -> stack r' !! i = stack r !! i) /\
  (forall a, stack r !! top_index r = Some a ->
     exists a', stack r' !! top_index r = Some a' /\
                time_internal a' = time_internal a /\
                origin_address a' = origin_address a /\
                call_stack a' = call_stack a).
Proof.
  intros H. apply ChangeActivity_inv in H as [->|(a & Ha & _ & ->)]; simpl.
  - repeat split; eauto.
  - pose proof (lookup_lt_Some _ _ _ Ha) as Hlen.
    repeat split.
    + apply length_insert.
    + intros i Hi. apply list_lookup_insert_ne. congruence.
    + intros a0 Ha0. rewrite Ha in Ha0. injection Ha0 as <-.
      exists (changed_record type d a).
      rewrite list_lookup_insert_eq by exact Hlen.
      split; [reflexivity|]. apply changed_record_frame.
Qed.


Lemma C9_ChangeActivity_frame_witness :
  let r := c9_region in
  let r' := mkRegion (hdr r)
              [mkActivity 510 4096 (ACT_GENERIC + 7) zero_call_stack 43;
               zero_activity] in
  hdr r' = hdr r /\
  length (stack r') = length (stack r) /\
  (forall i, i <> top_index r -> stack r' !! i = stack r !! i) /\
  (forall a, stack r !! top_index r = Some a ->
     exists a', stack r' !! top_index r = Some a' /\
                time_internal a' = time_internal a /\
                origin_address a' = origin_address a /\
                call_stack a' = call_stack a).
Proof.
  apply (C9_ChangeActivity_frame (mkTracker 2 true) (ACT_GENERIC + 7)
           (RefOther 43) c9_region).
  reflexivity.
Defined.

(** C10: the payload is skipped by the identity of the argument, not by its
    value.  With the [kNullActivityData] object itself the data of the
    topmost record stays; with any other object, also one that holds the
    same all-zero value, the data is overwritten by the value of the
    argument. *)
Theorem C10_null_payload_by_address t type r a :
  current_depth (hdr r) <= stack_slots_ t ->
  stack r !! top_index r = Some a ->
  (exists r' a',
     ChangeActivity t type RefNullActivityData r = Ok r' /\
     stack r' !! top_index r = Some a' /\ data a' = data a) /\
  (forall v, exists r' a',
     ChangeActivity t type (RefOther v) r = Ok r' /\
     stack r' !! top_index r = Some a' /\ data a' = v) /\
  (deref (RefOther kNullActivityData) = deref RefNullActivityData /\
   exists r' a',
     ChangeActivity t type (RefOther kNullActivityData) r = Ok r' /\
     stack r' !! top_index r = Some a' /\ data a' = kNullActivityData).
Proof.
  intros Hle Ha.
  pose proof (lookup_lt_Some _ _ _ Ha) as Hlen.
  assert (Hall : forall d, exists r' a',
            ChangeActivity t type d r = Ok r' /\
            stack r' !! top_index r = Some a' /\
            data a' = if is_kNullActivityData d then data a else deref d).
  { intros d. eexists _, _. split; [apply (ChangeActivity_top _ _ _ _ _ Hle Ha)|].
    simpl. split; [apply list_lookup_insert_eq; exact Hlen|].
    apply changed_record_data. }
  split; [apply (Hall RefNullActivityData)|].
  split; [intros v; apply (Hall (RefOther v))|].
  split; [reflexivity|apply (Hall (RefOther kNullActivityData))].
Qed.

Lemma C10_null_payload_by_address_witness :
  (exists r' a',
     ChangeActivity (mkTracker 2 true) ACT_NULL RefNullActivityData c9_region
       = Ok r' /\
     stack r' !! top_index c9_region = Some a' /\ data a' = 42) /\
  (exists r' a',
     ChangeActivity (mkTracker 2 true) ACT_NULL (RefOther kNullActivityData)
       c9_region = Ok r' /\
     stack r' !! top_index c9_region = Some a' /\ data a' = 0).
Proof.
  destruct (C10_null_payload_by_address (mkTracker 2 true) ACT_NULL c9_region
              (mkActivity 510 4096 (ACT_GENERIC + 1) zero_call_stack 42))
    as (H1 & _ & _ & H3).
  - simpl. lia.
  - reflexivity.
  - split; [exact H1|exact H3].
Defined.

(** ** Every operation and the records below the top *)

Lemma PopActivity_stack r : stack (PopActivity r) = stack r.
Proof. reflexivity. Qed.

Lemma PushActivity_inv t now origin type d r r' :
  PushActivity t now origin type d r = Ok r' ->
  (stack_slots_ t <= current_depth (hdr r) /\
   r' = with_hdr (set_current_depth (wrap32 (current_depth (hdr r) + 1))) r)
  \/
  (current_depth (hdr r) < stack_slots_ t /\
   exists a, stack r !! Z.to_nat (current_depth (hdr r)) = Some a /\
     r' = mkRegion
            (set_current_depth (wrap32 (current_depth (hdr r) + 1)) (hdr r))
            (<[Z.to_nat (current_depth (hdr r)) :=
                 mkActivity now origin type (call_stack a) d]> (stack r))).
Proof.
  intros H.
  destruct (Z.le_gt_cases (stack_slots_ t) (current_depth (hdr r))) as [Hle|Hgt].
  - left. rewrite PushActivity_overflow in H by exact Hle. split; congruence.
  - right. split; [lia|].
    destruct (stack r !! Z.to_nat (current_depth (hdr r))) as [a|] eqn:Ha.
    + exists a. rewrite (PushActivity_below _ _ _ _ _ _ a) in H by (lia || exact Ha).
      split; congruence.
    + exfalso. revert H. unfold PushActivity.
      destruct (Z.leb_spec (stack_slots_ t) (current_depth (hdr r))); [lia|].
      unfold store_slot at 1. rewrite Ha. discriminate.
Qed.

(** C4: the category bits of a record stay as they are while the record is
    on the stack.  Under the contract that ChangeActivity asserts, no
    operation changes the category of a record that is on the stack before
    and after it; ChangeActivity with a type other than [ACT_NULL] stores
    that type, with [ACT_NULL] it keeps the type, with the
    [kNullActivityData] object it keeps the data; and with a depth above
    the number of slots it changes nothing. *)
Theorem C4_category_is_invariant t op r r' :
  0 <= current_depth (hdr r) ->
  op_precondition op r ->
  apply_op t op r = Ok r' ->
  (forall i a,
     Z.of_nat i < current_depth (hdr r) ->
     Z.of_nat i < current_depth (hdr r') ->
     stack r !! i = Some a ->
     exists a', stack r' !! i = Some a' /\
                category (activity_type a') = category (activity_type a)) /\
  (forall type d a,
     op = OpChange type d ->
     current_depth (hdr r) <= stack_slots_ t ->
     stack r !! top_index r = Some a ->
     exists a', stack r' !! top_index r = Some a' /\
                (type <> ACT_NULL -> activity_type a' = type) /\
                (type = ACT_NULL -> activity_type a' = activity_type a) /\
                (d = RefNullActivityData -> data a' = data a)) /\
  (forall type d,
     op = OpChange type d ->
     stack_slots_ t < current_depth (hdr r) -> r' = r).
Proof.
  intros Hd0 Hpre Hrun. split; [|split].
  - intros i a Hi Hi' Ha. destruct op as [now origin type d|type d|]; simpl in *.
    + apply PushActivity_inv in Hrun as [[_ ->]|[Hlt (a0 & Ha0 & ->)]]; simpl.
      * eauto.
      * exists a. split; [|reflexivity].
        rewrite list_lookup_insert_ne by lia. exact Ha.
    + apply ChangeActivity_inv in Hrun as [->|(a0 & Ha0 & Hle & ->)]; simpl.
      * eauto.
      * destruct (decide (i = top_index r)) as [->|Hne].
        -- rewrite Ha0 in Ha. injection Ha as ->.
           exists (changed_record type d a).
           rewrite list_lookup_insert_eq by (eapply lookup_lt_Some; exact Ha0).
           split; [reflexivity|].
           rewrite changed_record_type.
           destruct (Z.eqb_spec type ACT_NULL) as [_|Hn]; [reflexivity|].
           symmetry. apply Hpre; assumption.
        -- exists a. rewrite list_lookup_insert_ne by congruence. auto.
    + injection Hrun as <-. simpl. eauto.
  - intros type d a -> Hle Ha. simpl in Hrun.
    rewrite (ChangeActivity_top _ _ _ _ _ Hle Ha) in Hrun. injection Hrun as <-.
    exists (changed_record type d a). simpl.
    rewrite list_lookup_insert_eq by (eapply lookup_lt_Some; exact Ha).
    split; [reflexivity|].
    rewrite changed_record_type, changed_record_data.
    destruct (Z.eqb_spec type ACT_NULL); repeat split; try congruence.
    all: intros ->; reflexivity.
  - intros type d -> Hgt. simpl in Hrun.
    rewrite ChangeActivity_overflowed in Hrun by exact Hgt. congruence.
Qed.

Lemma C4_category_is_invariant_witness :
  exists a',
    [mkActivity 510 4096 (ACT_GENERIC + 7) zero_call_stack 42; zero_activity]
      !! top_index c9_region = Some a' /\
    (ACT_GENERIC + 7 <> ACT_NULL -> activity_type a' = ACT_GENERIC + 7) /\
    (ACT_GENERIC + 7 = ACT_NULL -> activity_type a' = ACT_GENERIC + 1) /\
    (RefNullActivityData = RefNullActivityData -> data a' = 42).
Proof.
  assert (Hpre : op_precondition (OpChange (ACT_GENERIC + 7) RefNullActivityData)
                   c9_region).
  { split; [simpl; lia|]. intros _ a [= <-]. reflexivity. }
  destruct (C4_category_is_invariant (mkTracker 2 true)
              (OpChange (ACT_GENERIC + 7) RefNullActivityData) c9_region
              (mkRegion (hdr c9_region)
                 [mkActivity 510 4096 (ACT_GENERIC + 7) zero_call_stack 42;
                  zero_activity]))
    as (_ & H2 & _).
  - simpl. lia.
  - exact Hpre.
  - reflexivity.
  - apply (H2 (ACT_GENERIC + 7) RefNullActivityData
             (mkActivity 510 4096 (ACT_GENERIC + 1) zero_call_stack 42)).
    + reflexivity.
    + simpl. lia.
    + reflexivity.
Defined.

(** ** Overflow *)

Lemma run_ops_app t ops1 ops2 r :
  run_ops t (ops1 ++ ops2) r = (do r' <- run_ops t ops1 r; run_ops t ops2 r').
Proof.
  revert r. induction ops1 as [|op ops1 IH]; intros r; simpl; [reflexivity|].
  destruct (apply_op t op r); simpl; [apply IH|reflexivity].
Qed.

Lemma pushes_below t ps r :
  forallb is_push ps = true ->
  0 <= current_depth (hdr r) ->
  length (stack r) = Z.to_nat (stack_slots_ t) ->
  current_depth (hdr r) + Z.of_nat (length ps) <= stack_slots_ t ->
  stack_slots_ t <= UINT32_MAX ->
  exists r', run_ops t ps r = Ok r' /\
             length (stack r') = length (stack r) /\
             current_depth (hdr r') = current_depth (hdr r) + Z.of_nat (length ps).
Proof.
  revert r. induction ps as [|op ps IH]; intros r Hp Hd Hlen Hfit Hmax; simpl in *.
  - exists r. repeat split; lia.
  - destruct op as [now origin type d| |]; try discriminate.
    destruct (lookup_lt_is_Some_2 (stack r) (Z.to_nat (current_depth (hdr r))))
      as [a Ha]; [lia|].
    simpl. rewrite (PushActivity_below _ _ _ _ _ _ a) by (lia || exact Ha). simpl.
    destruct (IH (mkRegion
                    (set_current_depth (wrap32 (current_depth (hdr r) + 1)) (hdr r))
                    (<[Z.to_nat (current_depth (hdr r)) :=
                         mkActivity now origin type (call_stack a) d]> (stack r))))
      as (r' & Hr' & Hl' & Hd'); simpl.
    + exact Hp.
    + rewrite wrap32_small by lia. lia.
    + rewrite length_insert. exact Hlen.
    + rewrite wrap32_small by lia. lia.
    + exact Hmax.
    + exists r'. rewrite Hr', Hl', Hd'. simpl.
      rewrite length_insert, wrap32_small by lia. repeat split; lia.
Qed.

Lemma pushes_overflow t ps r :
  forallb is_push ps = true ->
  0 <= current_depth (hdr r) ->
  stack_slots_ t <= current_depth (hdr r) ->
  current_depth (hdr r) + Z.of_nat (length ps) <= UINT32_MAX ->
  exists r', run_ops t ps r = Ok r' /\
             stack r' = stack r /\
             current_depth (hdr r') = current_depth (hdr r) + Z.of_nat (length ps).
Proof.
  revert r. induction ps as [|op ps IH]; intros r Hp Hd Hov Hmax; simpl in *.
  - exists r. repeat split; lia.
  - destruct op as [now origin type d| |]; try discriminate.
    simpl. rewrite PushActivity_overflow by exact Hov. simpl.
    assert (Hw : wrap32 (current_depth (hdr r) + 1) = current_depth (hdr r) + 1)
      by (apply wrap32_small; lia).
    rewrite Hw.
    destruct (IH (with_hdr (set_current_depth (current_depth (hdr r) + 1)) r))
      as (r' & Hr' & Hs' & Hd'); simpl; try lia.
    + exact Hp.
    + exists r'. rewrite Hr', Hs', Hd'. simpl. repeat split; lia.
Qed.

Lemma pops_only k r :
  Z.of_nat k <= current_depth (hdr r) <= UINT32_MAX ->
  forall t, exists r', run_ops t (replicate k OpPop) r = Ok r' /\
                  stack r' = stack r /\
                  current_depth (hdr r') = current_depth (hdr r) - Z.of_nat k.
Proof.
  revert r. induction k as [|k IH]; intros r Hk t; simpl.
  - exists r. repeat split; lia.
  - destruct (IH (PopActivity r)) with (t := t) as (r' & Hr' & Hs' & Hd').
    + simpl. rewrite wrap32_small by lia. lia.
    + exists r'. rewrite Hr', Hs', Hd'. simpl.
      rewrite wrap32_small by lia. repeat split; lia.
Qed.

(** The depth is a 32-bit counter: outside the contract of the writer it
    wraps around, upwards and downwards. *)
Lemma PushActivity_wraps_depth t now origin type d r :
  stack_slots_ t <= UINT32_MAX ->
  current_depth (hdr r) = UINT32_MAX ->
  exists r', PushActivity t now origin type d r = Ok r' /\
             current_depth (hdr r') = 0 /\ stack r' = stack r.
Proof.
  intros HN Hd. rewrite PushActivity_overflow by lia.
  eexists. split; [reflexivity|]. simpl. rewrite Hd. split; reflexivity.
Qed.

Lemma PopActivity_wraps_depth r :
  current_depth (hdr r) = 0 ->
  current_depth (hdr (PopActivity r)) = UINT32_MAX.
Proof. intros Hd. simpl. rewrite Hd. reflexivity. Qed.

(** C3: a push at a depth of [stack_slots_] or more stores [depth + 1] and
    leaves the records alone.  So after [N + k] pushes on an empty stack
    and [k] pops, the records are the ones the first [N] pushes left (the
    topmost, at index [N - 1], among them), the depth is [N], and no run
    faulted on a slot outside the [N] of the block. *)
Theorem C3_overflow_push_writes_no_record t :
  (forall now origin type d r,
     stack_slots_ t <= current_depth (hdr r) ->
     PushActivity t now origin type d r =
       Ok (mkRegion
             (set_current_depth (wrap32 (current_depth (hdr r) + 1)) (hdr r))
             (stack r))) /\
  (forall r ps k,
     0 <= stack_slots_ t ->
     length (stack r) = Z.to_nat (stack_slots_ t) ->
     current_depth (hdr r) = 0 ->
     forallb is_push ps = true ->
     length ps = (Z.to_nat (stack_slots_ t) + k)%nat ->
     stack_slots_ t + Z.of_nat k <= UINT32_MAX ->
     exists rN r',
       run_ops t (take (Z.to_nat (stack_slots_ t)) ps) r = Ok rN /\
       run_ops t (ps ++ replicate k OpPop) r = Ok r' /\
       stack r' = stack rN /\
       stack r' !! Z.to_nat (stack_slots_ t - 1)
         = stack rN !! Z.to_nat (stack_slots_ t - 1) /\
       length (stack r') = Z.to_nat (stack_slots_ t) /\
       current_depth (hdr rN) = stack_slots_ t /\
       current_depth (hdr r') = stack_slots_ t).
Proof.
  split.
  - intros now origin type d r Hov. apply PushActivity_overflow. exact Hov.
  - intros r ps k HN Hlen Hd0 Hp Hps Hmax.
    set (n := Z.to_nat (stack_slots_ t)) in *.
    rewrite <- (take_drop n ps) in Hp. rewrite forallb_app in Hp.
    apply andb_true_iff in Hp as [Hp1 Hp2].
    assert (Hl1 : length (take n ps) = n) by (rewrite length_take; lia).
    assert (Hl2 : length (drop n ps) = k) by (rewrite length_drop; lia).
    destruct (pushes_below t (take n ps) r) as (rN & HrN & HlN & HdN);
      try assumption; try lia.
    destruct (pushes_overflow t (drop n ps) rN) as (r1 & Hr1 & Hs1 & Hd1);
      try assumption; try lia.
    destruct (pops_only k r1) with (t := t) as (r' & Hr' & Hs' & Hd'); [lia|].
    exists rN, r'.
    split; [exact HrN|].
    split.
    { rewrite <- (take_drop n ps) at 1. rewrite <- app_assoc, run_ops_app.
      rewrite HrN. cbn [rbind]. rewrite run_ops_app, Hr1. exact Hr'. }
    assert (Hst : stack r' = stack rN) by congruence.
    rewrite Hst. repeat split; lia.
Qed.

(** Two slots, three pushes, one pop. *)
Lemma C3_overflow_push_writes_no_record_witness :
  exists rN r',
    run_ops two_slots (take 2 c3_pushes) c3_region = Ok rN /\
    run_ops two_slots (c3_pushes ++ replicate 1%nat OpPop) c3_region = Ok r' /\
    stack r' = stack rN /\
    stack r' !! 1%nat = stack rN !! 1%nat /\
    length (stack r') = 2%nat /\
    current_depth (hdr rN) = 2 /\
    current_depth (hdr r') = 2.
Proof.
  apply (proj2 (C3_overflow_push_writes_no_record two_slots) c3_region
           c3_pushes 1%nat).
  - simpl. lia.
  - reflexivity.
  - reflexivity.
  - reflexivity.
  - reflexivity.
  - vm_compute. discriminate.
Defined.

(** ** A single writer and no concurrent reader *)

Lemma same_identity_refl h : same_identity h h.
Proof. repeat split. Qed.

Lemma IsValid_same_identity t r r' :
  same_identity (hdr r') (hdr r) -> IsValid t r' = IsValid t r.
Proof.
  intros (H1 & H2 & H3 & H4 & H5 & H6 & H7). unfold IsValid.
  rewrite H1, H2, H3, H4, H5, H6, H7. reflexivity.
Qed.

Lemma tracks_op t h0 s r op :
  tracks t h0 s r ->
  op_in_contract s op = true ->
  exists r', apply_op t op r = Ok r' /\ tracks t h0 (ref_step s op) r'.
Proof.
  intros (Hv & Hid & Hlen & Hd & Hmax & Htake & Hcs) Hc.
  set (n := Z.to_nat (stack_slots_ t)) in *.
  destruct op as [now origin type d|type d|]; simpl in *.
  - (* PushActivity *)
    apply Z.ltb_lt in Hc.
    destruct (Z.le_gt_cases (stack_slots_ t) (current_depth (hdr r))) as [Hov|Hlt].
    + rewrite PushActivity_overflow by exact Hov. eexists. split; [reflexivity|].
      unfold tracks. simpl. rewrite length_app. simpl.
      rewrite wrap32_small by lia.
      split; [rewrite <- Hv; apply IsValid_same_identity; repeat split|].
      split; [exact Hid|]. split; [exact Hlen|].
      split; [lia|]. split; [lia|]. split; [|exact Hcs].
      fold n. rewrite take_app_le by lia.
      rewrite <- Htake. rewrite !take_ge by lia. reflexivity.
    + destruct (lookup_lt_is_Some_2 (stack r) (Z.to_nat (current_depth (hdr r))))
        as [a Ha]; [lia|].
      rewrite (PushActivity_below _ _ _ _ _ _ a) by (lia || exact Ha).
      eexists. split; [reflexivity|].
      unfold tracks. simpl. rewrite length_app, length_insert. simpl.
      rewrite wrap32_small by lia.
      assert (Hza : call_stack a = zero_call_stack).
      { rewrite Forall_lookup in Hcs. exact (Hcs _ _ Ha). }
      split; [rewrite <- Hv; apply IsValid_same_identity; repeat split|].
      split; [exact Hid|]. split; [exact Hlen|].
      split; [lia|]. split; [lia|]. split.
      * fold n. rewrite Hd, Nat2Z.id.
        rewrite (take_ge (s ++ _)) by (rewrite length_app; simpl; lia).
        replace (length s + 1)%nat with (S (length s)) by lia.
        erewrite take_S_r
          by (apply list_lookup_insert_eq; rewrite Hd, Nat2Z.id in Ha;
              eapply lookup_lt_Some; exact Ha).
        rewrite take_insert_ge by lia. rewrite Htake, take_ge by lia.
        rewrite Hza. reflexivity.
      * apply Forall_insert; [exact Hcs|exact Hza].
  - (* ChangeActivity *)
    apply Nat.ltb_lt in Hc.
    assert (Htop : top_index r = pred (length s)).
    { unfold top_index. rewrite Hd, wrap32_small by lia. lia. }
    destruct (Z.le_gt_cases (current_depth (hdr r)) (stack_slots_ t)) as [Hle|Hgt].
    + destruct (lookup_lt_is_Some_2 (stack r) (top_index r)) as [a Ha]; [lia|].
      rewrite (ChangeActivity_top _ _ _ _ _ Hle Ha).
      eexists. split; [reflexivity|].
      unfold tracks. simpl. rewrite length_alter, length_insert.
      split; [rewrite <- Hv; apply IsValid_same_identity; repeat split|].
      split; [exact Hid|]. split; [exact Hlen|].
      split; [lia|]. split; [lia|]. split.
      * fold n. rewrite take_insert_lt by lia. rewrite Htake.
        rewrite (take_ge (alter _ _ _)) by (rewrite length_alter; lia).
        rewrite (take_ge s) by lia. rewrite (take_ge s) in Htake by lia.
        assert (Hsa : s !! top_index r = Some a).
        { rewrite <- Htake. rewrite lookup_take_lt by lia. exact Ha. }
        rewrite Htop in *. apply list_eq. intros i.
        destruct (decide (i = pred (length s))) as [->|Hne].
        -- rewrite list_lookup_insert_eq by lia.
           rewrite list_lookup_alter_eq, Hsa. reflexivity.
        -- rewrite list_lookup_insert_ne, list_lookup_alter_ne by congruence.
           reflexivity.
      * apply Forall_insert; [exact Hcs|].
        destruct (changed_record_frame type d a) as (_ & _ & ->).
        rewrite Forall_lookup in Hcs. exact (Hcs _ _ Ha).
    + rewrite ChangeActivity_overflowed by exact Hgt.
      exists r. split; [reflexivity|].
      unfold tracks. rewrite length_alter.
      repeat split; try assumption; try apply Hid.
      fold n. rewrite take_alter_ge by lia. exact Htake.
  - (* PopActivity *)
    apply Nat.ltb_lt in Hc.
    eexists. split; [reflexivity|].
    unfold tracks. simpl. rewrite length_take.
    rewrite wrap32_small by lia.
    split; [rewrite <- Hv; apply IsValid_same_identity; repeat split|].
    split; [exact Hid|]. split; [exact Hlen|].
    split; [lia|]. split; [lia|]. split; [|exact Hcs].
    fold n. rewrite take_take.
    replace (length s `min` pred (length s))%nat with (pred (length s)) by lia.
    transitivity (take (pred (length s)) (take (length s) (stack r))).
    { rewrite take_take. f_equal; lia. }
    rewrite Htake, take_take. f_equal; lia.
Qed.

Lemma IsValid_set_unchanged t r v :
  IsValid t (with_hdr (set_stack_unchanged v) r) = IsValid t r.
Proof. reflexivity. Qed.

(** With nobody else touching the region, the first attempt succeeds. *)
Lemma Snapshot_quiet t r o :
  IsValid t r = true ->
  length (stack r) = Z.to_nat (stack_slots_ t) ->
  Snapshot t r o =
    Ok (with_hdr (set_stack_unchanged 1) r,
        mkSnapshot
          (to_wall (hdr r) <$>
             take (Z.to_nat (Z.min (current_depth (hdr r)) (stack_slots_ t)))
                  (stack r))
          (current_depth (hdr r))
          (name_of_buffer (thread_name (hdr r)))
          (thread_ref (hdr r))
          (process_id (hdr r)),
        true).
Proof.
  intros Hv Hlen. unfold Snapshot. rewrite Hv. simpl negb. cbv iota.
  unfold kMaxAttempts. cbn [Snapshot_loop]. unfold Snapshot_attempt.
  cbv zeta. cbn [hdr with_hdr stack set_stack_unchanged stack_unchanged
                 current_depth process_id thread_ref thread_name
                 activity_stack set_activity_stack].
  set (count := Z.to_nat (Z.min (current_depth (hdr r)) (stack_slots_ t))).
  assert (Hcopy :
    (if (0 <? count)%nat
     then memcpy_stack count (mkRegion (set_stack_unchanged 1 (hdr r)) (stack r))
            (resize count zero_activity (activity_stack o))
     else Ok (resize count zero_activity (activity_stack o)))
    = Ok (take count (stack r))).
  { destruct (Nat.ltb_spec 0 count) as [Hpos|Hz].
    - unfold memcpy_stack. simpl stack.
      destruct (Nat.leb_spec count (length (stack r))) as [_|Hbad]; [|lia].
      rewrite drop_ge by (rewrite length_resize; lia).
      rewrite app_nil_r. reflexivity.
    - replace count with 0%nat by lia. rewrite resize_0. reflexivity. }
  unfold with_hdr at 1. cbn [hdr stack]. unfold set_stack_unchanged at 1.
  cbn [stack_unchanged]. unfold set_stack_unchanged in Hcopy.
  rewrite Hcopy. cbn [rbind]. simpl Z.eqb. cbv iota.
  cbn [snap_process_id snap_thread_id set_snap_process_id set_snap_thread_id
       set_snap_thread_name set_activity_stack_depth set_activity_stack
       snap_thread_name activity_stack activity_stack_depth
       process_id thread_ref thread_name current_depth hdr].
  rewrite !Z.eqb_refl. simpl negb. simpl orb. cbv iota.
  rewrite IsValid_set_unchanged, Hv. simpl negb. cbv iota. cbn [rbind].
  reflexivity.
Qed.

Lemma to_wall_same_identity h h0 a :
  same_identity h h0 -> to_wall h a = to_wall h0 a.
Proof. intros (_ & _ & _ & H4 & H5 & _). unfold to_wall. rewrite H4, H5. reflexivity. Qed.

Lemma tracks_snapshot t h0 s r o :
  tracks t h0 s r ->
  Snapshot t r o =
    Ok (with_hdr (set_stack_unchanged 1) r, reference_snapshot t h0 s, true)
  /\ tracks t h0 s (with_hdr (set_stack_unchanged 1) r).
Proof.
  intros (Hv & Hid & Hlen & Hd & Hmax & Htake & Hcs). split.
  - rewrite Snapshot_quiet by assumption. unfold reference_snapshot.
    destruct Hid as (H1 & H2 & H3 & H4 & H5 & H6 & H7).
    rewrite H2, H3, H7, Hd. do 3 f_equal. f_equal.
    replace (Z.to_nat (Z.of_nat (length s) `min` stack_slots_ t))
      with (Z.to_nat (stack_slots_ t) `min` length s)%nat by lia.
    rewrite <- take_take, Htake, take_take, Nat.min_id.
    apply list_fmap_ext. intros i a _. unfold to_wall. rewrite H4, H5. reflexivity.
  - unfold tracks. simpl. rewrite IsValid_set_unchanged.
    repeat split; try assumption; apply Hid.
Qed.

Lemma run_with_snapshots_tracks t h0 ops : forall s r o,
  tracks t h0 s r ->
  in_contract s ops = true ->
  run_with_snapshots t ops r o = Ok (reference_snapshots t h0 s ops).
Proof.
  induction ops as [|op ops IH]; intros s r o Htr Hc; simpl in *; [reflexivity|].
  apply andb_true_iff in Hc as [Hc1 Hc2].
  destruct (tracks_op _ _ _ _ _ Htr Hc1) as (r1 & -> & Htr1). cbn [rbind].
  destruct (tracks_snapshot _ _ _ _ o Htr1) as [-> Htr2]. cbn [rbind].
  rewrite (IH _ _ _ Htr2 Hc2). reflexivity.
Qed.

(** C1: the owning thread performs any sequence of pushes, changes and pops
    within its contract on a freshly born region, nobody else touches the
    region, and Snapshot is called after every operation.  Every call
    succeeds and returns the reference stack cut to [stack_slots_] records
    (in wall time), with the full depth. *)
Theorem C1_snapshot_matches_reference t r0 ops o0 :
  IsValid t r0 = true ->
  length (stack r0) = Z.to_nat (stack_slots_ t) ->
  current_depth (hdr r0) = 0 ->
  Forall (fun a => call_stack a = zero_call_stack) (stack r0) ->
  in_contract [] ops = true ->
  run_with_snapshots t ops r0 o0 = Ok (reference_snapshots t (hdr r0) [] ops).
Proof.
  intros Hv Hlen Hd Hcs Hc.
  apply run_with_snapshots_tracks; [|exact Hc].
  unfold tracks. simpl. rewrite Hd.
  repeat split; try assumption; try reflexivity.
  - unfold UINT32_MAX. simpl. lia.
  - rewrite take_nil. reflexivity.
Qed.



(** Scenario S2 of the specification, two slots. *)
Lemma C1_snapshot_matches_reference_witness :
  run_with_snapshots (mkTracker 2 true) c1_ops c3_region empty_snapshot =
    Ok (reference_snapshots (mkTracker 2 true) (hdr c3_region) [] c1_ops)
  /\ (fun x => (length (activity_stack (fst x)), activity_stack_depth (fst x), snd x))
       <$> reference_snapshots (mkTracker 2 true) (hdr c3_region) [] c1_ops
     = [(1%nat, 1, true); (2%nat, 2, true); (2%nat, 3, true);
        (2%nat, 2, true); (1%nat, 1, true)].
Proof.
  split.
  - apply (C1_snapshot_matches_reference (mkTracker 2 true) c3_region c1_ops
             empty_snapshot).
    + reflexivity.
    + reflexivity.
    + reflexivity.
    + repeat constructor.
    + reflexivity.
  - reflexivity.
Defined.

(** ** Construction with parameters that are not valid *)

(** With a block at [base], a size that is too small or too large leaves a
    tracker that reports itself invalid. *)
Lemma ThreadActivityTracker_new_bad_size sizeof_Header sizeof_Activity e r size :
  size < sizeof_Header + kMinStackDepth * sizeof_Activity \/
  UINT32_MAX < wrap_size_t (size - sizeof_Header) / sizeof_Activity ->
  exists t,
    ThreadActivityTracker_new sizeof_Header sizeof_Activity e (Some r) size
      = (t, Some r) /\
    IsValid_method t (Some r) = Ok false.
Proof.
  intros Hbad. unfold ThreadActivityTracker_new.
  assert (Hc : (size <? sizeof_Header + kMinStackDepth * sizeof_Activity)
               || (UINT32_MAX <? wrap_size_t (size - sizeof_Header) / sizeof_Activity)
               = true).
  { apply orb_true_iff. destruct Hbad; [left|right]; apply Z.ltb_lt; assumption. }
  rewrite Hc. eexists. split; [reflexivity|].
  unfold IsValid_method, through_header, IsValid. simpl valid_.
  match goal with |- Ok (if ?c then _ else _) = _ => destruct c end; reflexivity.
Qed.

(** C5, evaluated at a null base pointer: the constructor completes and
    leaves [valid_] false, but IsValid dereferences [header_] before it looks
    at [valid_], and so do PushActivity and Snapshot: each of the three calls
    faults. *)
Theorem C5_null_base_IsValid_faults sizeof_Header sizeof_Activity e size
    now origin type d o :
  let t := fst (ThreadActivityTracker_new sizeof_Header sizeof_Activity e None size) in
  let mem := snd (ThreadActivityTracker_new sizeof_Header sizeof_Activity e None size) in
  mem = None /\
  valid_ t = false /\
  IsValid_method t mem = Fault /\
  PushActivity_method t now origin type d mem = Fault /\
  Snapshot_method t mem o = Fault.
Proof. repeat split. Qed.

(** ** ReturnTrackerMemory: the block is zeroed first *)

Lemma store_slot_ref_frame i v g g' :
  store_slot_ref i v g = Ok g' ->
  blocks g' = blocks g /\ alloc_types g' = alloc_types g /\
  available_memories_count_ g' = available_memories_count_ g /\
  thread_tracker_count_ g' = thread_tracker_count_ g /\
  available_memories_ g' = <[Z.to_nat i := v]> (available_memories_ g) /\
  0 <= i /\ (Z.to_nat i < length (available_memories_ g))%nat.
Proof.
  unfold store_slot_ref. destruct (Z.ltb_spec i 0); [discriminate|].
  destruct (available_memories_ g !! Z.to_nat i) eqn:E; [|discriminate].
  intros [= <-]. simpl. apply lookup_lt_Some in E. repeat split; (reflexivity || lia).
Qed.

Lemma ChangeType_frame ref to from g :
  blocks (ChangeType ref to from g) = blocks g /\
  available_memories_ (ChangeType ref to from g) = available_memories_ g /\
  available_memories_count_ (ChangeType ref to from g)
    = available_memories_count_ g.
Proof.
  unfold ChangeType. destruct (alloc_types g !! ref) as [ty|]; [|auto].
  destruct (TypeId_eqb ty from); auto.
Qed.

Section ReturnTrackerMemory.

Variable kMaxThreadCount : Z.
Variable stack_depth : nat.

Local Abbreviation step := (global_step kMaxThreadCount stack_depth).
Local Abbreviation solo := (solo_run kMaxThreadCount stack_depth).

Lemma after_memset_step ref base z pc g g' pc' :
  after_memset ref base pc ->
  (blocks g !! base = Some z \/ (ref = 0 /\ blocks g !! base = None)) ->
  step pc g = Ok (g', pc') ->
  after_memset ref base pc' /\
  (blocks g' !! base = Some z \/ (ref = 0 /\ blocks g' !! base = None)).
Proof.
  intros Hpc Hb Hstep.
  destruct pc; simpl in Hpc; try contradiction; simpl in Hstep.
  - destruct Hpc as [-> ->]. injection Hstep as <- <-. simpl. split; [|exact Hb].
    destruct (Z.eqb_spec ref 0); simpl; auto.
  - injection Hstep as <- <-. simpl.
    split; [exact Hpc|]. rewrite (proj1 (ChangeType_frame _ _ _ _)). exact Hb.
  - destruct (kMaxThreadCount <=? available_memories_count_ g);
      injection Hstep as <- <-; simpl; auto.
  - destruct (load_slot count g) as [v|]; [|discriminate]. simpl in Hstep.
    destruct (v =? 0).
    + destruct (store_slot_ref count mem_reference g) as [g1|] eqn:E; [|discriminate].
      injection Hstep as <- <-. simpl. split; [exact Hpc|].
      rewrite (proj1 (store_slot_ref_frame _ _ _ _ E)). exact Hb.
    + injection Hstep as <- <-. simpl. auto.
  - destruct (available_memories_count_ g =? count);
      injection Hstep as <- <-; simpl; auto.
  - destruct (store_slot_ref count 0 g) as [g1|] eqn:E; [|discriminate].
    injection Hstep as <- <-. simpl. split; [exact Hpc|].
    rewrite (proj1 (store_slot_ref_frame _ _ _ _ E)). exact Hb.
  - destruct Hpc as [-> Hz].
    destruct (blocks g !! base) eqn:E; [|discriminate].
    injection Hstep as <- <-. simpl. split; [exact Hz|].
    right. split; [exact Hz|]. apply lookup_delete_eq.
  - injection Hstep as <- <-. simpl. auto.
  - injection Hstep as <- <-. simpl. auto.
  - injection Hstep as <- <-. simpl. auto.
Qed.

Lemma solo_split n m pc g :
  solo (n + m) pc g = (do y <- solo n pc g; solo m (snd y) (fst y)).
Proof.
  revert pc g. induction n as [|n IH]; intros pc g; simpl; [reflexivity|].
  destruct (step pc g) as [[g1 pc1]|]; simpl; [apply IH|reflexivity].
Qed.

Lemma after_memset_solo ref base z n : forall pc g g' pc',
  after_memset ref base pc ->
  (blocks g !! base = Some z \/ (ref = 0 /\ blocks g !! base = None)) ->
  solo n pc g = Ok (g', pc') ->
  after_memset ref base pc' /\
  (blocks g' !! base = Some z \/ (ref = 0 /\ blocks g' !! base = None)).
Proof.
  induction n as [|n IH]; intros pc g g' pc' Hpc Hb Hrun; simpl in Hrun.
  - injection Hrun as <- <-. auto.
  - destruct (step pc g) as [[g1 pc1]|] eqn:E; [|discriminate]. simpl in Hrun.
    destruct (after_memset_step _ _ _ _ _ _ _ Hpc Hb E) as [Hpc1 Hb1].
    exact (IH _ _ _ _ Hpc1 Hb1 Hrun).
Qed.

(** A header of zeros is not valid whatever the tracker, so Snapshot
    stops at its first check and leaves the output alone. *)
Lemma Snapshot_of_zeroed t r o :
  hdr r = zero_header -> Snapshot t r o = Ok (r, o, false).
Proof.
  intros Hz. unfold Snapshot, IsValid. rewrite Hz. reflexivity.
Qed.

(** C7: ReturnTrackerMemory starts by zeroing the block and changes
    nothing else in that step: the header of the block is all zeros and so
    is each of its [stack_depth] records, whatever they held.  From then
    on, until the call is over, the block holds these zeros (or, for a heap
    block, is gone); the reference reaches the free list, and the heap
    block is freed, only in later steps.  A Snapshot of the zeroed block
    returns false: its [process_id] is zero and IsValid fails. *)
Theorem C7_block_zeroed_before_recycling g mem_reference mem_base r :
  blocks g !! mem_base = Some r ->
  let z := memset_zero stack_depth r in
  (* the first statement *)
  solo 1 (ReturnTrackerMemory_start mem_reference mem_base) g
    = Ok (set_blocks (<[mem_base := z]> (blocks g)) g,
          U_tracker_count_sub mem_reference mem_base) /\
  (* every later moment of the call *)
  (forall n g' pc',
     solo (S n) (ReturnTrackerMemory_start mem_reference mem_base) g
       = Ok (g', pc') ->
     blocks g' !! mem_base = Some z \/
     (mem_reference = 0 /\ blocks g' !! mem_base = None)) /\
  (* a block of the allocator ends on the free list *)
  (mem_reference <> 0 ->
   0 <= available_memories_count_ g < kMaxThreadCount ->
   available_memories_ g !! Z.to_nat (available_memories_count_ g) = Some 0 ->
   exists g',
     solo 6 (ReturnTrackerMemory_start mem_reference mem_base) g
       = Ok (g', U_pushed mem_reference) /\
     available_memories_ g' !! Z.to_nat (available_memories_count_ g)
       = Some mem_reference /\
     available_memories_count_ g' = available_memories_count_ g + 1 /\
     blocks g' !! mem_base = Some z) /\
  (* a block of the heap is freed *)
  (mem_reference = 0 ->
   exists g',
     solo 3 (ReturnTrackerMemory_start mem_reference mem_base) g
       = Ok (g', U_deleted) /\
     blocks g' !! mem_base = None) /\
  (* the whole block is zeros: the header and each of its records *)
  (hdr z = zero_header /\
   length (stack z) = length (stack r) /\
   (forall i, (i < stack_depth)%nat -> (i < length (stack r))%nat ->
              stack z !! i = Some zero_activity) /\
   (forall i, (stack_depth <= i)%nat -> stack z !! i = stack r !! i)) /\
  (* what a reader finds in between *)
  (process_id (hdr z) = 0 /\
   forall t o, IsValid t z = false /\ Snapshot t z o = Ok (z, o, false)).
Proof.
  intros Hr z.
  assert (H1 : solo 1 (ReturnTrackerMemory_start mem_reference mem_base) g
               = Ok (set_blocks (<[mem_base := z]> (blocks g)) g,
                     U_tracker_count_sub mem_reference mem_base)).
  { simpl. rewrite Hr. reflexivity. }
  split; [exact H1|]. split; [|split; [|split; [|split; [|split]]]].
  - intros n g' pc' Hrun.
    rewrite (solo_split 1 n), H1 in Hrun. cbn [rbind fst snd] in Hrun.
    eapply after_memset_solo; [| |exact Hrun].
    + simpl. auto.
    + left. simpl. apply lookup_insert_eq.
  - intros Hne Hcount Hslot.
    rewrite (solo_split 1 5), H1. cbn [rbind fst snd].
    cbn [solo_run global_step rbind fst snd].
    destruct (Z.eqb_spec mem_reference 0) as [?|_]; [contradiction|].
    cbn [solo_run global_step rbind fst snd].
    set (g3 := ChangeType _ _ _ _).
    destruct (ChangeType_frame mem_reference kTypeIdActivityTrackerFree
                kTypeIdActivityTracker
                (set_thread_tracker_count_
                   (thread_tracker_count_
                      (set_blocks (<[mem_base:=z]> (blocks g)) g) - 1)
                   (set_blocks (<[mem_base:=z]> (blocks g)) g)))
      as (Hb3 & Hs3 & Hc3).
    fold g3 in Hb3, Hs3, Hc3. simpl in Hb3, Hs3, Hc3.
    rewrite Hc3.
    destruct (Z.leb_spec kMaxThreadCount (available_memories_count_ g)); [lia|].
    cbn [solo_run global_step rbind fst snd].
    unfold load_slot, store_slot_ref. rewrite Hs3.
    destruct (Z.ltb_spec (available_memories_count_ g) 0); [lia|].
    rewrite Hslot. cbn [rbind fst snd]. rewrite Z.eqb_refl.
    cbn [solo_run global_step rbind fst snd available_memories_count_
           set_available_memories_].
    rewrite Hc3, Z.eqb_refl. eexists. split; [reflexivity|].
    cbn [fst available_memories_ available_memories_count_ blocks
           set_available_memories_count_ set_available_memories_].
    split; [|split; [reflexivity|]].
    + apply list_lookup_insert_eq. eapply lookup_lt_Some. exact Hslot.
    + rewrite Hb3. apply lookup_insert_eq.
  - intros ->.
    rewrite (solo_split 1 2), H1. cbn [rbind fst snd].
    cbn [solo_run global_step rbind fst snd Z.eqb].
    cbn [blocks set_blocks set_thread_tracker_count_].
    rewrite lookup_insert_eq. cbn [rbind fst snd].
    eexists. split; [reflexivity|]. apply lookup_delete_eq.
  - unfold z, memset_zero. cbn [hdr stack].
    split; [reflexivity|]. split; [|split].
    + rewrite length_app, length_replicate, length_drop. lia.
    + intros i Hi Hlen.
      rewrite lookup_app_l by (rewrite length_replicate; lia).
      apply lookup_replicate_2. lia.
    + intros i Hi.
      destruct (Nat.le_gt_cases stack_depth (length (stack r))) as [Hle|Hgt].
      * rewrite lookup_app_r by (rewrite length_replicate; lia).
        rewrite length_replicate, lookup_drop. f_equal. lia.
      * rewrite (lookup_ge_None_2 (stack r)) by lia.
        apply lookup_ge_None_2.
        rewrite length_app, length_replicate, length_drop. lia.
  - reflexivity.
  - intros t o. split; [reflexivity|]. apply Snapshot_of_zeroed. reflexivity.
Qed.

End ReturnTrackerMemory.

(** ** The free list under interleaving *)

Section FreeListInvariant.

Variable kMaxThreadCount : Z.
Variable stack_depth : nat.

Local Abbreviation step := (global_step kMaxThreadCount stack_depth).

Lemma load_slot_in_range i g :
  free_list_ok kMaxThreadCount g -> 0 <= i < kMaxThreadCount ->
  exists v, load_slot i g = Ok v.
Proof.
  intros [_ Hlen] Hi. unfold load_slot.
  destruct (Z.ltb_spec i 0); [lia|].
  destruct (lookup_lt_is_Some_2 (available_memories_ g) (Z.to_nat i)) as [v ->];
    [lia|eauto].
Qed.

Lemma store_slot_ref_in_range i v g :
  free_list_ok kMaxThreadCount g -> 0 <= i < kMaxThreadCount ->
  exists g', store_slot_ref i v g = Ok g' /\ free_list_ok kMaxThreadCount g'.
Proof.
  intros [Hc Hlen] Hi. unfold store_slot_ref.
  destruct (Z.ltb_spec i 0); [lia|].
  destruct (lookup_lt_is_Some_2 (available_memories_ g) (Z.to_nat i)) as [w ->];
    [lia|].
  eexists. split; [reflexivity|]. split; simpl; [exact Hc|].
  rewrite length_insert. exact Hlen.
Qed.

Lemma free_list_ok_ChangeType ref to from g :
  free_list_ok kMaxThreadCount g ->
  free_list_ok kMaxThreadCount (ChangeType ref to from g).
Proof.
  unfold free_list_ok. destruct (ChangeType_frame ref to from g) as (_ & -> & ->).
  auto.
Qed.

Lemma P_loop_head_ok c :
  0 <= c <= kMaxThreadCount -> pc_count_ok kMaxThreadCount (P_loop_head c).
Proof.
  intros Hc. unfold P_loop_head. destruct (Z.ltb_spec 0 c); simpl; [lia|exact I].
Qed.

(** One step of any thread keeps the count within the array. *)
Lemma global_step_ok pc g g' pc' :
  free_list_ok kMaxThreadCount g -> pc_count_ok kMaxThreadCount pc ->
  step pc g = Ok (g', pc') ->
  free_list_ok kMaxThreadCount g' /\ pc_count_ok kMaxThreadCount pc'.
Proof.
  intros Hg Hpc Hstep. pose proof Hg as [Hc Hlen].
  destruct pc; simpl in Hpc, Hstep.
  - destruct (blocks g !! mem_base); [|discriminate].
    injection Hstep as <- <-. split; [exact Hg|exact I].
  - injection Hstep as <- <-. split; [exact Hg|].
    destruct (mem_reference =? 0); exact I.
  - injection Hstep as <- <-. split; [|exact I].
    apply free_list_ok_ChangeType. exact Hg.
  - destruct (Z.leb_spec kMaxThreadCount (available_memories_count_ g));
      injection Hstep as <- <-; (split; [exact Hg|]); simpl; [exact I|lia].
  - destruct (load_slot_in_range count g Hg Hpc) as [v Hv].
    rewrite Hv in Hstep. simpl in Hstep. destruct (v =? 0).
    + destruct (store_slot_ref_in_range count mem_reference g Hg Hpc)
        as (g1 & Hg1 & Hok).
      rewrite Hg1 in Hstep. injection Hstep as <- <-. auto.
    + injection Hstep as <- <-. split; [exact Hg|exact I].
  - destruct (Z.eqb_spec (available_memories_count_ g) count);
      injection Hstep as <- <-.
    + split; [|exact I]. split; simpl; [lia|exact Hlen].
    + split; [exact Hg|exact Hpc].
  - destruct (store_slot_ref_in_range count 0 g Hg Hpc) as (g1 & Hg1 & Hok).
    rewrite Hg1 in Hstep. injection Hstep as <- <-. split; [exact Hok|exact I].
  - destruct (blocks g !! mem_base); [|discriminate].
    injection Hstep as <- <-. split; [exact Hg|exact I].
  - injection Hstep as <- <-. auto.
  - injection Hstep as <- <-. auto.
  - injection Hstep as <- <-. auto.
  - injection Hstep as <- <-. split; [exact Hg|]. apply P_loop_head_ok. exact Hc.
  - destruct (load_slot_in_range (count - 1) g Hg) as [v Hv]; [lia|].
    destruct (store_slot_ref_in_range (count - 1) 0 g Hg) as (g1 & Hg1 & Hok); [lia|].
    rewrite Hv, Hg1 in Hstep. simpl in Hstep.
    destruct (v =? 0); injection Hstep as <- <-; (split; [exact Hok|]);
      simpl; [exact I|lia].
  - destruct (Z.eqb_spec (available_memories_count_ g) count);
      injection Hstep as <- <-.
    + split; [|exact I]. split; simpl; [lia|exact Hlen].
    + split; [exact Hg|]. simpl. lia.
  - destruct (store_slot_ref_in_range (count - 1) mem_reference g Hg)
      as (g1 & Hg1 & Hok); [lia|].
    rewrite Hg1 in Hstep. injection Hstep as <- <-.
    split; [exact Hok|]. apply P_loop_head_ok. lia.
  - injection Hstep as <- <-. split; [|exact I].
    apply free_list_ok_ChangeType. exact Hg.
  - injection Hstep as <- <-. auto.
  - injection Hstep as <- <-. auto.
Qed.

(** Whatever the interleaving of returns and takes,
    [available_memories_count_] stays between 0 and [kMaxThreadCount]. *)
Lemma available_memories_count_bounded sched : forall g th g' th',
  free_list_ok kMaxThreadCount g ->
  Forall (pc_count_ok kMaxThreadCount) th ->
  threads_run kMaxThreadCount stack_depth sched (g, th) = Ok (g', th') ->
  0 <= available_memories_count_ g' <= kMaxThreadCount /\
  Forall (pc_count_ok kMaxThreadCount) th'.
Proof.
  induction sched as [|i sched IH]; intros g th g' th' Hg Hth Hrun; simpl in Hrun.
  - injection Hrun as <- <-. split; [apply Hg|exact Hth].
  - unfold threads_step in Hrun. simpl in Hrun.
    destruct (th !! i) as [pc|] eqn:Epc; simpl in Hrun.
    + destruct (step pc g) as [[g1 pc1]|] eqn:E; [|discriminate]. simpl in Hrun.
      destruct (global_step_ok _ _ _ _ Hg (proj1 (Forall_lookup _ _) Hth _ _ Epc) E)
        as [Hg1 Hpc1].
      apply (IH _ _ _ _ Hg1 (Forall_insert _ _ _ _ Hth Hpc1) Hrun).
    + apply (IH _ _ _ _ Hg Hth Hrun).
Qed.

(** A return that finds the list full abandons the block: no slot and no
    count is written. *)
Lemma full_list_abandons ref g :
  kMaxThreadCount <= available_memories_count_ g ->
  step (U_load_count ref) g = Ok (g, U_abandoned ref).
Proof.
  intros H. simpl.
  destruct (Z.leb_spec kMaxThreadCount (available_memories_count_ g)); [reflexivity|lia].
Qed.

End FreeListInvariant.

(** C8, evaluated on an interleaving of two takes and two returns (the
    schedule [c8_schedule]).  Every call completes.  Thread 0 has taken the
    reference 32 while the free list holds 32 as well, so 32 is both in use
    and available; thread 3 has returned 48 with success, and 48 is nowhere
    on the list. *)
Theorem C8_reference_duplicated_and_lost :
  exists g,
    threads_run 100 2 c8_schedule (c8_global, c8_threads)
      = Ok (g, [P_took 32; P_took 16; U_pushed 32; U_pushed 48]) /\
    available_memories_count_ g = 1 /\
    available_memories_ g = 32 :: replicate 99 0 /\
    Forall (fun ref => ref <> 48) (available_memories_ g).
Proof.
  eexists. split; [vm_compute; reflexivity|].
  split; [reflexivity|]. split; [reflexivity|].
  apply Forall_forall. intros ref Hin. vm_compute in Hin.
  repeat (apply elem_of_cons in Hin as [->|Hin]; [discriminate|]).
  inversion Hin.
Qed.

(** ** Snapshot concurrent with the writer *)

Lemma ref_run_snoc s ops j op :
  ops !! j = Some op ->
  ref_run s (take (S j) ops) = ref_step (ref_run s (take j ops)) op.
Proof.
  intros H. unfold ref_run. rewrite (take_S_r _ _ _ H). apply foldl_snoc.
Qed.

Lemma in_contract_lookup ops : forall s j op,
  in_contract s ops = true -> ops !! j = Some op ->
  op_in_contract (ref_run s (take j ops)) op = true.
Proof.
  induction ops as [|op0 ops IH]; intros s j op Hc Hj; [discriminate|].
  simpl in Hc. apply andb_true_iff in Hc as [Hc0 Hc].
  destruct j as [|j]; simpl in *.
  - injection Hj as <-. exact Hc0.
  - apply IH; assumption.
Qed.

Lemma drop_cons_inv {A} (l : list A) j x rest :
  drop j l = x :: rest ->
  l !! j = Some x /\ drop (S j) l = rest /\ (j < length l)%nat.
Proof.
  intros H.
  assert (Hx : l !! j = Some x).
  { rewrite <- (Nat.add_0_r j), <- lookup_drop, H. reflexivity. }
  split; [exact Hx|]. split.
  - rewrite (drop_S _ _ _ Hx) in H. congruence.
  - eapply lookup_lt_Some. exact Hx.
Qed.

(** [tracks] does not look at the tear flag. *)
Lemma tracks_flag t h0 s r v :
  tracks t h0 s r -> tracks t h0 s (with_hdr (set_stack_unchanged v) r).
Proof.
  intros (Hv & Hid & Hrest). split; [|split]; [| |exact Hrest].
  - rewrite IsValid_set_unchanged. exact Hv.
  - exact Hid.
Qed.

(** A store into the slot above the stack. *)
Lemma tracks_store_slot t h0 s r f :
  tracks t h0 s r ->
  Z.of_nat (length s) < stack_slots_ t ->
  (forall a, call_stack (f a) = call_stack a) ->
  exists a,
    stack r !! length s = Some a /\
    store_slot (Z.of_nat (length s)) f r
      = Ok (mkRegion (hdr r) (<[length s := f a]> (stack r))) /\
    tracks t h0 s (mkRegion (hdr r) (<[length s := f a]> (stack r))).
Proof.
  intros (Hv & Hid & Hlen & Hd & Hmax & Htake & Hcs) Hlt Hf.
  destruct (lookup_lt_is_Some_2 (stack r) (length s)) as [a Ha]; [lia|].
  exists a. split; [exact Ha|]. split.
  - unfold store_slot. rewrite Nat2Z.id, Ha. reflexivity.
  - unfold tracks. simpl. rewrite length_insert.
    split; [exact Hv|]. split; [exact Hid|]. split; [exact Hlen|].
    split; [exact Hd|]. split; [exact Hmax|]. split.
    + rewrite take_insert_ge by lia. exact Htake.
    + apply Forall_insert; [exact Hcs|]. rewrite Hf.
      rewrite Forall_lookup in Hcs. exact (Hcs _ _ Ha).
Qed.

Lemma tracks_publish t h0 s r now origin type d :
  tracks t h0 s r ->
  Z.of_nat (length s) < stack_slots_ t ->
  Z.of_nat (length s) < UINT32_MAX ->
  (exists a, stack r !! length s = Some a /\
             time_internal a = now /\ origin_address a = origin /\
             activity_type a = type /\ data a = d) ->
  tracks t h0 (s ++ [pushed_record now origin type d])
    (with_hdr (set_current_depth (wrap32 (Z.of_nat (length s) + 1))) r).
Proof.
  intros (Hv & Hid & Hlen & Hd & Hmax & Htake & Hcs) Hlt Hlt'
         (a & Ha & H1 & H2 & H3 & H4).
  assert (Hrec : a = pushed_record now origin type d).
  { rewrite Forall_lookup in Hcs. specialize (Hcs _ _ Ha).
    destruct a; simpl in *. subst. reflexivity. }
  subst a. unfold tracks. simpl. rewrite length_app. simpl.
  rewrite wrap32_small by lia.
  split; [exact Hv|]. split; [exact Hid|]. split; [exact Hlen|].
  split; [lia|]. split; [lia|]. split; [|exact Hcs].
  rewrite (take_ge (s ++ _)) by (rewrite length_app; simpl; lia).
  replace (length s + 1)%nat with (S (length s)) by lia.
  rewrite (take_S_r _ _ _ Ha), Htake. rewrite (take_ge s) by lia. reflexivity.
Qed.

Lemma tracks_overflow t h0 s r now origin type d :
  tracks t h0 s r ->
  stack_slots_ t <= Z.of_nat (length s) ->
  Z.of_nat (length s) < UINT32_MAX ->
  tracks t h0 (s ++ [pushed_record now origin type d])
    (with_hdr (set_current_depth (wrap32 (Z.of_nat (length s) + 1))) r).
Proof.
  intros (Hv & Hid & Hlen & Hd & Hmax & Htake & Hcs) Hov Hlt.
  unfold tracks. simpl. rewrite length_app. simpl.
  rewrite wrap32_small by lia.
  split; [exact Hv|]. split; [exact Hid|]. split; [exact Hlen|].
  split; [lia|]. split; [lia|]. split; [|exact Hcs].
  rewrite take_app_le by lia.
  rewrite <- Htake. rewrite !take_ge by lia. reflexivity.
Qed.

Lemma tracks_pop t h0 s r :
  tracks t h0 s r ->
  (0 < length s)%nat ->
  tracks t h0 (take (pred (length s)) s)
    (with_hdr (set_current_depth (wrap32 (Z.of_nat (length s) - 1))) r).
Proof.
  intros (Hv & Hid & Hlen & Hd & Hmax & Htake & Hcs) Hpos.
  unfold tracks. simpl. rewrite length_take.
  rewrite wrap32_small by lia.
  split; [exact Hv|]. split; [exact Hid|]. split; [exact Hlen|].
  split; [lia|]. split; [lia|]. split; [|exact Hcs].
  rewrite take_take.
  replace (length s `min` pred (length s))%nat with (pred (length s)) by lia.
  transitivity (take (pred (length s)) (take (length s) (stack r))).
  { rewrite take_take. f_equal; lia. }
  rewrite Htake, take_take. f_equal; lia.
Qed.

(** The slots a reader copies, as the reference stack shows them. *)
Lemma tracks_prefix t h0 s r :
  tracks t h0 s r ->
  Z.to_nat (Z.min (current_depth (hdr r)) (stack_slots_ t))
    = length (take (Z.to_nat (stack_slots_ t)) s) /\
  take (length (take (Z.to_nat (stack_slots_ t)) s)) (stack r)
    = take (Z.to_nat (stack_slots_ t)) s.
Proof.
  intros (Hv & Hid & Hlen & Hd & Hmax & Htake & Hcs).
  rewrite length_take, Hd. split; [lia|].
  replace (length s `min` Z.to_nat (stack_slots_ t))%nat
    with (Z.to_nat (stack_slots_ t) `min` length s)%nat by lia.
  rewrite <- take_take, Htake, take_take, Nat.min_id. reflexivity.
Qed.

Lemma fields_before_next f f' src dst :
  next_field f = Some f' ->
  fields_before f src dst ->
  fields_before f' src (copy_field f src dst).
Proof.
  destruct f; intros [= <-]; simpl; intuition.
Qed.

Lemma fields_before_last src dst :
  fields_before F_data src dst -> copy_field F_data src dst = src.
Proof.
  destruct src, dst. simpl. intros (-> & -> & -> & ->). reflexivity.
Qed.

Section InterleavingProofs.

Variable t : Tracker.
Variable h0 : Header.
Variable s0 : list Activity.
Variable ops : list Op.

(** The writer only pushes and pops, within its contract. *)
Hypothesis Hno_change : Forall (fun op => is_change op = false) ops.
Hypothesis Hcontract : in_contract s0 ops = true.

Local Abbreviation after := (stack_after s0 ops).
Local Abbreviation winv := (writer_inv t h0 s0 ops).
Local Abbreviation rinv := (reader_inv t h0 s0 ops).

Lemma stack_after_S j op :
  ops !! j = Some op -> after (S j) = ref_step (after j) op.
Proof. apply ref_run_snoc. Qed.

Lemma push_store_step j r f :
  tracks t h0 (after j) r ->
  Z.of_nat (length (after j)) < stack_slots_ t ->
  (forall a, call_stack (f a) = call_stack a) ->
  forall a, stack r !! length (after j) = Some a ->
  exists r',
    store_slot (Z.of_nat (length (after j))) f r = Ok r' /\
    tracks t h0 (after j) r' /\
    stack r' !! length (after j) = Some (f a) /\
    hdr r' = hdr r /\
    (forall c : nat, Z.of_nat c <= current_depth (hdr r) ->
                     take c (stack r') = take c (stack r)).
Proof.
  intros Htr Hlt Hf a Ha.
  destruct (tracks_store_slot _ _ _ _ f Htr Hlt Hf) as (a' & Ha' & Hst & Htr').
  rewrite Ha in Ha'. injection Ha' as <-.
  eexists. split; [exact Hst|]. split; [exact Htr'|].
  destruct Htr as (_ & _ & Hlen & Hd & _).
  simpl. split; [|split; [reflexivity|]].
  - apply list_lookup_insert_eq. eapply lookup_lt_Some. exact Ha.
  - intros c Hc. apply take_insert_ge. lia.
Qed.

Lemma writer_step_inv r w :
  winv r w ->
  exists r' w',
    writer_step t r w = Ok (r', w') /\ winv r' w' /\ writer_frame r w r' w'.
Proof.
  destruct w as [pc todo]. intros (j & Hj & Htr & Hat).
  pose proof Htr as (Hv & Hid & Hlen & Hd & Hmax & Htake & Hcs).
  unfold writer_at in Hat. simpl in Hat.
  unfold writer_step, writer_frame. simpl w_pc. simpl w_todo.
  destruct pc.
  - (* idle *)
    subst todo. destruct (drop j ops) as [|op rest] eqn:Edrop.
    { exists r, (mkW W_idle []). split; [reflexivity|]. split.
      - exists j. split; [exact Hj|]. split; [exact Htr|].
        unfold writer_at. simpl. congruence.
      - split; [discriminate|]. intros _. split; [reflexivity|].
        split; [reflexivity|]. right. lia. }
    destruct (drop_cons_inv _ _ _ _ Edrop) as (Hop & Hrest & Hjlt).
    pose proof (in_contract_lookup _ _ _ _ Hcontract Hop) as Hc.
    fold (after j) in Hc.
    destruct op as [now origin type d|type d|].
    + (* a push starts *)
      destruct (Z.leb_spec (stack_slots_ t) (current_depth (hdr r))) as [Hov|Hlt].
      * eexists _, _. split; [reflexivity|]. split.
        -- exists j. split; [exact Hj|]. split; [exact Htr|].
           unfold writer_at. simpl. exists now, origin, type, d.
           repeat split; auto; lia.
        -- split; [discriminate|]. intros _. split; [reflexivity|].
           split; [reflexivity|]. right. lia.
      * destruct (lookup_lt_is_Some_2 (stack r) (length (after j))) as [a Ha];
          [lia|].
        eexists _, _. split; [reflexivity|]. split.
        -- exists j. split; [exact Hj|]. split; [exact Htr|].
           unfold writer_at. simpl. exists now, origin, type, d, a.
           repeat split; auto; lia.
        -- split; [discriminate|]. intros _. split; [reflexivity|].
           split; [reflexivity|]. right. lia.
    + (* no change among the operations *)
      rewrite Forall_lookup in Hno_change. specialize (Hno_change _ _ Hop).
      discriminate.
    + (* a pop starts: the depth goes down *)
      simpl in Hc. apply Nat.ltb_lt in Hc.
      eexists _, _. split; [reflexivity|]. split.
      * exists (S j). split; [lia|]. split.
        -- rewrite (stack_after_S _ _ Hop). simpl. rewrite Hd.
           apply tracks_pop; assumption.
        -- unfold writer_at. simpl. symmetry. exact Hrest.
      * split; [discriminate|]. intros _. split; [reflexivity|].
        split; [reflexivity|]. left. reflexivity.
  - (* time_internal *)
    destruct Hat as (now0 & origin0 & type0 & d0 & a & Hop & Htodo & Hlt & Ha
                     & -> & -> & -> & -> & ->).
    destruct (push_store_step j r (set_time_internal now0) Htr Hlt
                ltac:(reflexivity) a Ha) as (r' & -> & Htr' & Ha' & Hh & Hfr).
    eexists _, _. split; [reflexivity|]. split.
    + exists j. split; [exact Hj|]. split; [exact Htr'|].
      unfold writer_at. simpl. eexists now0, origin0, type0, d0, _.
      split; [exact Hop|]. split; [exact Htodo|]. split; [exact Hlt|].
      split; [exact Ha'|]. repeat split.
    + split; [discriminate|]. intros _. rewrite Hh.
      split; [reflexivity|]. split; [exact Hfr|]. right. lia.
  - (* origin_address *)
    destruct Hat as (now0 & origin0 & type0 & d0 & a & Hop & Htodo & Hlt & Ha
                     & -> & -> & -> & -> & Ht).
    destruct (push_store_step j r (set_origin_address origin0) Htr Hlt
                ltac:(reflexivity) a Ha) as (r' & -> & Htr' & Ha' & Hh & Hfr).
    eexists _, _. split; [reflexivity|]. split.
    + exists j. split; [exact Hj|]. split; [exact Htr'|].
      unfold writer_at. simpl. eexists now0, origin0, type0, d0, _.
      split; [exact Hop|]. split; [exact Htodo|]. split; [exact Hlt|].
      split; [exact Ha'|]. repeat split. exact Ht.
    + split; [discriminate|]. intros _. rewrite Hh.
      split; [reflexivity|]. split; [exact Hfr|]. right. lia.
  - (* activity_type *)
    destruct Hat as (now0 & origin0 & type0 & d0 & a & Hop & Htodo & Hlt & Ha
                     & -> & -> & -> & Ht & Ho).
    destruct (push_store_step j r (set_activity_type type0) Htr Hlt
                ltac:(reflexivity) a Ha) as (r' & -> & Htr' & Ha' & Hh & Hfr).
    eexists _, _. split; [reflexivity|]. split.
    + exists j. split; [exact Hj|]. split; [exact Htr'|].
      unfold writer_at. simpl. eexists now0, origin0, type0, d0, _.
      split; [exact Hop|]. split; [exact Htodo|]. split; [exact Hlt|].
      split; [exact Ha'|]. repeat split; assumption.
    + split; [discriminate|]. intros _. rewrite Hh.
      split; [reflexivity|]. split; [exact Hfr|]. right. lia.
  - (* data *)
    destruct Hat as (now0 & origin0 & type0 & d0 & a & Hop & Htodo & Hlt & Ha
                     & -> & -> & Ht & Ho & Hty).
    destruct (push_store_step j r (set_data d0) Htr Hlt
                ltac:(reflexivity) a Ha) as (r' & -> & Htr' & Ha' & Hh & Hfr).
    eexists _, _. split; [reflexivity|]. split.
    + exists j. split; [exact Hj|]. split; [exact Htr'|].
      unfold writer_at. simpl. eexists now0, origin0, type0, d0, _.
      split; [exact Hop|]. split; [exact Htodo|]. split; [exact Hlt|].
      split; [exact Ha'|]. repeat split; assumption.
    + split; [discriminate|]. intros _. rewrite Hh.
      split; [reflexivity|]. split; [exact Hfr|]. right. lia.
  - (* the depth is published *)
    destruct Hat as (now0 & origin0 & type0 & d0 & a & Hop & Htodo & Hlt & Ha
                     & -> & Ht & Ho & Hty & Hda).
    pose proof (in_contract_lookup _ _ _ _ Hcontract Hop) as Hc.
    fold (after j) in Hc. simpl in Hc. apply Z.ltb_lt in Hc.
    assert (Hjlt : (j < length ops)%nat) by (eapply lookup_lt_Some; exact Hop).
    eexists _, _. split; [reflexivity|]. split.
    + exists (S j). split; [lia|]. split.
      * rewrite (stack_after_S _ _ Hop). simpl.
        apply tracks_publish; try assumption. exists a. auto.
      * unfold writer_at. simpl. exact Htodo.
    + split; [discriminate|]. intros _. simpl.
      split; [reflexivity|]. split; [reflexivity|]. right.
      rewrite wrap32_small by lia. lia.
  - (* the depth of an overflowed stack grows *)
    destruct Hat as (now0 & origin0 & type0 & d0 & Hop & Htodo & -> & Hov).
    pose proof (in_contract_lookup _ _ _ _ Hcontract Hop) as Hc.
    fold (after j) in Hc. simpl in Hc. apply Z.ltb_lt in Hc.
    assert (Hjlt : (j < length ops)%nat) by (eapply lookup_lt_Some; exact Hop).
    eexists _, _. split; [reflexivity|]. split.
    + exists (S j). split; [lia|]. split.
      * rewrite (stack_after_S _ _ Hop). simpl.
        apply tracks_overflow; assumption.
      * unfold writer_at. simpl. exact Htodo.
    + split; [discriminate|]. intros _. simpl.
      split; [reflexivity|]. split; [reflexivity|]. right.
      rewrite wrap32_small by lia. lia.
  - contradiction.
  - contradiction.
  - (* the pop clears the tear flag *)
    eexists _, _. split; [reflexivity|]. split.
    + exists j. split; [exact Hj|]. split; [apply tracks_flag; exact Htr|].
      unfold writer_at. simpl. exact Hat.
    + split; [reflexivity|]. intros Hne. contradiction.
Qed.

(** A writer step keeps what the reader has established. *)
Lemma reader_inv_writer_step r w r' w' s :
  rinv r w s -> writer_frame r w r' w' -> rinv r' w' s.
Proof.
  intros Hr [Hclear Hframe].
  assert (Hphase : forall i f,
            copy_phase t s0 ops i f r w s -> copy_phase t s0 ops i f r' w' s).
  { intros i f (Hcn & Hlo & Hsound). split; [exact Hcn|]. split; [exact Hlo|].
    intros Hflag.
    assert (Hdec : w_pc w = W_pop_clear \/ w_pc w <> W_pop_clear)
      by (destruct (w_pc w); (left; reflexivity) || (right; discriminate)).
    destruct Hdec as [Hpc|Hpc].
    { rewrite (Hclear Hpc) in Hflag. contradiction. }
    destruct (Hframe Hpc) as (Hfl & Htk & Hdep). rewrite Hfl in Hflag.
    destruct (Hsound Hflag) as (j & Hj & Hrd & Hrc & Hst & Hw & Hcp & Hfb).
    destruct Hw as [Hw|Hw]; [contradiction|].
    exists j. split; [exact Hj|]. cbv zeta.
    split; [exact Hrd|]. split; [exact Hrc|]. split.
    - rewrite Htk; [exact Hst|]. rewrite Hrc, length_take. lia.
    - split; [|split; [exact Hcp|exact Hfb]].
      destruct Hdep as [Hdep|Hdep]; [left; exact Hdep|right; lia]. }
  unfold reader_inv in *. destruct (r_pc s); try exact Hr.
  - destruct Hr as [Hi Hp]. split; [exact Hi|]. apply Hphase. exact Hp.
  - apply Hphase. exact Hr.
Qed.

Lemma writer_inv_flag r w v :
  winv r w -> winv (with_hdr (set_stack_unchanged v) r) w.
Proof.
  intros (j & Hj & Htr & Hat). exists j. split; [exact Hj|].
  split; [apply tracks_flag; exact Htr|exact Hat].
Qed.

(** One field copied. *)
Lemma copy_sound_field i f f' r w pc pc' att spid stid dep cnt o src dst :
  copy_sound t s0 ops i f r w (mkR pc att spid stid dep cnt o) ->
  (i < cnt)%nat ->
  stack r !! i = Some src ->
  activity_stack o !! i = Some dst ->
  next_field f = Some f' ->
  copy_sound t s0 ops i f' r w
    (mkR pc' att spid stid dep cnt
       (set_activity_stack (<[i := copy_field f src dst]> (activity_stack o)) o)).
Proof.
  intros (j & Hj & Hrd & Hrc & Hst & Hw & Hcp & Hfb) Hi Hsrc Hdst Hnext.
  simpl in *. exists j. split; [exact Hj|]. simpl.
  split; [exact Hrd|]. split; [exact Hrc|]. split; [exact Hst|].
  split; [exact Hw|]. split.
  - rewrite take_insert_ge by lia. exact Hcp.
  - intros a b Ha Hb.
    rewrite list_lookup_insert_eq in Hb by (eapply lookup_lt_Some; exact Hdst).
    injection Hb as <-.
    assert (a = src) as ->.
    { rewrite <- Hst, lookup_take_lt, Hsrc in Ha by lia. congruence. }
    apply fields_before_next; [exact Hnext|]. apply Hfb; [|exact Hdst].
    rewrite <- Hst, lookup_take_lt by lia. exact Hsrc.
Qed.

(** The last field of a record copied: the record is complete. *)
Lemma copy_sound_record i r w pc pc' att spid stid dep cnt o src dst :
  copy_sound t s0 ops i F_data r w (mkR pc att spid stid dep cnt o) ->
  (i < cnt)%nat ->
  stack r !! i = Some src ->
  activity_stack o !! i = Some dst ->
  copy_sound t s0 ops (S i) F_time_internal r w
    (mkR pc' att spid stid dep cnt
       (set_activity_stack
          (<[i := copy_field F_data src dst]> (activity_stack o)) o)).
Proof.
  intros (j & Hj & Hrd & Hrc & Hst & Hw & Hcp & Hfb) Hi Hsrc Hdst.
  cbn [r_depth r_count r_out] in *. exists j. split; [exact Hj|].
  cbv zeta. cbn [r_depth r_count r_out activity_stack set_activity_stack].
  split; [exact Hrd|]. split; [exact Hrc|]. split; [exact Hst|].
  split; [exact Hw|]. split; [|intros; exact I].
  assert (Htgt : take (Z.to_nat (stack_slots_ t)) (after j) !! i = Some src).
  { rewrite <- Hst, lookup_take_lt by lia. exact Hsrc. }
  rewrite (fields_before_last src dst) by (apply Hfb; assumption).
  rewrite (take_S_r _ _ src)
    by (apply list_lookup_insert_eq; eapply lookup_lt_Some; exact Hdst).
  rewrite take_insert_ge by lia.
  rewrite (take_S_r _ _ _ Htgt), Hcp. reflexivity.
Qed.

Lemma reader_step_inv r w s :
  winv r w -> rinv r w s ->
  exists r' s', reader_step t r s = Ok (r', s') /\ winv r' w /\ rinv r' w s'.
Proof.
  destruct s as [pc att spid stid dep cnt o]. intros Hw Hr.
  pose proof Hw as (jw & Hjw & Htr & Hat).
  pose proof Htr as (Hv & Hid & Hlen & Hd & Hmax & Htake & Hcs).
  pose proof Hid as (Hi1 & Hi2 & Hi3 & Hi4 & Hi5 & Hi6 & Hi7).
  unfold reader_step. simpl r_pc. simpl r_out.
  destruct pc.
  - (* IsValid *)
    rewrite Hv. simpl. eexists _, _. split; [reflexivity|].
    split; [exact Hw|exact I].
  - eexists _, _. split; [reflexivity|]. split; [exact Hw|exact I].
  - eexists _, _. split; [reflexivity|]. split; [exact Hw|exact I].
  - (* the tear flag is set *)
    eexists _, _. split; [reflexivity|].
    split; [apply writer_inv_flag; exact Hw|exact I].
  - (* the depth is loaded: the copy starts *)
    destruct (tracks_prefix _ _ _ _ Htr) as [Hcount Hpre].
    set (tgt := take (Z.to_nat (stack_slots_ t)) (after jw)) in *.
    rewrite Hcount.
    assert (Hphase : forall pc',
      copy_phase t s0 ops 0 F_time_internal r w
        (mkR pc' att spid stid (current_depth (hdr r)) (length tgt)
           (set_activity_stack
              (resize (length tgt) zero_activity (activity_stack o)) o))).
    { intros pc'. split; [|split].
      - simpl. unfold tgt. rewrite length_take. lia.
      - simpl. apply length_resize.
      - intros _. exists jw. split; [exact Hjw|]. simpl. fold tgt.
        split; [exact Hd|]. split; [reflexivity|]. split; [exact Hpre|].
        split; [right; lia|]. split; [reflexivity|]. intros; exact I. }
    eexists _, _. split; [reflexivity|]. split; [exact Hw|].
    destruct (Nat.ltb_spec 0 (length tgt)) as [Hpos|Hz].
    + unfold reader_inv. simpl. split; [exact Hpos|]. apply Hphase.
    + unfold reader_inv. simpl.
      replace (length tgt) with 0%nat in * by lia. apply (Hphase R_load_unchanged).
  - (* one field is copied *)
    unfold reader_inv in Hr. simpl in Hr.
    destruct Hr as (Hi & Hcn & Hlo & Hsound). simpl in Hcn, Hlo.
    destruct (lookup_lt_is_Some_2 (stack r) i) as [src Hsrc]; [lia|].
    destruct (lookup_lt_is_Some_2 (activity_stack o) i) as [dst Hdst]; [lia|].
    rewrite Hsrc, Hdst.
    eexists _, _. split; [reflexivity|]. split; [exact Hw|].
    unfold r_goto, r_with_out. simpl.
    destruct (next_field f) as [f'|] eqn:Hnext.
    + unfold reader_inv. simpl. split; [exact Hi|].
      split; [exact Hcn|]. split; [simpl; rewrite length_insert; exact Hlo|].
      intros Hflag. eapply copy_sound_field; eauto.
    + assert (f = F_data) as -> by (destruct f; simpl in Hnext; congruence).
      destruct (Nat.ltb_spec (S i) cnt) as [Hmore|Hlast].
      * unfold reader_inv. simpl. split; [exact Hmore|].
        split; [exact Hcn|]. split; [simpl; rewrite length_insert; exact Hlo|].
        intros Hflag. eapply copy_sound_record; eauto.
      * unfold reader_inv. simpl.
        split; [exact Hcn|]. split; [simpl; rewrite length_insert; exact Hlo|].
        intros Hflag. replace cnt with (S i) by lia.
        eapply copy_sound_record; eauto.
        replace (S i) with cnt by lia. auto.
  - (* the tear flag is checked *)
    unfold reader_inv in Hr. simpl in Hr. destruct Hr as (Hcn & Hlo & Hsound).
    simpl in Hcn, Hlo.
    destruct (Z.eqb_spec (stack_unchanged (hdr r)) 0) as [Hz|Hnz].
    + eexists _, _. split; [reflexivity|]. split; [exact Hw|].
      unfold r_continue, reader_inv. simpl.
      destruct (S att <? kMaxAttempts)%nat; exact I.
    + destruct (Hsound Hnz) as (j & Hj & Hrd & Hrc & Hst & Hwok & Hcp & Hfb).
      simpl in *.
      eexists _, _. split; [reflexivity|]. split; [exact Hw|].
      unfold reader_inv. simpl. exists j. split; [exact Hj|]. simpl.
      split; [|exact Hrd].
      rewrite <- (take_ge (activity_stack o) cnt) by lia. rewrite Hcp.
      apply take_ge. lia.
  - (* thread_name *)
    unfold reader_inv in Hr. simpl in Hr. destruct Hr as (j & Hcopied).
    eexists _, _. split; [reflexivity|]. split; [exact Hw|].
    unfold reader_inv. simpl. exists j. split; [exact Hcopied|].
    rewrite Hi7. reflexivity.
  - (* thread_ref *)
    unfold reader_inv in Hr. simpl in Hr. destruct Hr as (j & Hcopied & Hname).
    eexists _, _. split; [reflexivity|]. split; [exact Hw|].
    unfold reader_inv. simpl. exists j. split; [exact Hcopied|].
    split; [exact Hname|exact Hi3].
  - (* process_id, again *)
    unfold reader_inv in Hr. simpl in Hr.
    destruct Hr as (j & Hcopied & Hname & Htid).
    simpl. rewrite Hname.
    match goal with
    | |- context [if ?c then _ else _] => destruct c
    end.
    + eexists _, _. split; [reflexivity|]. split; [exact Hw|].
      unfold r_continue, reader_inv. simpl.
      destruct (S att <? kMaxAttempts)%nat; exact I.
    + eexists _, _. split; [reflexivity|]. split; [exact Hw|].
      unfold reader_inv. simpl. exists j. split; [exact Hcopied|].
      split; [reflexivity|]. split; [exact Htid|exact Hi2].
  - (* IsValid, again *)
    rewrite Hv. simpl. eexists _, _. split; [reflexivity|].
    split; [exact Hw|exact Hr].
  - (* ticks to wall time *)
    unfold reader_inv in Hr. simpl in Hr.
    destruct Hr as (j & (Hj & Hstack & Hdepth) & Hname & Htid & Hpid).
    eexists _, _. split; [reflexivity|]. split; [exact Hw|].
    unfold reader_inv. simpl. exists j. split; [exact Hj|].
    unfold reference_snapshot, set_activity_stack. simpl.
    rewrite Hstack, Hdepth, Hname, Htid, Hpid. f_equal.
    apply list_fmap_ext. intros k a _. apply to_wall_same_identity. exact Hid.
  - (* returned *)
    eexists _, _. split; [reflexivity|]. split; [exact Hw|exact Hr].
Qed.

Lemma sys_step_inv who sy :
  sys_inv t h0 s0 ops sy ->
  exists sy', sys_step t who sy = Ok sy' /\ sys_inv t h0 s0 ops sy'.
Proof.
  destruct sy as [r w s]. intros [Hw Hr]. simpl in Hw, Hr.
  destruct who; unfold sys_step; simpl.
  - destruct (writer_step_inv r w Hw) as (r' & w' & -> & Hw' & Hfr). simpl.
    eexists. split; [reflexivity|]. split; simpl; [exact Hw'|].
    eapply reader_inv_writer_step; eassumption.
  - destruct (reader_step_inv r w s Hw Hr) as (r' & s' & -> & Hw' & Hr'). simpl.
    eexists. split; [reflexivity|]. split; assumption.
Qed.

Lemma sys_run_inv sched : forall sy,
  sys_inv t h0 s0 ops sy ->
  exists sy', sys_run t sched sy = Ok sy' /\ sys_inv t h0 s0 ops sy'.
Proof.
  induction sched as [|who sched IH]; intros sy Hinv; simpl.
  - eauto.
  - destruct (sys_step_inv who sy Hinv) as (sy1 & -> & Hinv1). simpl.
    apply IH. exact Hinv1.
Qed.

End InterleavingProofs.

(** C2, amended: the writer pushes and pops (no in-place change) within its
    contract, and a reader runs Snapshot in any interleaving with it, field
    by field.  The execution never faults, and if Snapshot returns true its
    output is the reference stack as it stood after some prefix of the
    writer's operations, cut to [stack_slots_] records, in wall time: no
    record is torn. *)
Theorem C2_snapshot_consistent_with_push_pop t r0 s0 ops o sched :
  tracks t (hdr r0) s0 r0 ->
  Forall (fun op => is_change op = false) ops ->
  in_contract s0 ops = true ->
  exists sy,
    sys_run t sched (sys_init r0 ops o) = Ok sy /\
    (r_pc (sys_reader sy) = R_return true ->
     exists j, (j <= length ops)%nat /\
       r_out (sys_reader sy)
         = reference_snapshot t (hdr r0) (ref_run s0 (take j ops))).
Proof.
  intros Htr Hnc Hc.
  destruct (sys_run_inv t (hdr r0) s0 ops Hnc Hc sched (sys_init r0 ops o))
    as (sy & Hrun & Hw & Hr).
  - split; simpl.
    + exists 0%nat. split; [lia|]. split; [exact Htr|]. reflexivity.
    + exact I.
  - exists sy. split; [exact Hrun|]. intros Hpc.
    unfold reader_inv in Hr. rewrite Hpc in Hr. exact Hr.
Qed.

Lemma tracks_c3_region : tracks two_slots (hdr c3_region) [] c3_region.
Proof.
  unfold tracks. split; [reflexivity|]. split; [apply same_identity_refl|].
  split; [reflexivity|]. split; [reflexivity|].
  split; [unfold UINT32_MAX; simpl; lia|]. split; [reflexivity|].
  repeat constructor.
Qed.

(** A push lands in the middle of the copy and the snapshot succeeds: it
    shows the stack as it was after the first push. *)
Lemma C2_snapshot_consistent_with_push_pop_witness :
  exists sy,
    sys_run two_slots c2_good_schedule
      (sys_init c3_region c2_good_ops empty_snapshot) = Ok sy /\
    r_pc (sys_reader sy) = R_return true /\
    (r_pc (sys_reader sy) = R_return true ->
     exists j, (j <= length c2_good_ops)%nat /\
       r_out (sys_reader sy)
         = reference_snapshot two_slots (hdr c3_region)
             (ref_run [] (take j c2_good_ops))).
Proof.
  destruct (C2_snapshot_consistent_with_push_pop two_slots c3_region []
              c2_good_ops empty_snapshot c2_good_schedule)
    as (sy & Hrun & Hres).
  - exact tracks_c3_region.
  - repeat constructor.
  - reflexivity.
  - exists sy. split; [exact Hrun|]. split; [|exact Hres].
    vm_compute in Hrun. injection Hrun as <-. reflexivity.
Defined.

(** C2 as stated fails.  The writer pushes a record and then changes its
    type and data in place (the category stays); the change lands between
    the reader's copy of [activity_type] and its copy of [data].
    ChangeActivity does not touch [stack_unchanged], so the reader finds
    the flag still set, does not retry (it is still in attempt 0) and
    returns true with a record of the old type and the new data, which the
    slot never held at any moment of the execution. *)
Lemma C2_change_during_copy_is_not_detected :
  exists sy,
    sys_run two_slots c2_schedule (sys_init c3_region c2_ops empty_snapshot)
      = Ok sy /\
    r_pc (sys_reader sy) = R_return true /\
    r_attempt (sys_reader sy) = 0%nat /\
    activity_stack (r_out (sys_reader sy)) = [to_wall (hdr c3_region) c2_torn] /\
    (forall k sy',
       sys_run two_slots (take k c2_schedule)
         (sys_init c3_region c2_ops empty_snapshot) = Ok sy' ->
       stack (sys_region sy') !! 0%nat <> Some c2_torn).
Proof.
  eexists. split; [vm_compute; reflexivity|].
  split; [reflexivity|]. split; [reflexivity|]. split; [reflexivity|].
  intros k sy' Hrun Hslot.
  assert (Hall : forallb c2_never_torn (seq 0 (S (length c2_schedule))) = true)
    by (vm_compute; reflexivity).
  rewrite forallb_forall in Hall.
  set (k' := (k `min` length c2_schedule)%nat).
  assert (Hk : take k c2_schedule = take k' c2_schedule).
  { unfold k'. destruct (Nat.le_gt_cases k (length c2_schedule)).
    - f_equal. lia.
    - rewrite !take_ge by lia. reflexivity. }
  specialize (Hall k'). unfold c2_never_torn in Hall.
  rewrite <- Hk, Hrun, Hslot in Hall.
  assert (Hin : In k' (seq 0 (S (length c2_schedule)))).
  { apply in_seq. unfold k'. lia. }
  specialize (Hall Hin). discriminate.
Qed.

(** ** What a failed Snapshot leaves in its output *)

Lemma out_inv_reader_step t o r s r' s' :
  out_inv t o s -> reader_step t r s = Ok (r', s') -> out_inv t o s'.
Proof.
  destruct s as [pc att spid stid dep cnt out]. unfold reader_step, out_inv.
  simpl r_pc. simpl r_out. intros Hinv Hstep.
  destruct pc.
  - destruct (negb (IsValid t r)); injection Hstep as <- <-; simpl; auto.
  - injection Hstep as <- <-. simpl. exact Hinv.
  - injection Hstep as <- <-. simpl. exact Hinv.
  - injection Hstep as <- <-. simpl. exact Hinv.
  - injection Hstep as <- <-.
    assert (Hs : forall pc', sized t
              (mkR pc' att spid stid (current_depth (hdr r))
                 (Z.to_nat (Z.min (current_depth (hdr r)) (stack_slots_ t)))
                 (set_activity_stack
                    (resize (Z.to_nat (Z.min (current_depth (hdr r)) (stack_slots_ t)))
                       zero_activity (activity_stack out)) out))).
    { intros pc'. split; simpl; [apply length_resize|reflexivity]. }
    destruct (0 <? _)%nat; simpl; apply Hs.
  - destruct (stack r !! i); [|discriminate].
    destruct (activity_stack out !! i); [|discriminate].
    injection Hstep as <- <-. destruct Hinv as [Hl Hc]. simpl in Hl, Hc.
    assert (Hs : forall pc', sized t
              (mkR pc' att spid stid dep cnt
                 (set_activity_stack
                    (<[i := copy_field f a a0]> (activity_stack out)) out))).
    { intros pc'. split; simpl; [rewrite length_insert; exact Hl|exact Hc]. }
    unfold r_goto, r_with_out. simpl.
    destruct (next_field f); [apply Hs|].
    destruct (S i <? cnt)%nat; apply Hs.
  - destruct Hinv as [Hl Hc]. simpl in Hl, Hc.
    destruct (stack_unchanged (hdr r) =? 0); injection Hstep as <- <-.
    + unfold r_continue. simpl.
      destruct (S att <? kMaxAttempts)%nat; simpl; right; split; assumption.
    + simpl. split; assumption.
  - injection Hstep as <- <-. simpl. exact Hinv.
  - injection Hstep as <- <-. simpl. exact Hinv.
  - destruct Hinv as [Hl Hc]. simpl in Hl, Hc.
    simpl in Hstep.
    match type of Hstep with
    | (if ?c then _ else _) = _ => destruct c
    end; injection Hstep as <- <-.
    + unfold r_continue. simpl.
      destruct (S att <? kMaxAttempts)%nat; simpl; right; split; assumption.
    + simpl. split; assumption.
  - destruct (negb (IsValid t r)); injection Hstep as <- <-; simpl; auto.
  - injection Hstep as <- <-. destruct Hinv as [Hl Hc]. simpl in Hl, Hc.
    simpl. split; simpl; [rewrite length_fmap; exact Hl|exact Hc].
  - injection Hstep as <- <-. exact Hinv.
Qed.

Lemma out_inv_sys_run t o sched : forall sy sy',
  out_inv t o (sys_reader sy) ->
  sys_run t sched sy = Ok sy' ->
  out_inv t o (sys_reader sy').
Proof.
  induction sched as [|who sched IH]; intros sy sy' Hinv Hrun; simpl in Hrun.
  - injection Hrun as <-. exact Hinv.
  - destruct (sys_step t who sy) as [sy1|] eqn:Hstep; [|discriminate].
    simpl in Hrun. apply (IH sy1 sy'); [|exact Hrun].
    destruct who; unfold sys_step in Hstep.
    + destruct (writer_step t (sys_region sy) (sys_writer sy)) as [[r' w']|];
        [|discriminate].
      injection Hstep as <-. exact Hinv.
    + destruct (reader_step t (sys_region sy) (sys_reader sy)) as [[r' s']|] eqn:E;
        [|discriminate].
      injection Hstep as <-. simpl. eapply out_inv_reader_step; eassumption.
Qed.

Lemma out_inv_reader_run_any t o regions : forall s s',
  out_inv t o s ->
  reader_run_any t regions s = Ok s' ->
  out_inv t o s'.
Proof.
  induction regions as [|r regions IH]; intros s s' Hinv Hrun; simpl in Hrun.
  - injection Hrun as <-. exact Hinv.
  - destruct (reader_step t r s) as [[r' s1]|] eqn:E; [|discriminate].
    simpl in Hrun. apply (IH s1 s'); [|exact Hrun].
    eapply out_inv_reader_step; eassumption.
Qed.




















(** A thread returns the block 32, which holds a record, on its own. *)
Lemma C7_block_zeroed_before_recycling_witness :
  exists g' z,
    solo_run 4 2 6 (ReturnTrackerMemory_start 32 1032) example_global
      = Ok (g', U_pushed 32) /\
    blocks g' !! 1032 = Some z /\
    stack c9_region !! 0%nat
      = Some (mkActivity 510 4096 (ACT_GENERIC + 1) zero_call_stack 42) /\
    hdr z = zero_header /\
    stack z !! 0%nat = Some zero_activity /\
    stack z !! 1%nat = Some zero_activity /\
    Snapshot two_slots z empty_snapshot = Ok (z, empty_snapshot, false).
Proof.
  assert (Hb : blocks example_global !! 1032 = Some c9_region)
    by (vm_compute; reflexivity).
  destruct (C7_block_zeroed_before_recycling 4 2 example_global 32 1032
              c9_region Hb)
    as (_ & _ & Hpush & _ & Hzero & _ & Hsnap).
  destruct Hzero as (Hh & _ & Hrec & _).
  destruct Hpush as (g' & Hrun & _ & _ & Hz).
  - discriminate.
  - simpl. lia.
  - reflexivity.
  - exists g', (memset_zero 2 c9_region).
    split; [exact Hrun|]. split; [exact Hz|]. split; [reflexivity|].
    split; [exact Hh|].
    split; [apply Hrec; simpl; lia|].
    split; [apply Hrec; simpl; lia|].
    apply (Hsnap two_slots empty_snapshot).
Defined.

(** ** The step machines and the functions agree *)

Lemma sys_run_app t sched1 sched2 sy :
  sys_run t (sched1 ++ sched2) sy
  = (do sy' <- sys_run t sched1 sy; sys_run t sched2 sy').
Proof.
  revert sy. induction sched1 as [|who sched1 IH]; intros sy; simpl; [reflexivity|].
  destruct (sys_step t who sy); simpl; [apply IH|reflexivity].
Qed.

(** The writer on its own, from one operation to the next, does what the
    function of the operation does. *)
Lemma writer_alone_is_apply_op t r op rest s :
  sys_run t (replicate (op_steps t r op) Writer)
    (mkSys r (mkW W_idle (op :: rest)) s)
  = (do r' <- apply_op t op r; Ok (mkSys r' (mkW W_idle rest) s)).
Proof.
  destruct op as [now origin type d|type d|];
    unfold op_steps, apply_op.
  - unfold PushActivity. cbv zeta.
    destruct (stack_slots_ t <=? current_depth (hdr r)) eqn:E;
      cbn [replicate sys_run]; unfold sys_step at 1;
      cbn [sys_region sys_writer sys_reader writer_step w_pc w_todo];
      rewrite E; cbn [rbind fst snd].
    + reflexivity.
    + unfold sys_step.
      cbn [sys_region sys_writer sys_reader writer_step w_pc w_todo].
      destruct (store_slot _ (set_time_internal now) r) as [r1|];
        cbn [rbind fst snd sys_region sys_writer sys_reader writer_step
             w_pc w_todo]; [|reflexivity].
      destruct (store_slot _ (set_origin_address origin) r1) as [r2|];
        cbn [rbind fst snd sys_region sys_writer sys_reader writer_step
             w_pc w_todo]; [|reflexivity].
      destruct (store_slot _ (set_activity_type type) r2) as [r3|];
        cbn [rbind fst snd sys_region sys_writer sys_reader writer_step
             w_pc w_todo]; [|reflexivity].
      destruct (store_slot _ (set_data d) r3) as [r4|];
        cbn [rbind fst snd sys_region sys_writer sys_reader writer_step
             w_pc w_todo]; reflexivity.
  - unfold ChangeActivity. cbv zeta.
    destruct (current_depth (hdr r) <=? stack_slots_ t) eqn:E;
      cbn [replicate sys_run]; unfold sys_step at 1;
      cbn [sys_region sys_writer sys_reader writer_step w_pc w_todo];
      rewrite E; cbn [rbind fst snd].
    + unfold sys_step.
      cbn [sys_region sys_writer sys_reader writer_step w_pc w_todo].
      destruct (if type =? ACT_NULL then Ok r else _) as [r1|];
        cbn [rbind fst snd sys_region sys_writer sys_reader writer_step
             w_pc w_todo]; [|reflexivity].
      destruct (if is_kNullActivityData d then Ok r1 else _) as [r2|];
        cbn [rbind fst snd]; reflexivity.
    + reflexivity.
  - reflexivity.
Qed.

Lemma reader_memcpy_step t r w i f att sp st dep cnt o src dst :
  stack r !! i = Some src ->
  activity_stack o !! i = Some dst ->
  sys_step t Reader (mkSys r w (mkR (R_memcpy i f) att sp st dep cnt o))
  = Ok (mkSys r w
          (mkR match next_field f with
               | Some f' => R_memcpy i f'
               | None => if (S i <? cnt)%nat then R_memcpy (S i) F_time_internal
                         else R_load_unchanged
               end
             att sp st dep cnt
             (set_activity_stack
                (<[i := copy_field f src dst]> (activity_stack o)) o))).
Proof.
  intros Hsrc Hdst. unfold sys_step, reader_step.
  cbn [sys_region sys_reader sys_writer r_pc r_out]. rewrite Hsrc, Hdst.
  reflexivity.
Qed.

(** Five steps copy one record. *)
Lemma reader_memcpy_record t r w i att sp st dep cnt o src dst :
  stack r !! i = Some src ->
  activity_stack o !! i = Some dst ->
  sys_run t (replicate 5 Reader)
    (mkSys r w (mkR (R_memcpy i F_time_internal) att sp st dep cnt o))
  = Ok (mkSys r w
          (mkR (if (S i <? cnt)%nat then R_memcpy (S i) F_time_internal
                else R_load_unchanged)
             att sp st dep cnt
             (set_activity_stack (<[i := src]> (activity_stack o)) o))).
Proof.
  intros Hsrc Hdst.
  pose proof (lookup_lt_Some _ _ _ Hdst) as Hlt.
  cbn [replicate sys_run].
  rewrite (reader_memcpy_step _ _ _ _ _ _ _ _ _ _ _ src dst Hsrc Hdst).
  cbn [rbind next_field].
  do 4 (erewrite (reader_memcpy_step _ _ _ _ _ _ _ _ _ _ _ src)
          by (try exact Hsrc; cbn [activity_stack set_activity_stack];
              apply list_lookup_insert_eq; rewrite ?length_insert; exact Hlt);
        cbn [rbind next_field activity_stack set_activity_stack]).
  rewrite !list_insert_insert_eq.
  replace (copy_field F_data src
             (copy_field F_call_stack src
                (copy_field F_activity_type src
                   (copy_field F_origin_address src
                      (copy_field F_time_internal src dst))))) with src
    by (destruct src, dst; reflexivity).
  reflexivity.
Qed.

(** The whole [memcpy]. *)
Lemma reader_memcpy_loop t r w att sp st dep cnt m : forall i o,
  (i + S m = cnt)%nat ->
  (cnt <= length (stack r))%nat ->
  length (activity_stack o) = cnt ->
  take i (activity_stack o) = take i (stack r) ->
  sys_run t (replicate (5 * S m) Reader)
    (mkSys r w (mkR (R_memcpy i F_time_internal) att sp st dep cnt o))
  = Ok (mkSys r w
          (mkR R_load_unchanged att sp st dep cnt
             (set_activity_stack (take cnt (stack r)) o))).
Proof.
  induction m as [|m IH]; intros i o Hi Hcnt Hlen Htake.
  - destruct (lookup_lt_is_Some_2 (stack r) i) as [src Hsrc]; [lia|].
    destruct (lookup_lt_is_Some_2 (activity_stack o) i) as [dst Hdst]; [lia|].
    change (5 * 1)%nat with 5%nat.
    rewrite (reader_memcpy_record _ _ _ _ _ _ _ _ _ _ src dst Hsrc Hdst).
    destruct (Nat.ltb_spec (S i) cnt); [lia|].
    do 3 f_equal. unfold set_activity_stack. f_equal.
    replace cnt with (S i) by lia.
    rewrite (take_S_r _ _ _ Hsrc), <- Htake.
    rewrite <- (take_ge (<[i:=src]> (activity_stack o)) (S i))
      by (rewrite length_insert; lia).
    rewrite (take_S_r _ _ src)
      by (apply list_lookup_insert_eq; lia).
    rewrite take_insert_ge by lia. reflexivity.
  - destruct (lookup_lt_is_Some_2 (stack r) i) as [src Hsrc]; [lia|].
    destruct (lookup_lt_is_Some_2 (activity_stack o) i) as [dst Hdst]; [lia|].
    replace (5 * S (S m))%nat with (5 + 5 * S m)%nat by lia.
    rewrite replicate_add, sys_run_app.
    rewrite (reader_memcpy_record _ _ _ _ _ _ _ _ _ _ src dst Hsrc Hdst).
    cbn [rbind].
    destruct (Nat.ltb_spec (S i) cnt); [|lia].
    rewrite (IH (S i)); cbn [activity_stack set_activity_stack].
    + reflexivity.
    + lia.
    + exact Hcnt.
    + rewrite length_insert. exact Hlen.
    + rewrite (take_S_r _ _ src) by (apply list_lookup_insert_eq; lia).
      rewrite take_insert_ge by lia.
      rewrite (take_S_r _ _ _ Hsrc), Htake. reflexivity.
Qed.

Ltac reader_steps :=
  unfold sys_step, reader_step;
  cbn [sys_region sys_reader sys_writer r_pc r_out rbind fst snd
       hdr stack stack_unchanged Z.eqb
       r_goto r_with_out r_depth starting_process_id starting_thread_id
       r_attempt r_count
       set_activity_stack_depth set_snap_thread_name set_snap_thread_id
       set_snap_process_id set_activity_stack
       snap_thread_name snap_thread_id snap_process_id
       activity_stack activity_stack_depth
       process_id thread_ref thread_name].

(** The reader on its own, with nobody writing: its steps end in the
    result of the function [Snapshot]. *)
Lemma reader_alone_is_Snapshot t r w o :
  length (stack r) = Z.to_nat (stack_slots_ t) ->
  exists n r' s',
    sys_run t (replicate n Reader) (mkSys r w (reader_init o))
      = Ok (mkSys r' w s') /\
    exists b, r_pc s' = R_return b /\ Snapshot t r o = Ok (r', r_out s', b).
Proof.
  intros Hlen. destruct (IsValid t r) eqn:Hv.
  - set (cnt := Z.to_nat (Z.min (current_depth (hdr r)) (stack_slots_ t))).
    rewrite (Snapshot_quiet _ _ _ Hv Hlen). fold cnt.
    set (r1 := with_hdr (set_stack_unchanged 1) r).
    assert (Hhead : sys_run t (replicate 5 Reader) (mkSys r w (reader_init o))
              = Ok (mkSys r1 w
                      (mkR (if (0 <? cnt)%nat then R_memcpy 0 F_time_internal
                            else R_load_unchanged)
                         0 (process_id (hdr r)) (thread_ref (hdr r))
                         (current_depth (hdr r)) cnt
                         (set_activity_stack
                            (resize cnt zero_activity (activity_stack o)) o)))).
    { cbn [replicate sys_run]. unfold sys_step at 1, reader_step.
      cbn [sys_region sys_reader sys_writer reader_init r_pc r_out].
      rewrite Hv. reflexivity. }
    assert (Hcopy : exists m,
              sys_run t (replicate (5 + m) Reader) (mkSys r w (reader_init o))
              = Ok (mkSys r1 w
                      (mkR R_load_unchanged
                         0 (process_id (hdr r)) (thread_ref (hdr r))
                         (current_depth (hdr r)) cnt
                         (set_activity_stack (take cnt (stack r)) o)))).
    { destruct cnt as [|c] eqn:Ec.
      - exists 0%nat. rewrite Nat.add_0_r, Hhead. cbn [Nat.ltb Nat.leb].
        rewrite resize_0. reflexivity.
      - exists (5 * S c)%nat. rewrite replicate_add, sys_run_app, Hhead.
        cbn [rbind Nat.ltb Nat.leb].
        rewrite (reader_memcpy_loop t r1 w _ _ _ _ (S c) c 0%nat);
          cbn [activity_stack set_activity_stack stack r1 with_hdr].
        + reflexivity.
        + reflexivity.
        + lia.
        + apply length_resize.
        + reflexivity. }
    destruct Hcopy as [m Hcopy].
    exists (5 + m + 6)%nat. eexists _, _.
    split.
    + rewrite replicate_add, sys_run_app, Hcopy. cbn [rbind replicate sys_run].
      subst r1. reader_steps. unfold with_hdr at 1, set_stack_unchanged at 1.
      reader_steps. rewrite !Z.eqb_refl. cbn [negb orb]. reader_steps.
      rewrite IsValid_set_unchanged, Hv. cbn [negb]. reader_steps. reflexivity.
    + exists true. split; reflexivity.
  - exists 1%nat, r, (r_goto (R_return false) (reader_init o)). split.
    + cbn [replicate sys_run]. unfold sys_step, reader_step.
      cbn [sys_region sys_reader sys_writer reader_init r_pc r_out].
      rewrite Hv. reflexivity.
    + exists false. split; [reflexivity|].
      unfold Snapshot. rewrite Hv. reflexivity.
Qed.

(** * Further properties of the code *)

(** ** The writer's operations *)

Lemma same_identity_trans h1 h2 h3 :
  same_identity h1 h2 -> same_identity h2 h3 -> same_identity h1 h3.
Proof.
  intros (A1 & A2 & A3 & A4 & A5 & A6 & A7) (B1 & B2 & B3 & B4 & B5 & B6 & B7).
  repeat split; congruence.
Qed.

(** What every operation of the writer keeps: the identity fields of the
    header and the number of slots. *)
Lemma apply_op_keeps t op r r1 :
  apply_op t op r = Ok r1 ->
  same_identity (hdr r1) (hdr r) /\ length (stack r1) = length (stack r).
Proof.
  destruct op as [now origin type d|type d|]; simpl; intros Hop.
  - apply PushActivity_inv in Hop as [[_ ->]|[_ (a & _ & ->)]]; simpl;
      (split; [repeat split|]); [reflexivity|apply length_insert].
  - apply ChangeActivity_inv in Hop as [->|(a & _ & _ & ->)]; simpl;
      (split; [repeat split|]); [reflexivity|apply length_insert].
  - injection Hop as <-. split; [repeat split|reflexivity].
Qed.

(** X1: PushActivity writes one slot and the depth, and nothing else.  The
    identity fields of the header and the tear flag stay, every other slot
    stays, the call stack of the written slot stays; at or above capacity no
    slot is written at all. *)
Theorem X1_PushActivity_frame t now origin type d r r' :
  PushActivity t now origin type d r = Ok r' ->
  same_identity (hdr r') (hdr r) /\
  stack_unchanged (hdr r') = stack_unchanged (hdr r) /\
  current_depth (hdr r') = wrap32 (current_depth (hdr r) + 1) /\
  length (stack r') = length (stack r) /\
  (forall i, i <> Z.to_nat (current_depth (hdr r)) ->
             stack r' !! i = stack r !! i) /\
  (stack_slots_ t <= current_depth (hdr r) -> stack r' = stack r) /\
  (current_depth (hdr r) < stack_slots_ t ->
   exists a, stack r !! Z.to_nat (current_depth (hdr r)) = Some a /\
             stack r' !! Z.to_nat (current_depth (hdr r))
               = Some (mkActivity now origin type (call_stack a) d)).
Proof.
  intros H. apply PushActivity_inv in H as [[Hov ->]|[Hlt (a & Ha & ->)]]; simpl.
  - repeat split; auto. intros; lia.
  - pose proof (lookup_lt_Some _ _ _ Ha) as Hlen.
    repeat split.
    + apply length_insert.
    + intros i Hi. apply list_lookup_insert_ne. congruence.
    + intros; lia.
    + intros _. exists a. split; [exact Ha|].
      apply list_lookup_insert_eq. exact Hlen.
Qed.

Lemma X1_PushActivity_frame_witness :
  exists r',
    PushActivity two_slots 520 2 ACT_LOCK_ACQUIRE 43 c9_region = Ok r' /\
    stack_unchanged (hdr r') = 1 /\
    current_depth (hdr r') = 2 /\
    stack r' !! 0%nat = stack c9_region !! 0%nat.
Proof.
  eexists. split; [reflexivity|].
  destruct (X1_PushActivity_frame two_slots 520 2 ACT_LOCK_ACQUIRE 43 c9_region
              _ eq_refl) as (_ & Hf & Hd & _ & Hs & _).
  split; [exact Hf|]. split; [exact Hd|]. apply Hs. discriminate.
Defined.

(** X2: a push followed by a pop.  The depth is back where it was, the
    tear flag is cleared, and the pop has erased nothing: the records are
    exactly those the push left, so the popped record stays in its slot
    until the next push overwrites it; the records below are untouched. *)
Theorem X2_push_then_pop t now origin type d r r1 :
  0 <= current_depth (hdr r) < UINT32_MAX ->
  PushActivity t now origin type d r = Ok r1 ->
  current_depth (hdr (PopActivity r1)) = current_depth (hdr r) /\
  stack_unchanged (hdr (PopActivity r1)) = 0 /\
  same_identity (hdr (PopActivity r1)) (hdr r) /\
  stack (PopActivity r1) = stack r1 /\
  take (Z.to_nat (current_depth (hdr r))) (stack (PopActivity r1))
    = take (Z.to_nat (current_depth (hdr r))) (stack r).
Proof.
  intros Hd H.
  assert (Hw : wrap32 (wrap32 (current_depth (hdr r) + 1) - 1)
               = current_depth (hdr r)).
  { rewrite (wrap32_small (_ + 1)) by lia.
    replace (current_depth (hdr r) + 1 - 1) with (current_depth (hdr r)) by lia.
    apply wrap32_small. lia. }
  apply PushActivity_inv in H as [[Hov ->]|[Hlt (a & Ha & ->)]]; simpl;
    rewrite Hw; (repeat split).
  apply take_insert_ge. apply Nat.le_refl.
Qed.

Lemma X2_push_then_pop_witness :
  exists r1,
    PushActivity two_slots 520 2 ACT_LOCK_ACQUIRE 43 c9_region = Ok r1 /\
    current_depth (hdr (PopActivity r1)) = 1 /\
    stack_unchanged (hdr (PopActivity r1)) = 0 /\
    stack (PopActivity r1) !! 1%nat
      = Some (mkActivity 520 2 ACT_LOCK_ACQUIRE zero_call_stack 43).
Proof.
  eexists. split; [reflexivity|].
  destruct (X2_push_then_pop two_slots 520 2 ACT_LOCK_ACQUIRE 43 c9_region _
              ltac:(unfold UINT32_MAX; simpl; lia) eq_refl)
    as (Hd & Hf & _ & _ & _).
  split; [exact Hd|]. split; [exact Hf|]. reflexivity.
Defined.

(** X3: no operation of the writer can make a tracker invalid, or a
    rejected one valid.  Whatever the sequence of pushes, changes and pops,
    if it runs without a fault the identity fields of the header and the
    number of slots are as before, and IsValid answers as before. *)
Theorem X3_writer_keeps_validity t ops : forall r r',
  run_ops t ops r = Ok r' ->
  same_identity (hdr r') (hdr r) /\
  length (stack r') = length (stack r) /\
  IsValid t r' = IsValid t r.
Proof.
  induction ops as [|op ops IH]; intros r r' Hrun; simpl in Hrun.
  - injection Hrun as <-. split; [apply same_identity_refl|]. auto.
  - destruct (apply_op t op r) as [r1|] eqn:Hop; [|discriminate].
    simpl in Hrun. destruct (IH _ _ Hrun) as (Hid & Hlen & Hv).
    destruct (apply_op_keeps _ _ _ _ Hop) as [Hid1 Hlen1].
    pose proof (same_identity_trans _ _ _ Hid Hid1) as Hid'.
    split; [exact Hid'|]. split; [congruence|].
    apply IsValid_same_identity. exact Hid'.
Qed.

Lemma X3_writer_keeps_validity_witness :
  exists r',
    run_ops two_slots c1_ops c3_region = Ok r' /\
    IsValid two_slots r' = true /\ length (stack r') = 2%nat.
Proof.
  eexists. split; [reflexivity|].
  destruct (X3_writer_keeps_validity two_slots c1_ops c3_region _ eq_refl)
    as (_ & Hl & Hv).
  split; [exact Hv|exact Hl].
Defined.

(** ** Snapshot with nobody else at work *)

Lemma Snapshot_first_attempt t r o :
  IsValid t r = true ->
  (Z.to_nat (Z.min (current_depth (hdr r)) (stack_slots_ t))
     <= length (stack r))%nat ->
  Snapshot t r o
    = Ok (with_hdr (set_stack_unchanged 1) r, snapshot_of t r, true).
Proof.
  intros Hv Hlen. unfold Snapshot. rewrite Hv. simpl negb. cbv iota.
  unfold kMaxAttempts. cbn [Snapshot_loop]. unfold Snapshot_attempt.
  cbv zeta. cbn [hdr with_hdr stack set_stack_unchanged stack_unchanged
                 current_depth process_id thread_ref thread_name
                 activity_stack set_activity_stack].
  revert Hlen.
  set (count := Z.to_nat (Z.min (current_depth (hdr r)) (stack_slots_ t))).
  intros Hlen.
  assert (Hcopy :
    (if (0 <? count)%nat
     then memcpy_stack count (mkRegion (set_stack_unchanged 1 (hdr r)) (stack r))
            (resize count zero_activity (activity_stack o))
     else Ok (resize count zero_activity (activity_stack o)))
    = Ok (take count (stack r))).
  { destruct (Nat.ltb_spec 0 count) as [Hpos|Hz].
    - unfold memcpy_stack. simpl stack.
      destruct (Nat.leb_spec count (length (stack r))) as [_|Hbad]; [|lia].
      rewrite drop_ge by (rewrite length_resize; lia).
      rewrite app_nil_r. reflexivity.
    - replace count with 0%nat by lia. rewrite resize_0. reflexivity. }
  unfold with_hdr at 1. cbn [hdr stack]. unfold set_stack_unchanged at 1.
  cbn [stack_unchanged]. unfold set_stack_unchanged in Hcopy.
  rewrite Hcopy. cbn [rbind]. simpl Z.eqb. cbv iota.
  cbn [snap_process_id snap_thread_id set_snap_process_id set_snap_thread_id
       set_snap_thread_name set_activity_stack_depth set_activity_stack
       snap_thread_name activity_stack activity_stack_depth
       process_id thread_ref thread_name current_depth hdr].
  rewrite !Z.eqb_refl. simpl negb. simpl orb. cbv iota.
  rewrite IsValid_set_unchanged, Hv. simpl negb. cbv iota. cbn [rbind].
  reflexivity.
Qed.

(** X4: Snapshot while the owning thread is idle.  On an invalid tracker
    it returns false and touches neither the region nor the output.  On a
    valid one it succeeds at its first attempt, its only write to the region
    is the tear flag, and the output is a function of the region alone:
    nothing of what the output object held before survives. *)
Theorem X4_Snapshot_alone t r o :
  (Z.to_nat (Z.min (current_depth (hdr r)) (stack_slots_ t))
     <= length (stack r))%nat ->
  Snapshot t r o =
    if IsValid t r
    then Ok (with_hdr (set_stack_unchanged 1) r, snapshot_of t r, true)
    else Ok (r, o, false).
Proof.
  intros Hlen. destruct (IsValid t r) eqn:Hv.
  - apply Snapshot_first_attempt; assumption.
  - unfold Snapshot. rewrite Hv. reflexivity.
Qed.

Lemma X4_Snapshot_alone_witness :
  Snapshot two_slots c9_region (mkSnapshot [zero_activity] 7 [65] 1 2)
    = Ok (c9_region,
          mkSnapshot [mkActivity 1010 4096 (ACT_GENERIC + 1) zero_call_stack 42]
            1 [] 88 77,
          true).
Proof.
  rewrite (X4_Snapshot_alone two_slots c9_region); [reflexivity|].
  simpl. lia.
Defined.

(** ** Construction of a tracker over a block *)

Lemma strlen_le s : (strlen s <= length s)%nat.
Proof.
  induction s as [|c s IH]; simpl; [lia|]. destruct (c =? 0); lia.
Qed.

Lemma strlen_prefix_nonzero s : Forall (fun c => c <> 0) (take (strlen s) s).
Proof.
  induction s as [|c s IH]; simpl; [constructor|].
  destruct (Z.eqb_spec c 0); simpl; constructor; auto.
Qed.

Lemma strlen_nonzero_app s rest :
  Forall (fun c => c <> 0) s ->
  strlen (s ++ rest) = (length s + strlen rest)%nat.
Proof.
  induction 1 as [|c s Hc _ IH]; simpl; [reflexivity|].
  destruct (Z.eqb_spec c 0); [contradiction|]. rewrite IH. reflexivity.
Qed.

(** A string cut at [n] characters, with its NUL if there is room. *)
Lemma cut_at_NUL s rest n :
  Forall (fun c => c <> 0) s -> (length s <= n)%nat ->
  take (strlen (take n (s ++ 0 :: rest))) (take n (s ++ 0 :: rest)) = s.
Proof.
  intros Hs Hn. rewrite take_app_ge by exact Hn.
  rewrite strlen_nonzero_app by exact Hs.
  assert (Hz : strlen (take (n - length s) (0 :: rest)) = 0%nat).
  { destruct (n - length s)%nat; reflexivity. }
  rewrite Hz, Nat.add_0_r. rewrite take_app_length. reflexivity.
Qed.

(** The name the constructor stores is the name Snapshot reads back: the
    thread's name up to 31 characters. *)
Lemma name_round_trip dst src :
  name_of_buffer (strlcpy dst src 32) = take 31 (take (strlen src) src).
Proof.
  unfold name_of_buffer, strlcpy. cbv zeta. simpl pred.
  apply cut_at_NUL.
  - apply Forall_take. apply strlen_prefix_nonzero.
  - rewrite length_take. lia.
Qed.

Lemma strlcpy_last dst src :
  thread_name_last_ok dst ->
  default 0 (strlcpy dst src 32 !! 31%nat) = 0.
Proof.
  unfold thread_name_last_ok, strlcpy. cbv zeta. simpl pred.
  set (s := take 31 (take (strlen src) src)).
  assert (Hs : (length s <= 31)%nat) by (unfold s; rewrite length_take; lia).
  intros Hd. rewrite lookup_app_r by exact Hs.
  destruct (31 - length s)%nat as [|k] eqn:Hk; [reflexivity|].
  simpl. rewrite lookup_drop.
  replace (S (length s) + k)%nat with 31%nat by lia. exact Hd.
Qed.

Section ConstructionProofs.

Variables sizeof_Header sizeof_Activity : Z.
Hypothesis Hheader : 0 <= sizeof_Header.
Hypothesis Hactivity : 0 < sizeof_Activity.

Local Abbreviation new := (ThreadActivityTracker_new sizeof_Header sizeof_Activity).
Local Abbreviation slots := (slots_of_size sizeof_Header sizeof_Activity).

Lemma accepted_size size :
  0 <= size < 2 ^ 64 ->
  sizeof_Header + kMinStackDepth * sizeof_Activity <= size ->
  slots size <= UINT32_MAX ->
  ((size <? sizeof_Header + kMinStackDepth * sizeof_Activity)
     || (UINT32_MAX <? slots size)) = false /\
  wrap32 (slots size) = slots size /\
  slots size = (size - sizeof_Header) / sizeof_Activity /\
  kMinStackDepth <= slots size.
Proof.
  intros Hsize Hmin Hmax. unfold kMinStackDepth in *.
  assert (Hw : wrap_size_t (size - sizeof_Header) = size - sizeof_Header).
  { unfold wrap_size_t. apply Z.mod_small. lia. }
  assert (Hs : slots size = (size - sizeof_Header) / sizeof_Activity).
  { unfold slots_of_size. rewrite Hw. reflexivity. }
  assert (H2 : 2 <= slots size).
  { rewrite Hs. apply Z.div_le_lower_bound; lia. }
  split; [|split; [|split]]; [| |exact Hs|exact H2].
  - apply orb_false_intro; [apply Z.ltb_ge; lia|apply Z.ltb_ge; exact Hmax].
  - apply wrap32_small. lia.
Qed.

Lemma born_header_valid e h n :
  thread_name_last_ok (thread_name h) ->
  let h' := mkHeader kHeaderCookie (env_process_id e) (env_thread_handle e)
              (env_time_now e) (env_ticks_now e) n (current_depth h)
              (stack_unchanged h) (strlcpy (thread_name h) (env_thread_name e) 32) in
  forall s, IsValid (mkTracker n true) (mkRegion h' s) = true <-> env_nonzero e.
Proof.
  intros Hname h' s. unfold IsValid, env_nonzero. cbv zeta. subst h'.
  cbn [hdr cookie process_id thread_ref start_time start_ticks stack_slots
       thread_name stack_slots_ valid_].
  rewrite (strlcpy_last _ _ Hname), !Z.eqb_refl. simpl negb. simpl orb.
  destruct (Z.eqb_spec (env_process_id e) 0) as [H1|H1];
    destruct (Z.eqb_spec (env_thread_handle e) 0) as [H2|H2];
    destruct (Z.eqb_spec (env_time_now e) 0) as [H3|H3];
    destruct (Z.eqb_spec (env_ticks_now e) 0) as [H4|H4];
    simpl; split; try discriminate; try tauto.
Qed.

(** X5: the birth of a tracker.  Over a block whose cookie is zero and
    whose size is accepted, the constructor fills in the identity of the
    thread and leaves the depth, the tear flag and every record as they
    were.  It sets [valid_] without looking; IsValid then holds exactly
    when the process id, the thread handle, the time and the tick count it
    stored are all non-zero. *)
Theorem X5_birth e r size :
  0 <= size < 2 ^ 64 ->
  sizeof_Header + kMinStackDepth * sizeof_Activity <= size ->
  slots size <= UINT32_MAX ->
  cookie (hdr r) = 0 ->
  thread_name_last_ok (thread_name (hdr r)) ->
  exists t r',
    new e (Some r) size = (t, Some r') /\
    valid_ t = true /\
    stack_slots_ t = (size - sizeof_Header) / sizeof_Activity /\
    stack_slots (hdr r') = stack_slots_ t /\
    cookie (hdr r') = kHeaderCookie /\
    process_id (hdr r') = env_process_id e /\
    thread_ref (hdr r') = env_thread_handle e /\
    current_depth (hdr r') = current_depth (hdr r) /\
    stack_unchanged (hdr r') = stack_unchanged (hdr r) /\
    stack r' = stack r /\
    (IsValid t r' = true <-> env_nonzero e).
Proof.
  intros Hsize Hmin Hmax Hcookie Hname.
  destruct (accepted_size size Hsize Hmin Hmax) as (Hacc & Hw & Hs & _).
  unfold ThreadActivityTracker_new. cbv zeta.
  fold (slots size). rewrite Hacc, Hcookie, Hw. simpl Z.eqb. cbv iota.
  eexists _, _. split; [reflexivity|].
  cbn [valid_ stack_slots_ hdr stack cookie process_id thread_ref
       current_depth stack_unchanged stack_slots].
  repeat (split; [first [reflexivity|exact Hs]|]).
  apply born_header_valid. exact Hname.
Qed.

(** X6: a second tracker over a block that was born.  It never writes to
    the block and asks nothing of the environment it runs in, so another
    thread or another process may build it.  It is valid exactly when the
    block was born with non-zero identity fields and the size given now
    yields the number of slots recorded at birth. *)
Theorem X6_adopt e r size e2 size2 t r' :
  0 <= size < 2 ^ 64 ->
  sizeof_Header + kMinStackDepth * sizeof_Activity <= size ->
  slots size <= UINT32_MAX ->
  cookie (hdr r) = 0 ->
  thread_name_last_ok (thread_name (hdr r)) ->
  0 <= size2 < 2 ^ 64 ->
  sizeof_Header + kMinStackDepth * sizeof_Activity <= size2 ->
  slots size2 <= UINT32_MAX ->
  new e (Some r) size = (t, Some r') ->
  exists t2,
    new e2 (Some r') size2 = (t2, Some r') /\
    stack_slots_ t2 = slots size2 /\
    (valid_ t2 = true <-> slots size2 = slots size /\ env_nonzero e).
Proof.
  intros Hsize Hmin Hmax Hcookie Hname Hsize2 Hmin2 Hmax2.
  destruct (accepted_size size Hsize Hmin Hmax) as (Hacc & Hw & _ & _).
  destruct (accepted_size size2 Hsize2 Hmin2 Hmax2) as (Hacc2 & Hw2 & _ & _).
  unfold ThreadActivityTracker_new at 1. cbv zeta.
  fold (slots size). rewrite Hacc, Hcookie, Hw. simpl Z.eqb. cbv iota.
  intros Hnew. injection Hnew as <- <-.
  unfold ThreadActivityTracker_new. cbv zeta.
  fold (slots size2). rewrite Hacc2, Hw2. cbn [hdr cookie].
  assert (Hc : (kHeaderCookie =? 0) = false) by reflexivity.
  rewrite Hc. eexists. split; [reflexivity|]. split; [reflexivity|].
  cbn [valid_].
  pose proof (born_header_valid e (hdr r) (slots size) Hname (stack r)) as Hb.
  cbv zeta in Hb. rewrite <- Hb.
  unfold IsValid. cbv zeta.
  cbn [hdr cookie process_id thread_ref start_time start_ticks stack_slots
       thread_name stack_slots_ valid_].
  rewrite !Z.eqb_refl. simpl negb.
  destruct (Z.eqb_spec (slots size) (slots size2)) as [Heq|Hne]; simpl negb.
  - rewrite !orb_false_r. split; [intros H; split; [congruence|exact H]|tauto].
  - rewrite !orb_true_r. simpl. split; [discriminate|].
    intros [H _]. congruence.
Qed.

(** X7: SizeForStackDepth and the constructor agree.  A block of
    [SizeForStackDepth d] bytes gives a tracker of exactly [d] slots, and a
    fresh block of that size is accepted exactly when
    [kMinStackDepth <= d <= UINT32_MAX]. *)
Theorem X7_SizeForStackDepth_round_trip e r d :
  0 <= d ->
  d * sizeof_Activity + sizeof_Header < 2 ^ 64 ->
  cookie (hdr r) = 0 ->
  slots (SizeForStackDepth sizeof_Header sizeof_Activity d) = d /\
  stack_slots_
    (fst (new e (Some r) (SizeForStackDepth sizeof_Header sizeof_Activity d)))
    = wrap32 d /\
  valid_
    (fst (new e (Some r) (SizeForStackDepth sizeof_Header sizeof_Activity d)))
    = (kMinStackDepth <=? d) && (d <=? UINT32_MAX).
Proof.
  intros Hd Hfit Hcookie.
  assert (Hdd : d < 2 ^ 64) by nia.
  assert (Hsz : SizeForStackDepth sizeof_Header sizeof_Activity d
                = d * sizeof_Activity + sizeof_Header).
  { unfold SizeForStackDepth, wrap_size_t.
    rewrite (Z.mod_small d) by lia. apply Z.mod_small. nia. }
  assert (Hs : slots (SizeForStackDepth sizeof_Header sizeof_Activity d) = d).
  { unfold slots_of_size. rewrite Hsz.
    replace (d * sizeof_Activity + sizeof_Header - sizeof_Header)
      with (d * sizeof_Activity) by lia.
    unfold wrap_size_t. rewrite Z.mod_small by nia.
    apply Z.div_mul. lia. }
  split; [exact Hs|].
  unfold ThreadActivityTracker_new. cbv zeta.
  fold (slots (SizeForStackDepth sizeof_Header sizeof_Activity d)).
  rewrite Hs, Hcookie. simpl Z.eqb. cbv iota. rewrite Hsz.
  unfold kMinStackDepth.
  destruct (Z.ltb_spec (d * sizeof_Activity + sizeof_Header)
              (sizeof_Header + 2 * sizeof_Activity)) as [Hlow|Hlow];
    destruct (Z.ltb_spec UINT32_MAX d) as [Hhi|Hhi]; simpl;
    (split; [reflexivity|]); symmetry.
  - apply andb_false_intro1. apply Z.leb_gt. nia.
  - apply andb_false_intro1. apply Z.leb_gt. nia.
  - apply andb_false_intro2. apply Z.leb_gt. lia.
  - apply andb_true_intro. split; apply Z.leb_le; [nia|lia].
Qed.

(** X8: the first Snapshot of a newborn tracker.  Over a zeroed block of
    accepted size, in an environment whose identity values are non-zero, the
    constructor followed by Snapshot reports success, an empty stack of
    depth 0, the thread handle and process id of the creating thread, and
    the thread's name cut at 31 characters, whatever the output object held
    and whatever the block's records hold. *)
Theorem X8_snapshot_of_newborn e r size o :
  0 <= size < 2 ^ 64 ->
  sizeof_Header + kMinStackDepth * sizeof_Activity <= size ->
  slots size <= UINT32_MAX ->
  hdr r = zero_header ->
  env_nonzero e ->
  exists t r',
    new e (Some r) size = (t, Some r') /\
    Snapshot t r' o
      = Ok (with_hdr (set_stack_unchanged 1) r',
            mkSnapshot [] 0
              (take 31 (take (strlen (env_thread_name e)) (env_thread_name e)))
              (env_thread_handle e) (env_process_id e),
            true).
Proof.
  intros Hsize Hmin Hmax Hz He.
  destruct (accepted_size size Hsize Hmin Hmax) as (Hacc & Hw & _ & H2).
  unfold ThreadActivityTracker_new. cbv zeta.
  fold (slots size). rewrite Hacc, Hw, Hz. simpl Z.eqb. cbv iota.
  eexists _, _. split; [reflexivity|].
  cbn [current_depth stack_unchanged thread_name zero_header].
  rewrite Snapshot_first_attempt.
  - unfold snapshot_of.
    cbn [hdr stack current_depth stack_slots_ thread_name thread_ref process_id].
    rewrite name_round_trip.
    replace (Z.to_nat (Z.min 0 (slots size))) with 0%nat
      by (unfold kMinStackDepth in H2; lia).
    rewrite take_0. reflexivity.
  - apply (born_header_valid e zero_header (slots size)); [reflexivity|exact He].
  - cbn [hdr current_depth stack_slots_].
    replace (Z.to_nat (Z.min 0 (slots size))) with 0%nat
      by (unfold kMinStackDepth in H2; lia).
    lia.
Qed.

End ConstructionProofs.

Lemma X5_birth_witness :
  exists t r',
    ThreadActivityTracker_new 80 48 example_env (Some (zero_region 2)) 176
      = (t, Some r') /\
    stack_slots_ t = 2 /\ IsValid t r' = true.
Proof.
  destruct (X5_birth 80 48 ltac:(lia) ltac:(lia) example_env (zero_region 2) 176)
    as (t & r' & Hnew & _ & Hs & _ & _ & _ & _ & _ & _ & _ & Hv);
    [lia|unfold kMinStackDepth; lia|vm_compute; discriminate|reflexivity
    |reflexivity|].
  exists t, r'. split; [exact Hnew|]. split; [exact Hs|].
  apply Hv. repeat split; discriminate.
Defined.

Lemma X6_adopt_witness :
  exists t r' t2,
    ThreadActivityTracker_new 80 48 example_env (Some (zero_region 2)) 176
      = (t, Some r') /\
    ThreadActivityTracker_new 80 48 other_env (Some r') 200 = (t2, Some r') /\
    valid_ t2 = true.
Proof.
  eexists _, _. 
  destruct (X6_adopt 80 48 ltac:(lia) ltac:(lia) example_env (zero_region 2) 176
              other_env 200 _ _
              ltac:(lia) ltac:(unfold kMinStackDepth; lia)
              ltac:(vm_compute; discriminate) eq_refl eq_refl
              ltac:(lia) ltac:(unfold kMinStackDepth; lia)
              ltac:(vm_compute; discriminate) eq_refl)
    as (t2 & Hnew2 & _ & Hv).
  exists t2. split; [reflexivity|]. split; [exact Hnew2|].
  apply Hv. split; [reflexivity|]. repeat split; discriminate.
Defined.

Lemma X7_SizeForStackDepth_round_trip_witness :
  SizeForStackDepth 80 48 2 = 176 /\
  slots_of_size 80 48 (SizeForStackDepth 80 48 2) = 2 /\
  valid_ (fst (ThreadActivityTracker_new 80 48 example_env
                 (Some (zero_region 1)) (SizeForStackDepth 80 48 1))) = false.
Proof.
  split; [reflexivity|].
  split;
    [exact (proj1 (X7_SizeForStackDepth_round_trip 80 48 ltac:(lia) ltac:(lia)
                     example_env (zero_region 2) 2
                     ltac:(lia) ltac:(lia) eq_refl))|].
  destruct (X7_SizeForStackDepth_round_trip 80 48 ltac:(lia) ltac:(lia)
              example_env (zero_region 1) 1 ltac:(lia) ltac:(lia) eq_refl)
    as (_ & _ & Hv).
  exact Hv.
Defined.

Lemma X8_snapshot_of_newborn_witness :
  exists t r' r2,
    ThreadActivityTracker_new 80 48 example_env (Some (zero_region 2)) 176
      = (t, Some r') /\
    Snapshot t r' (mkSnapshot [zero_activity] 7 [65] 1 2)
      = Ok (r2, mkSnapshot [] 0 [110; 101; 116] 88 77, true).
Proof.
  destruct (X8_snapshot_of_newborn 80 48 ltac:(lia) ltac:(lia)
              example_env (zero_region 2) 176
              (mkSnapshot [zero_activity] 7 [65] 1 2))
    as (t & r' & Hnew & Hsnap);
    [lia|unfold kMinStackDepth; lia|vm_compute; discriminate|reflexivity
    |repeat split; discriminate|].
  exists t, r', (with_hdr (set_stack_unchanged 1) r').
  split; [exact Hnew|exact Hsnap].
Defined.

(** ** Snapshot against any writer: it returns, and what it returns *)

Lemma reader_run_any_returned t regions : forall s b,
  r_pc s = R_return b -> reader_run_any t regions s = Ok s.
Proof.
  induction regions as [|r regions IH]; intros s b Hpc; simpl; [reflexivity|].
  unfold reader_step. rewrite Hpc. simpl. apply (IH s b Hpc).
Qed.

Lemma r_continue_steps n s :
  r_pc s <> R_IsValid ->
  (forall b, r_pc s <> R_return b) ->
  (3 <= steps_in_attempt n s)%nat ->
  (steps_left n (r_continue s) < steps_left n s)%nat.
Proof.
  destruct s as [pc att spid stid dep cnt out]. unfold r_continue, steps_left.
  cbn [r_pc r_attempt]. intros H1 H2 H3.
  unfold kMaxAttempts.
  destruct (Nat.ltb_spec (S att) 10) as [Hlt|Hge].
  - unfold steps_in_attempt at 1. cbn [r_pc].
    replace (10 - 1 - att)%nat with (S (10 - 1 - S att)) by lia.
    rewrite Nat.mul_succ_l.
    generalize ((10 - 1 - S att) * attempt_steps n)%nat. intros m.
    destruct pc; try (exfalso; apply (H2 _ eq_refl)); try congruence; lia.
  - generalize ((10 - 1 - att) * attempt_steps n)%nat. intros m.
    destruct pc; try (exfalso; apply (H2 _ eq_refl)); try congruence; lia.
Qed.

(** One access of the reader: it does not fault, it stays inside its
    bounds, and it has fewer accesses left. *)
Ltac count_steps :=
  unfold steps_left, steps_in_attempt, r_goto, r_with_out;
  cbn [r_pc r_count r_attempt field_index];
  try match goal with
      | |- context [(?a * attempt_steps ?n)%nat] =>
          generalize (a * attempt_steps n)%nat; intro
      end;
  unfold attempt_steps; lia.

Lemma reader_step_progress t r s :
  full_size t r -> copy_in_bounds t s ->
  (forall b, r_pc s <> R_return b) ->
  exists r' s',
    reader_step t r s = Ok (r', s') /\
    copy_in_bounds t s' /\
    (steps_left (Z.to_nat (stack_slots_ t)) s'
       < steps_left (Z.to_nat (stack_slots_ t)) s)%nat.
Proof.
  destruct s as [pc att spid stid dep cnt out].
  unfold full_size, copy_in_bounds, reader_step. cbn [r_pc r_out r_count].
  intros Hfull Hin Hnr.
  set (n := Z.to_nat (stack_slots_ t)) in *.
  destruct pc; try (exfalso; apply (Hnr _ eq_refl)).
  - destruct (negb (IsValid t r)); eexists _, _; (split; [reflexivity|]);
      (split; [exact I|]); count_steps.
  - eexists _, _. split; [reflexivity|]. split; [exact I|].
    count_steps.
  - eexists _, _. split; [reflexivity|]. split; [exact I|].
    count_steps.
  - eexists _, _. split; [reflexivity|]. split; [exact I|].
    count_steps.
  - eexists _, _. split; [reflexivity|].
    set (count := Z.to_nat (Z.min (current_depth (hdr r)) (stack_slots_ t))).
    assert (Hc : (count <= n)%nat) by (unfold count, n; lia).
    destruct (Nat.ltb_spec 0 count) as [Hpos|Hz].
    + split.
      * cbn [r_pc r_count]. split; [exact Hpos|].
        split; cbn [r_out r_count r_depth activity_stack set_activity_stack];
          [apply length_resize|reflexivity].
      * count_steps.
    + split; [exact I|].
      count_steps.
  - destruct Hin as [Hi [Hl Hcnt]]. cbn [r_out r_count r_depth] in Hl, Hcnt.
    assert (Hc : (cnt <= n)%nat) by (rewrite Hcnt; unfold n; lia).
    destruct (lookup_lt_is_Some_2 (stack r) i) as [src Hsrc]; [lia|].
    destruct (lookup_lt_is_Some_2 (activity_stack out) i) as [dst Hdst]; [lia|].
    rewrite Hsrc, Hdst. eexists _, _. split; [reflexivity|].
    assert (Hs : forall pc', sized t
              (mkR pc' att spid stid dep cnt
                 (set_activity_stack
                    (<[i := copy_field f src dst]> (activity_stack out)) out))).
    { intros pc'. split; simpl; [rewrite length_insert; exact Hl|exact Hcnt]. }
    unfold r_goto, r_with_out.
    cbn [r_pc r_attempt starting_process_id starting_thread_id r_depth
         r_count r_out].
    destruct f; cbn [next_field];
      try (split; [split; [exact Hi|apply Hs]|];
           count_steps).
    destruct (Nat.ltb_spec (S i) cnt) as [Hlt|Hge].
    + split; [split; [exact Hlt|apply Hs]|].
      count_steps.
    + split; [exact I|].
      count_steps.
  - destruct (stack_unchanged (hdr r) =? 0); eexists _, _;
      (split; [reflexivity|]).
    + split; [unfold r_continue, r_with_out; cbn [r_pc r_attempt];
              destruct (S att <? kMaxAttempts)%nat; exact I|].
      apply r_continue_steps; [discriminate|discriminate|cbn; lia].
    + split; [exact I|].
      count_steps.
  - eexists _, _. split; [reflexivity|]. split; [exact I|].
    count_steps.
  - eexists _, _. split; [reflexivity|]. split; [exact I|].
    count_steps.
  - cbv zeta.
    match goal with
    | |- context [if ?c then _ else _] => destruct c
    end; eexists _, _; (split; [reflexivity|]).
    + split; [unfold r_continue, r_with_out; cbn [r_pc r_attempt];
              destruct (S att <? kMaxAttempts)%nat; exact I|].
      eapply Nat.lt_le_trans;
        [apply r_continue_steps; [discriminate|discriminate|cbn; lia]|].
      apply Nat.le_refl.
    + split; [exact I|].
      count_steps.
  - destruct (negb (IsValid t r)); eexists _, _; (split; [reflexivity|]);
      (split; [exact I|]); count_steps.
  - eexists _, _. split; [reflexivity|]. split; [exact I|].
    count_steps.
Qed.

Lemma steps_left_0 n s :
  (steps_left n s <= 0)%nat -> exists b, r_pc s = R_return b.
Proof.
  destruct s as [pc att spid stid dep cnt out].
  unfold steps_left, steps_in_attempt. cbn [r_pc r_count r_attempt].
  generalize ((kMaxAttempts - 1 - att) * attempt_steps n)%nat. intros m.
  unfold attempt_steps.
  destruct pc; intros H; try (exfalso; lia). eexists; reflexivity.
Qed.

Lemma reader_run_any_progress t regions : forall s,
  Forall (full_size t) regions ->
  copy_in_bounds t s ->
  exists s',
    reader_run_any t regions s = Ok s' /\
    ((steps_left (Z.to_nat (stack_slots_ t)) s <= length regions)%nat ->
     exists b, r_pc s' = R_return b).
Proof.
  induction regions as [|r regions IH]; intros s Hfull Hin.
  - exists s. split; [reflexivity|]. apply steps_left_0.
  - inversion Hfull as [|? ? Hr Hrest]; subst.
    destruct (r_pc s) eqn:Hpc.
    13: { exists s. split; [apply (reader_run_any_returned _ _ _ _ Hpc)|].
          intros _. rewrite Hpc. eexists; reflexivity. }
    all: destruct (reader_step_progress t r s Hr Hin)
           as (r' & s1 & Hstep & Hin1 & Hlt);
         [intros b'; rewrite Hpc; discriminate|];
         destruct (IH s1 Hrest Hin1) as (s' & Hrun & Hret);
         exists s'; simpl; rewrite Hstep; simpl;
         (split; [exact Hrun|]); intros Hle; apply Hret; simpl in Hle; lia.
Qed.

(** X10: Snapshot is wait-free and stays inside the block.  Whatever the
    other threads write between any two of its accesses, as long as the
    block keeps the records it was sized for, the reader never reads or
    writes out of bounds, and after at most
    [1 + kMaxAttempts * (5 * stack_slots_ + 10)] accesses it has returned. *)
Theorem X10_Snapshot_returns t o regions :
  Forall (full_size t) regions ->
  exists s,
    reader_run_any t regions (reader_init o) = Ok s /\
    ((Snapshot_step_bound t <= length regions)%nat ->
     exists b, r_pc s = R_return b).
Proof.
  intros Hfull.
  destruct (reader_run_any_progress t regions (reader_init o) Hfull I)
    as (s & Hrun & Hret).
  exists s. split; [exact Hrun|]. intros Hle. apply Hret.
  unfold Snapshot_step_bound in Hle.
  unfold steps_left, steps_in_attempt, reader_init. cbn [r_pc r_attempt].
  unfold kMaxAttempts in *. lia.
Qed.

Lemma X10_Snapshot_returns_witness :
  exists s,
    reader_run_any two_slots (replicate 201 c9_region)
      (reader_init empty_snapshot) = Ok s /\
    exists b, r_pc s = R_return b.
Proof.
  destruct (X10_Snapshot_returns two_slots empty_snapshot
              (replicate 201 c9_region)) as (s & Hrun & Hret).
  - apply Forall_replicate. unfold full_size. apply Nat.leb_le. reflexivity.
  - exists s. split; [exact Hrun|]. apply Hret.
    apply Nat.leb_le. vm_compute. reflexivity.
Defined.

Lemma result_inv_reader_step t o r s r' s' :
  out_inv t o s -> result_inv s ->
  reader_step t r s = Ok (r', s') -> result_inv s'.
Proof.
  destruct s as [pc att spid stid dep cnt out].
  unfold reader_step, result_inv, out_inv.
  cbn [r_pc r_out r_depth starting_process_id starting_thread_id].
  intros Hout Hinv Hstep.
  destruct pc.
  - destruct (negb (IsValid t r)); injection Hstep as <- <-; exact I.
  - injection Hstep as <- <-. exact I.
  - injection Hstep as <- <-. exact I.
  - injection Hstep as <- <-. exact I.
  - injection Hstep as <- <-. cbn [r_pc]. destruct (0 <? _)%nat; exact I.
  - destruct (stack r !! i); [|discriminate].
    destruct (activity_stack out !! i); [|discriminate].
    injection Hstep as <- <-. unfold r_goto, r_with_out. cbn [r_pc].
    destruct (next_field f); [exact I|].
    destruct (S i <? _)%nat; exact I.
  - destruct (stack_unchanged (hdr r) =? 0); injection Hstep as <- <-.
    + unfold r_continue. cbn [r_pc r_attempt].
      destruct (S att <? kMaxAttempts)%nat; exact I.
    + reflexivity.
  - injection Hstep as <- <-. simpl. split; [exact Hinv|].
    rewrite length_take. lia.
  - injection Hstep as <- <-. simpl. exact Hinv.
  - cbv zeta in Hstep.
    cbn [snap_process_id snap_thread_id set_snap_process_id
         set_snap_thread_name snap_thread_name] in Hstep.
    destruct (Z.eqb_spec (process_id (hdr r)) spid) as [Hp|Hp];
      destruct (Z.eqb_spec (snap_thread_id out) stid) as [Ht|Ht];
      simpl in Hstep; injection Hstep as <- <-;
      try (unfold r_continue, r_with_out; cbn [r_pc r_attempt];
           destruct (S att <? kMaxAttempts)%nat; exact I).
    simpl. destruct Hinv as [Hd Hn].
    split; [exact Hd|]. split; [|split; [exact Hp|exact Ht]].
    split; [rewrite length_take; lia|apply strlen_prefix_nonzero].
  - destruct (negb (IsValid t r)); injection Hstep as <- <-; simpl;
      [exact I|exact Hinv].
  - injection Hstep as <- <-. simpl. exact Hinv.
  - injection Hstep as <- <-. exact Hinv.
Qed.

Lemma result_inv_reader_run_any t o regions : forall s s',
  out_inv t o s -> result_inv s ->
  reader_run_any t regions s = Ok s' ->
  out_inv t o s' /\ result_inv s'.
Proof.
  induction regions as [|r regions IH]; intros s s' Hout Hinv Hrun;
    simpl in Hrun.
  - injection Hrun as <-. auto.
  - destruct (reader_step t r s) as [[r' s1]|] eqn:E; [|discriminate].
    simpl in Hrun. apply (IH s1 s'); [| |exact Hrun].
    + eapply out_inv_reader_step; eassumption.
    + eapply result_inv_reader_step; eassumption.
Qed.

(** X9: the shape of a successful Snapshot.  Whatever the other threads
    write while it runs, when Snapshot returns true its stack has exactly
    [min(activity_stack_depth, stack_slots_)] entries (so the reported depth
    can exceed the number of entries, never fall below it), the thread name
    has at most 31 characters and no NUL, and the process and thread ids
    are those read at the start of the attempt. *)
Theorem X9_successful_Snapshot_shape t o regions s :
  reader_run_any t regions (reader_init o) = Ok s ->
  r_pc s = R_return true ->
  result_shape t s.
Proof.
  intros Hrun Hpc.
  destruct (result_inv_reader_run_any t o regions (reader_init o) s)
    as [Hout Hinv]; [reflexivity|exact I|exact Hrun|].
  unfold out_inv in Hout. unfold result_inv in Hinv. rewrite Hpc in Hout, Hinv.
  destruct Hout as [Hl Hc]. destruct Hinv as (Hd & Hn & Hp & Ht).
  unfold result_shape. cbv zeta. rewrite Hd.
  split; [congruence|]. auto.
Qed.

Lemma X9_successful_Snapshot_shape_witness :
  exists s,
    reader_run_any two_slots (replicate 16 c9_region)
      (reader_init empty_snapshot) = Ok s /\
    r_pc s = R_return true /\
    result_shape two_slots s.
Proof.
  eexists. split; [vm_compute; reflexivity|]. split; [reflexivity|].
  apply (X9_successful_Snapshot_shape two_slots empty_snapshot
           (replicate 16 c9_region)); [vm_compute; reflexivity|reflexivity].
Defined.

(** ** The free list of memory blocks *)

Lemma ChangeType_tag ref to from g :
  ChangeType ref to from g
    = set_alloc_types (change_tag ref to from (alloc_types g)) g.
Proof.
  unfold ChangeType, change_tag.
  destruct (alloc_types g !! ref) as [ty|]; [destruct (TypeId_eqb ty from)|];
    destruct g; reflexivity.
Qed.

Lemma list_phase_P_loop_head c : list_phase (P_loop_head c).
Proof. unfold P_loop_head. destruct (0 <? c); exact I. Qed.

Section FreeListCalls.

Variable kMaxThreadCount : Z.
Variable stack_depth : nat.

Local Abbreviation step := (global_step kMaxThreadCount stack_depth).
Local Abbreviation solo := (solo_run kMaxThreadCount stack_depth).
Local Abbreviation run := (threads_run kMaxThreadCount stack_depth).

(** The first three statements of [ReturnTrackerMemory] on a block of the
    allocator. *)
Lemma return_prologue g ref base r :
  blocks g !! base = Some r -> ref <> 0 ->
  solo 3 (ReturnTrackerMemory_start ref base) g
    = Ok (mkGlobal (available_memories_ g) (available_memories_count_ g)
            (thread_tracker_count_ g - 1)
            (change_tag ref kTypeIdActivityTrackerFree kTypeIdActivityTracker
               (alloc_types g))
            (<[base := memset_zero stack_depth r]> (blocks g)),
          U_load_count ref).
Proof.
  intros Hr Hne. cbn [solo_run ReturnTrackerMemory_start global_step].
  rewrite Hr. cbn [rbind fst snd solo_run global_step].
  destruct (Z.eqb_spec ref 0) as [?|_]; [contradiction|].
  cbn [rbind fst snd solo_run global_step]. rewrite ChangeType_tag.
  reflexivity.
Qed.

(** A push that nobody disturbs. *)
Lemma push_solo g ref :
  0 <= available_memories_count_ g < kMaxThreadCount ->
  available_memories_ g !! Z.to_nat (available_memories_count_ g) = Some 0 ->
  solo 3 (U_load_count ref) g
    = Ok (mkGlobal
            (<[Z.to_nat (available_memories_count_ g) := ref]>
               (available_memories_ g))
            (available_memories_count_ g + 1) (thread_tracker_count_ g)
            (alloc_types g) (blocks g),
          U_pushed ref).
Proof.
  intros Hc Hslot. cbn [solo_run global_step].
  destruct (Z.leb_spec kMaxThreadCount (available_memories_count_ g)); [lia|].
  cbn [rbind fst snd solo_run global_step].
  unfold load_slot, store_slot_ref.
  destruct (Z.ltb_spec (available_memories_count_ g) 0); [lia|].
  rewrite Hslot. cbn [rbind fst snd]. rewrite Z.eqb_refl.
  cbn [rbind fst snd solo_run global_step available_memories_count_
       set_available_memories_].
  rewrite Z.eqb_refl. reflexivity.
Qed.

(** A pop that nobody disturbs. *)
Lemma pop_solo g ref :
  0 < available_memories_count_ g ->
  available_memories_ g !! Z.to_nat (available_memories_count_ g - 1)
    = Some ref ->
  ref <> 0 ->
  solo 4 P_load_count g
    = Ok (mkGlobal
            (<[Z.to_nat (available_memories_count_ g - 1) := 0]>
               (available_memories_ g))
            (available_memories_count_ g - 1) (thread_tracker_count_ g)
            (change_tag ref kTypeIdActivityTracker kTypeIdActivityTrackerFree
               (alloc_types g))
            (blocks g),
          P_took ref).
Proof.
  intros Hc Hslot Hne. cbn [solo_run global_step]. unfold P_loop_head.
  destruct (Z.ltb_spec 0 (available_memories_count_ g)); [|lia].
  cbn [rbind fst snd solo_run global_step].
  unfold load_slot, store_slot_ref.
  destruct (Z.ltb_spec (available_memories_count_ g - 1) 0); [lia|].
  rewrite Hslot. cbn [rbind fst snd].
  destruct (Z.eqb_spec ref 0) as [?|_]; [contradiction|].
  cbn [rbind fst snd solo_run global_step available_memories_count_
       set_available_memories_].
  rewrite Z.eqb_refl.
  cbn [rbind fst snd solo_run global_step]. rewrite ChangeType_tag.
  reflexivity.
Qed.

(** X11: a block returned and taken again.  When a thread exits and,
    with no other call in between, a thread is born, the new thread gets
    the very block that was returned, and the free list, its count and the
    type tags are exactly as before the two calls; the block itself has
    been zeroed and the count of live trackers is one less (the birth adds
    its one after the constructor). *)
Theorem X11_return_then_create g ref base r :
  blocks g !! base = Some r ->
  ref <> 0 ->
  alloc_types g !! ref = Some kTypeIdActivityTracker ->
  0 <= available_memories_count_ g < kMaxThreadCount ->
  available_memories_ g !! Z.to_nat (available_memories_count_ g) = Some 0 ->
  exists g1,
    solo 6 (ReturnTrackerMemory_start ref base) g = Ok (g1, U_pushed ref) /\
    available_memories_count_ g1 = available_memories_count_ g + 1 /\
    alloc_types g1 !! ref = Some kTypeIdActivityTrackerFree /\
    solo 4 P_load_count g1
      = Ok (mkGlobal (available_memories_ g) (available_memories_count_ g)
              (thread_tracker_count_ g - 1) (alloc_types g)
              (<[base := memset_zero stack_depth r]> (blocks g)),
            P_took ref).
Proof.
  intros Hr Hne Hty Hc Hslot.
  rewrite (solo_split _ _ 3 3), (return_prologue _ _ _ _ Hr Hne).
  cbn [rbind fst snd]. rewrite push_solo by assumption.
  cbn [available_memories_ available_memories_count_ thread_tracker_count_
       alloc_types blocks].
  eexists. split; [reflexivity|].
  cbn [available_memories_ available_memories_count_ thread_tracker_count_
       alloc_types blocks].
  pose proof (lookup_lt_Some _ _ _ Hslot) as Hlen.
  assert (Htag : change_tag ref kTypeIdActivityTrackerFree
                   kTypeIdActivityTracker (alloc_types g)
                 = <[ref := kTypeIdActivityTrackerFree]> (alloc_types g)).
  { unfold change_tag. rewrite Hty. reflexivity. }
  split; [reflexivity|]. split; [rewrite Htag; apply lookup_insert_eq|].
  rewrite (pop_solo _ ref); cbn [available_memories_ available_memories_count_
       thread_tracker_count_ alloc_types blocks].
  - replace (available_memories_count_ g + 1 - 1)
      with (available_memories_count_ g) by lia.
    rewrite list_insert_insert_eq, (list_insert_id _ _ _ Hslot).
    rewrite Htag. unfold change_tag. rewrite lookup_insert_eq.
    cbn [TypeId_eqb]. rewrite insert_insert_eq, (insert_id _ _ _ Hty).
    reflexivity.
  - lia.
  - replace (available_memories_count_ g + 1 - 1)
      with (available_memories_count_ g) by lia.
    apply list_lookup_insert_eq. exact Hlen.
  - exact Hne.
Qed.

(** X12: the list is full.  With [kMaxThreadCount] references on the
    list, ReturnTrackerMemory zeroes the block, marks it free and gives up:
    the list and its count are untouched, so no later call will ever find
    the block again. *)
Theorem X12_full_list_forgets_block g ref base r :
  blocks g !! base = Some r ->
  ref <> 0 ->
  kMaxThreadCount <= available_memories_count_ g ->
  solo 4 (ReturnTrackerMemory_start ref base) g
    = Ok (mkGlobal (available_memories_ g) (available_memories_count_ g)
            (thread_tracker_count_ g - 1)
            (change_tag ref kTypeIdActivityTrackerFree kTypeIdActivityTracker
               (alloc_types g))
            (<[base := memset_zero stack_depth r]> (blocks g)),
          U_abandoned ref) /\
  forall n,
    solo (4 + n) (ReturnTrackerMemory_start ref base) g
      = solo 4 (ReturnTrackerMemory_start ref base) g.
Proof.
  intros Hr Hne Hfull.
  assert (H4 : solo 4 (ReturnTrackerMemory_start ref base) g
    = Ok (mkGlobal (available_memories_ g) (available_memories_count_ g)
            (thread_tracker_count_ g - 1)
            (change_tag ref kTypeIdActivityTrackerFree kTypeIdActivityTracker
               (alloc_types g))
            (<[base := memset_zero stack_depth r]> (blocks g)),
          U_abandoned ref)).
  { rewrite (solo_split _ _ 3 1), (return_prologue _ _ _ _ Hr Hne).
    cbn [rbind fst snd solo_run]. rewrite full_list_abandons by exact Hfull.
    reflexivity. }
  split; [exact H4|]. intros n. rewrite (solo_split _ _ 4 n), H4.
  cbn [rbind fst snd]. induction n as [|n IH]; [reflexivity|].
  cbn [solo_run global_step rbind fst snd]. exact IH.
Qed.

(** One access of a call in its list phase: it is inside the array. *)
Lemma global_step_total pc g :
  free_list_ok kMaxThreadCount g -> pc_count_ok kMaxThreadCount pc ->
  list_phase pc ->
  exists g' pc', step pc g = Ok (g', pc') /\ list_phase pc'.
Proof.
  intros Hg Hpc Hph.
  destruct pc; cbn [list_phase pc_count_ok] in *; try contradiction;
    cbn [global_step].
  - destruct (Z.eqb_spec mem_reference 0); [contradiction|].
    eexists _, _. split; [reflexivity|exact I].
  - eexists _, _. split; [reflexivity|exact I].
  - destruct (kMaxThreadCount <=? _); eexists _, _; (split; [reflexivity|exact I]).
  - destruct (load_slot_in_range _ count g Hg Hpc) as [v ->].
    cbn [rbind]. destruct (v =? 0).
    + destruct (store_slot_ref_in_range _ count mem_reference g Hg Hpc)
        as (g' & -> & _).
      eexists _, _. split; [reflexivity|exact I].
    + eexists _, _. split; [reflexivity|exact I].
  - destruct (_ =? _); eexists _, _; (split; [reflexivity|exact I]).
  - destruct (store_slot_ref_in_range _ count 0 g Hg Hpc) as (g' & -> & _).
    eexists _, _. split; [reflexivity|exact I].
  - eexists _, _. split; [reflexivity|exact I].
  - eexists _, _. split; [reflexivity|exact I].
  - eexists _, _. split; [reflexivity|exact I].
  - eexists _, _. split; [reflexivity|apply list_phase_P_loop_head].
  - assert (Hi : 0 <= count - 1 < kMaxThreadCount) by lia.
    destruct (load_slot_in_range _ (count - 1) g Hg Hi) as [v ->].
    destruct (store_slot_ref_in_range _ (count - 1) 0 g Hg Hi) as (g' & -> & _).
    cbn [rbind]. destruct (v =? 0); eexists _, _; (split; [reflexivity|exact I]).
  - destruct (_ =? _); eexists _, _; (split; [reflexivity|exact I]).
  - assert (Hi : 0 <= count - 1 < kMaxThreadCount) by lia.
    destruct (store_slot_ref_in_range _ (count - 1) mem_reference g Hg Hi)
      as (g' & -> & _).
    eexists _, _. split; [reflexivity|apply list_phase_P_loop_head].
  - eexists _, _. split; [reflexivity|exact I].
  - eexists _, _. split; [reflexivity|exact I].
  - eexists _, _. split; [reflexivity|exact I].
Qed.

(** X13: the free list is never indexed out of bounds.  Any number of
    threads, each anywhere in the loop of CreateTrackerForCurrentThread or
    in ReturnTrackerMemory after its memset, in any interleaving: no access
    to [available_memories_] leaves the array, the count stays within
    [0, kMaxThreadCount], and every thread stays in these loops or at
    their exits. *)
Theorem X13_free_list_in_bounds sched : forall g th,
  free_list_ok kMaxThreadCount g ->
  Forall (pc_count_ok kMaxThreadCount) th ->
  Forall list_phase th ->
  exists g' th',
    run sched (g, th) = Ok (g', th') /\
    free_list_ok kMaxThreadCount g' /\
    Forall (pc_count_ok kMaxThreadCount) th' /\
    Forall list_phase th' /\
    length th' = length th.
Proof.
  induction sched as [|i sched IH]; intros g th Hg Hpc Hph.
  - exists g, th. auto.
  - cbn [threads_run]. unfold threads_step. cbn [fst snd].
    destruct (th !! i) as [pc|] eqn:Hi.
    + pose proof (proj1 (Forall_lookup _ _) Hpc _ _ Hi) as Hpci.
      pose proof (proj1 (Forall_lookup _ _) Hph _ _ Hi) as Hphi.
      destruct (global_step_total pc g Hg Hpci Hphi) as (g1 & pc1 & Hstep & Hph1).
      destruct (global_step_ok _ _ _ _ _ _ Hg Hpci Hstep) as [Hg1 Hpc1].
      rewrite Hstep. cbn [rbind fst snd].
      destruct (IH g1 (<[i := pc1]> th) Hg1)
        as (g' & th' & Hrun & Hg' & Hpc' & Hph' & Hlen).
      * apply Forall_insert; assumption.
      * apply Forall_insert; assumption.
      * exists g', th'. rewrite length_insert in Hlen. auto.
    + cbn [rbind]. apply IH; assumption.
Qed.

(** A call that finds a reference in the slot at the count goes round its
    loop and changes nothing. *)
Lemma spin_round g ref v n :
  0 <= available_memories_count_ g < kMaxThreadCount ->
  available_memories_ g !! Z.to_nat (available_memories_count_ g) = Some v ->
  v <> 0 ->
  solo n (U_load_count ref) g
    = Ok (g, if Nat.even n then U_load_count ref
             else U_slot_cas ref (available_memories_count_ g)).
Proof.
  intros Hc Hslot Hv.
  assert (H1 : step (U_load_count ref) g
               = Ok (g, U_slot_cas ref (available_memories_count_ g))).
  { cbn [global_step].
    destruct (Z.leb_spec kMaxThreadCount (available_memories_count_ g)); [lia|].
    reflexivity. }
  assert (H2 : step (U_slot_cas ref (available_memories_count_ g)) g
               = Ok (g, U_load_count ref)).
  { cbn [global_step]. unfold load_slot.
    destruct (Z.ltb_spec (available_memories_count_ g) 0); [lia|].
    rewrite Hslot. cbn [rbind].
    destruct (Z.eqb_spec v 0); [contradiction|reflexivity]. }
  assert (Hboth : solo n (U_load_count ref) g
                    = Ok (g, if Nat.even n then U_load_count ref
                             else U_slot_cas ref (available_memories_count_ g))
                  /\ solo n (U_slot_cas ref (available_memories_count_ g)) g
                    = Ok (g, if Nat.even n
                             then U_slot_cas ref (available_memories_count_ g)
                             else U_load_count ref)).
  { induction n as [|n [IH1 IH2]]; [split; reflexivity|].
    split; cbn [solo_run]; [rewrite H1|rewrite H2]; cbn [rbind fst snd];
      [rewrite IH2|rewrite IH1]; rewrite Nat.even_succ, <- Nat.negb_even;
      destruct (Nat.even n); reflexivity. }
  exact (proj1 Hboth).
Qed.

(** X14: ReturnTrackerMemory can spin for ever.  If the slot at the
    count holds a reference, the call can neither push nor give up: as
    long as no other thread changes the count it repeats the same two
    accesses, changes nothing and never returns.  The example
    [stale_schedule] takes a well-formed free list to such a state: a birth
    that read the count early puts back, above a count that has meanwhile
    dropped, the reference it had taken out. *)
Theorem X14_return_spins_on_stale_slot g ref base r v n :
  blocks g !! base = Some r ->
  ref <> 0 ->
  0 <= available_memories_count_ g < kMaxThreadCount ->
  available_memories_ g !! Z.to_nat (available_memories_count_ g) = Some v ->
  v <> 0 ->
  exists g' pc',
    solo n (ReturnTrackerMemory_start ref base) g = Ok (g', pc') /\
    returned pc' = false /\
    available_memories_ g' = available_memories_ g /\
    available_memories_count_ g' = available_memories_count_ g.
Proof.
  intros Hr Hne Hc Hslot Hv.
  destruct (Nat.le_gt_cases 3 n) as [Hn|Hn].
  - replace n with (3 + (n - 3))%nat by lia.
    rewrite (solo_split _ _ 3 (n - 3)), (return_prologue _ _ _ _ Hr Hne).
    cbn [rbind fst snd].
    rewrite (spin_round _ ref v) by assumption.
    eexists _, _. split; [reflexivity|].
    split; [destruct (Nat.even (n - 3)); reflexivity|]. split; reflexivity.
  - pose proof (return_prologue _ _ _ _ Hr Hne) as H3.
    cbn [solo_run ReturnTrackerMemory_start global_step] in H3.
    rewrite Hr in H3. cbn [rbind fst snd solo_run global_step] in H3.
    destruct (Z.eqb_spec ref 0) as [?|_]; [contradiction|].
    destruct n as [|[|[|n]]]; [| | |lia];
      cbn [solo_run ReturnTrackerMemory_start global_step];
      rewrite ?Hr; cbn [rbind fst snd solo_run global_step].
    + eexists _, _. split; [reflexivity|]. repeat split.
    + eexists _, _. split; [reflexivity|]. repeat split.
    + destruct (Z.eqb_spec ref 0) as [?|_]; [contradiction|].
      eexists _, _. split; [reflexivity|]. repeat split.
Qed.

End FreeListCalls.

Lemma X11_return_then_create_witness :
  exists g1,
    solo_run 4 2 6 (ReturnTrackerMemory_start 32 1032) example_global
      = Ok (g1, U_pushed 32) /\
    available_memories_ g1 = [16; 32; 0; 0] /\
    solo_run 4 2 4 P_load_count g1
      = Ok (mkGlobal [16; 0; 0; 0] 1 1 (alloc_types example_global)
              (<[1032 := memset_zero 2 c9_region]> (blocks example_global)),
            P_took 32).
Proof.
  destruct (X11_return_then_create 4 2 example_global 32 1032 c9_region)
    as (g1 & Hret & _ & _ & Hpop);
    [reflexivity|discriminate|reflexivity|simpl; lia|reflexivity|].
  exists g1. split; [exact Hret|]. split; [|exact Hpop].
  vm_compute in Hret. injection Hret as <-. reflexivity.
Defined.

Lemma X12_full_list_forgets_block_witness :
  exists g',
    solo_run 1 2 4 (ReturnTrackerMemory_start 32 1032) example_global
      = Ok (g', U_abandoned 32) /\
    available_memories_ g' = [16; 0; 0; 0] /\
    available_memories_count_ g' = 1.
Proof.
  eexists. split.
  - exact (proj1 (X12_full_list_forgets_block 1 2 example_global 32 1032
                    c9_region eq_refl ltac:(discriminate) ltac:(simpl; lia))).
  - split; reflexivity.
Defined.

Lemma X13_free_list_in_bounds_witness :
  exists g' th',
    threads_run 4 2 [0; 1; 0; 1; 1; 0; 0; 1; 1; 0]%nat
      (example_global, [P_load_count; U_load_count 48]) = Ok (g', th') /\
    0 <= available_memories_count_ g' <= 4.
Proof.
  destruct (X13_free_list_in_bounds 4 2 [0; 1; 0; 1; 1; 0; 0; 1; 1; 0]%nat
              example_global [P_load_count; U_load_count 48])
    as (g' & th' & Hrun & [Hc _] & _).
  - split; [simpl; lia|reflexivity].
  - repeat constructor.
  - repeat constructor.
  - exists g', th'. split; [exact Hrun|exact Hc].
Defined.

Lemma X14_return_spins_on_stale_slot_witness :
  threads_run 4 2 stale_schedule (stale_start, stale_threads)
    = Ok (stale_global,
          [P_took 48; P_took 32; U_pushed 48; P_took 16; U_pushed 32]) /\
  exists g' pc',
    solo_run 4 2 1000 (ReturnTrackerMemory_start 16 1016) stale_global
      = Ok (g', pc') /\
    returned pc' = false.
Proof.
  split; [vm_compute; reflexivity|].
  destruct (X14_return_spins_on_stale_slot 4 2 stale_global 16 1016
              (memset_zero 2 c8_region) 48 1000)
    as (g' & pc' & Hrun & Hret & _);
    [reflexivity|discriminate|simpl; lia|reflexivity|discriminate|].
  exists g', pc'. split; [exact Hrun|exact Hret].
Defined.

(** ** The free list when calls do not overlap *)

Lemma clean_free_list_new kMaxThreadCount types mem :
  0 <= kMaxThreadCount ->
  clean_free_list kMaxThreadCount
    (GlobalActivityTracker_new kMaxThreadCount types mem).
Proof.
  intros Hk. unfold clean_free_list, free_list_ok, free_refs,
    GlobalActivityTracker_new.
  cbn [available_memories_ available_memories_count_].
  split; [split; [lia|apply length_replicate]|].
  split; [rewrite take_0; constructor|].
  rewrite drop_0. apply Forall_replicate. reflexivity.
Qed.

Section FreeListSequential.

Variable kMaxThreadCount : Z.
Variable stack_depth : nat.

Local Abbreviation solo := (solo_run kMaxThreadCount stack_depth).

Lemma clean_slot_at_count g :
  clean_free_list kMaxThreadCount g ->
  available_memories_count_ g < kMaxThreadCount ->
  available_memories_ g !! Z.to_nat (available_memories_count_ g) = Some 0.
Proof.
  intros ([Hc Hlen] & _ & Hz) Hlt.
  destruct (lookup_lt_is_Some_2 (available_memories_ g)
              (Z.to_nat (available_memories_count_ g))) as [v Hv]; [lia|].
  rewrite Hv. f_equal.
  apply (proj1 (Forall_lookup _ _) Hz 0%nat).
  rewrite lookup_drop, Nat.add_0_r. exact Hv.
Qed.

Lemma clean_push g ref ttc types mem :
  clean_free_list kMaxThreadCount g ->
  available_memories_count_ g < kMaxThreadCount ->
  ref <> 0 ->
  let g1 := mkGlobal
              (<[Z.to_nat (available_memories_count_ g) := ref]>
                 (available_memories_ g))
              (available_memories_count_ g + 1) ttc types mem in
  clean_free_list kMaxThreadCount g1 /\ free_refs g1 = free_refs g ++ [ref].
Proof.
  intros Hclean Hlt Hne g1.
  pose proof (clean_slot_at_count g Hclean Hlt) as Hslot.
  destruct Hclean as ([Hc Hlen] & Hnz & Hz).
  pose proof (lookup_lt_Some _ _ _ Hslot) as Hin.
  assert (Hrefs : free_refs g1 = free_refs g ++ [ref]).
  { unfold free_refs, g1. cbn [available_memories_ available_memories_count_].
    replace (Z.to_nat (available_memories_count_ g + 1))
      with (S (Z.to_nat (available_memories_count_ g))) by lia.
    rewrite (take_S_r _ _ ref) by (apply list_lookup_insert_eq; exact Hin).
    rewrite take_insert_ge by apply Nat.le_refl. reflexivity. }
  split; [|exact Hrefs].
  split; [|split].
  - unfold free_list_ok, g1.
    cbn [available_memories_ available_memories_count_].
    rewrite length_insert. split; [lia|exact Hlen].
  - rewrite Hrefs. apply Forall_app. split; [exact Hnz|].
    constructor; [exact Hne|constructor].
  - unfold g1. cbn [available_memories_ available_memories_count_].
    replace (Z.to_nat (available_memories_count_ g + 1))
      with (S (Z.to_nat (available_memories_count_ g))) by lia.
    rewrite drop_insert_lt by lia.
    replace (S (Z.to_nat (available_memories_count_ g)))
      with (Z.to_nat (available_memories_count_ g) + 1)%nat by lia.
    rewrite <- drop_drop. apply Forall_drop. exact Hz.
Qed.

Lemma clean_top g l ref :
  clean_free_list kMaxThreadCount g ->
  free_refs g = l ++ [ref] ->
  0 < available_memories_count_ g /\
  Z.to_nat (available_memories_count_ g - 1) = length l /\
  available_memories_ g !! length l = Some ref /\
  ref <> 0.
Proof.
  intros ([Hc Hlen] & Hnz & Hz) Hrefs.
  assert (Hl : length (free_refs g) = S (length l)).
  { rewrite Hrefs, length_app. simpl. lia. }
  unfold free_refs in Hl. rewrite length_take in Hl.
  assert (Hlook : free_refs g !! length l = Some ref).
  { rewrite Hrefs. rewrite lookup_app_r by apply Nat.le_refl.
    rewrite Nat.sub_diag. reflexivity. }
  unfold free_refs in Hlook. rewrite lookup_take_lt in Hlook by lia.
  split; [lia|]. split; [lia|]. split; [exact Hlook|].
  rewrite Hrefs in Hnz. apply Forall_app in Hnz as [_ Hnz].
  inversion Hnz; assumption.
Qed.

Lemma clean_pop g l ref ttc types mem :
  clean_free_list kMaxThreadCount g ->
  free_refs g = l ++ [ref] ->
  let g2 := mkGlobal
              (<[Z.to_nat (available_memories_count_ g - 1) := 0]>
                 (available_memories_ g))
              (available_memories_count_ g - 1) ttc types mem in
  clean_free_list kMaxThreadCount g2 /\ free_refs g2 = l.
Proof.
  intros Hclean Hrefs g2.
  destruct (clean_top g l ref Hclean Hrefs) as (Hpos & Hidx & Htop & Hne).
  destruct Hclean as ([Hc Hlen] & Hnz & Hz).
  pose proof (lookup_lt_Some _ _ _ Htop) as Hin.
  assert (Hrefs2 : free_refs g2 = l).
  { unfold free_refs, g2. cbn [available_memories_ available_memories_count_].
    rewrite Hidx, take_insert_ge by apply Nat.le_refl.
    assert (Ht : take (length l) (free_refs g) = l).
    { rewrite Hrefs. rewrite take_app_length. reflexivity. }
    unfold free_refs in Ht. rewrite take_take in Ht.
    replace (length l `min` Z.to_nat (available_memories_count_ g))%nat
      with (length l) in Ht by lia.
    exact Ht. }
  split; [|exact Hrefs2].
  split; [|split].
  - unfold free_list_ok, g2.
    cbn [available_memories_ available_memories_count_].
    rewrite length_insert. split; [lia|exact Hlen].
  - rewrite Hrefs2. rewrite Hrefs in Hnz.
    apply Forall_app in Hnz as [Hnz _]. exact Hnz.
  - unfold g2. cbn [available_memories_ available_memories_count_].
    rewrite Hidx.
    rewrite (drop_S _ 0 (length l)) by (apply list_lookup_insert_eq; exact Hin).
    constructor; [reflexivity|].
    rewrite drop_insert_lt by lia.
    replace (S (length l)) with (Z.to_nat (available_memories_count_ g)) by lia.
    exact Hz.
Qed.

(** X15: with calls that do not overlap, the free list is a stack.
    Starting from a clean list (references below the count, zeros from the
    count on, as the constructor of GlobalActivityTracker leaves it): a
    ReturnTrackerMemory of an allocator block appends its reference, a
    CreateTrackerForCurrentThread takes the reference returned last, and on
    an empty list it goes on to allocate; each leaves the list clean. *)
Theorem X15_free_list_is_a_stack g :
  clean_free_list kMaxThreadCount g ->
  (forall ref base r,
     blocks g !! base = Some r -> ref <> 0 ->
     available_memories_count_ g < kMaxThreadCount ->
     exists g1,
       solo 6 (ReturnTrackerMemory_start ref base) g = Ok (g1, U_pushed ref) /\
       clean_free_list kMaxThreadCount g1 /\
       free_refs g1 = free_refs g ++ [ref]) /\
  (forall l ref,
     free_refs g = l ++ [ref] ->
     exists g2,
       solo 4 P_load_count g = Ok (g2, P_took ref) /\
       clean_free_list kMaxThreadCount g2 /\
       free_refs g2 = l /\
       blocks g2 = blocks g) /\
  (free_refs g = [] -> solo 1 P_load_count g = Ok (g, P_allocate_new)).
Proof.
  intros Hclean. split; [|split].
  - intros ref base r Hr Hne Hlt.
    pose proof (clean_slot_at_count g Hclean Hlt) as Hslot.
    assert (Hc : 0 <= available_memories_count_ g)
      by (destruct Hclean as ([[? ?] ?] & _); assumption).
    rewrite (solo_split _ _ 3 3), (return_prologue _ _ _ _ _ _ Hr Hne).
    cbn [rbind fst snd]. rewrite push_solo by (simpl; auto with lia).
    cbn [available_memories_ available_memories_count_ thread_tracker_count_
         alloc_types blocks].
    eexists. split; [reflexivity|].
    apply clean_push; assumption.
  - intros l ref Hrefs.
    destruct (clean_top g l ref Hclean Hrefs) as (Hpos & Hidx & Htop & Hne).
    rewrite (pop_solo _ _ g ref); [|exact Hpos|rewrite Hidx; exact Htop|exact Hne].
    eexists. split; [reflexivity|].
    destruct (clean_pop g l ref (thread_tracker_count_ g)
                (change_tag ref kTypeIdActivityTracker
                   kTypeIdActivityTrackerFree (alloc_types g))
                (blocks g) Hclean Hrefs) as [H1 H2].
    split; [exact H1|]. split; [exact H2|reflexivity].
  - intros Hnil.
    destruct Hclean as ([Hc Hlen] & _).
    assert (Hz : available_memories_count_ g = 0).
    { unfold free_refs in Hnil.
      apply (f_equal length) in Hnil. rewrite length_take in Hnil.
      simpl in Hnil.
      destruct (Z.eq_dec (available_memories_count_ g) 0); [assumption|lia]. }
    cbn [solo_run global_step rbind fst snd]. rewrite Hz. reflexivity.
Qed.

End FreeListSequential.

Lemma X15_free_list_is_a_stack_witness :
  exists g1 g2,
    solo_run 4 2 6 (ReturnTrackerMemory_start 32 1032)
      (GlobalActivityTracker_new 4 (alloc_types example_global)
         (blocks example_global)) = Ok (g1, U_pushed 32) /\
    free_refs g1 = [32] /\
    solo_run 4 2 4 P_load_count g1 = Ok (g2, P_took 32) /\
    free_refs g2 = [].
Proof.
  set (g := GlobalActivityTracker_new 4 (alloc_types example_global)
              (blocks example_global)).
  assert (Hclean : clean_free_list 4 g) by (apply clean_free_list_new; lia).
  destruct (X15_free_list_is_a_stack 4 2 g Hclean) as (Hpush & _ & _).
  destruct (Hpush 32 1032 c9_region eq_refl ltac:(discriminate)
              ltac:(simpl; lia)) as (g1 & Hrun1 & Hclean1 & Hrefs1).
  destruct (X15_free_list_is_a_stack 4 2 g1 Hclean1) as (_ & Hpop & _).
  destruct (Hpop [] 32 Hrefs1) as (g2 & Hrun2 & _ & Hrefs2 & _).
  exists g1, g2. auto.
Defined.

(** ** A block from one thread to the next *)

Section Recycling.

Variable kMaxThreadCount : Z.
Variable stack_depth : nat.
Variables sizeof_Header sizeof_Activity : Z.
Hypothesis Hheader : 0 <= sizeof_Header.
Hypothesis Hactivity : 0 < sizeof_Activity.

Local Abbreviation solo := (solo_run kMaxThreadCount stack_depth).
Local Abbreviation new := (ThreadActivityTracker_new sizeof_Header sizeof_Activity).

(** [stack_memory_size_], as the constructor of GlobalActivityTracker
    computes it. *)
Local Abbreviation stack_memory_size_ :=
  (SizeForStackDepth sizeof_Header sizeof_Activity (Z.of_nat stack_depth)).

(** X16: a recycled block carries nothing of its former owner.  A thread
    exits and returns its block, whatever the block holds; the next thread
    to be born takes the block from the free list and builds its tracker
    over it with [stack_memory_size_].  The tracker is valid, has
    [stack_depth] slots, and its first Snapshot shows an empty stack under
    the identity of the new thread. *)
Theorem X16_recycled_block_is_fresh g ref base r e o :
  blocks g !! base = Some r ->
  ref <> 0 ->
  0 <= available_memories_count_ g < kMaxThreadCount ->
  available_memories_ g !! Z.to_nat (available_memories_count_ g) = Some 0 ->
  kMinStackDepth <= Z.of_nat stack_depth <= UINT32_MAX ->
  Z.of_nat stack_depth * sizeof_Activity + sizeof_Header < 2 ^ 64 ->
  env_nonzero e ->
  exists g1 g2 z t r',
    solo 6 (ReturnTrackerMemory_start ref base) g = Ok (g1, U_pushed ref) /\
    solo 4 P_load_count g1 = Ok (g2, P_took ref) /\
    blocks g2 !! base = Some z /\
    new e (Some z) stack_memory_size_ = (t, Some r') /\
    stack_slots_ t = Z.of_nat stack_depth /\
    IsValid t r' = true /\
    Snapshot t r' o
      = Ok (with_hdr (set_stack_unchanged 1) r',
            mkSnapshot [] 0
              (take 31 (take (strlen (env_thread_name e)) (env_thread_name e)))
              (env_thread_handle e) (env_process_id e),
            true).
Proof.
  intros Hr Hne Hc Hslot Hd Hfit He.
  pose proof (lookup_lt_Some _ _ _ Hslot) as Hlen.
  (* the two calls *)
  set (z := memset_zero stack_depth r).
  set (g1 := mkGlobal
               (<[Z.to_nat (available_memories_count_ g) := ref]>
                  (available_memories_ g))
               (available_memories_count_ g + 1) (thread_tracker_count_ g - 1)
               (change_tag ref kTypeIdActivityTrackerFree
                  kTypeIdActivityTracker (alloc_types g))
               (<[base := z]> (blocks g))).
  assert (H1 : solo 6 (ReturnTrackerMemory_start ref base) g
               = Ok (g1, U_pushed ref)).
  { rewrite (solo_split _ _ 3 3), (return_prologue _ _ _ _ _ _ Hr Hne).
    cbn [rbind fst snd]. rewrite push_solo by (simpl; auto). reflexivity. }
  assert (H2 : exists g2, solo 4 P_load_count g1 = Ok (g2, P_took ref) /\
                          blocks g2 = <[base := z]> (blocks g)).
  { rewrite (pop_solo _ _ g1 ref).
    - eexists. split; reflexivity.
    - simpl. lia.
    - unfold g1. cbn [available_memories_ available_memories_count_].
      replace (available_memories_count_ g + 1 - 1)
        with (available_memories_count_ g) by lia.
      apply list_lookup_insert_eq. exact Hlen.
    - exact Hne. }
  destruct H2 as (g2 & H2 & Hb2).
  exists g1, g2, z.
  assert (H3 : blocks g2 !! base = Some z)
    by (rewrite Hb2; apply lookup_insert_eq).
  cut (exists t r',
         new e (Some z) stack_memory_size_ = (t, Some r') /\
         stack_slots_ t = Z.of_nat stack_depth /\
         IsValid t r' = true /\
         Snapshot t r' o
           = Ok (with_hdr (set_stack_unchanged 1) r',
                 mkSnapshot [] 0
                   (take 31
                      (take (strlen (env_thread_name e)) (env_thread_name e)))
                   (env_thread_handle e) (env_process_id e),
                 true)).
  { intros (t & r' & H4). exists t, r'. auto. }
  clear H1 H2 Hb2 H3 g1 g2.
  (* the constructor over the zeroed block *)
  assert (Hsz : stack_memory_size_
                = Z.of_nat stack_depth * sizeof_Activity + sizeof_Header).
  { unfold SizeForStackDepth, wrap_size_t.
    rewrite (Z.mod_small (Z.of_nat stack_depth)) by nia.
    apply Z.mod_small. nia. }
  assert (Hslots : slots_of_size sizeof_Header sizeof_Activity stack_memory_size_
                   = Z.of_nat stack_depth).
  { unfold slots_of_size. rewrite Hsz.
    replace (Z.of_nat stack_depth * sizeof_Activity + sizeof_Header
             - sizeof_Header)
      with (Z.of_nat stack_depth * sizeof_Activity) by lia.
    unfold wrap_size_t. rewrite Z.mod_small by nia. apply Z.div_mul. lia. }
  destruct (accepted_size sizeof_Header sizeof_Activity Hheader Hactivity
              stack_memory_size_) as (Hacc & Hw & _ & _).
  { rewrite Hsz. nia. }
  { rewrite Hsz. unfold kMinStackDepth in *. nia. }
  { rewrite Hslots. lia. }
  unfold ThreadActivityTracker_new. cbv zeta.
  fold (slots_of_size sizeof_Header sizeof_Activity stack_memory_size_).
  rewrite Hacc, Hw, Hslots.
  unfold z. cbn [memset_zero hdr stack cookie zero_header Z.eqb].
  eexists _, _. split; [reflexivity|]. split; [reflexivity|].
  unfold zero_header. cbn [current_depth stack_unchanged thread_name].
  assert (Hv : forall s,
    IsValid (mkTracker (Z.of_nat stack_depth) true)
      (mkRegion
         (mkHeader kHeaderCookie (env_process_id e) (env_thread_handle e)
            (env_time_now e) (env_ticks_now e) (Z.of_nat stack_depth) 0 0
            (strlcpy (replicate 32 0) (env_thread_name e) 32)) s) = true).
  { intros s.
    apply (born_header_valid e zero_header (Z.of_nat stack_depth));
      [reflexivity|exact He]. }
  split; [apply Hv|].
  rewrite Snapshot_first_attempt.
  - unfold snapshot_of.
    cbn [hdr stack current_depth stack_slots_ thread_name thread_ref process_id].
    rewrite name_round_trip.
    replace (Z.to_nat (Z.min 0 (Z.of_nat stack_depth))) with 0%nat by lia.
    rewrite take_0. reflexivity.
  - apply Hv.
  - cbn [hdr current_depth stack_slots_].
    replace (Z.to_nat (Z.min 0 (Z.of_nat stack_depth))) with 0%nat by lia.
    lia.
Qed.

End Recycling.

Lemma X16_recycled_block_is_fresh_witness :
  exists g1 g2 z t r' r2,
    solo_run 4 2 6 (ReturnTrackerMemory_start 32 1032) example_global
      = Ok (g1, U_pushed 32) /\
    solo_run 4 2 4 P_load_count g1 = Ok (g2, P_took 32) /\
    blocks g2 !! 1032 = Some z /\
    ThreadActivityTracker_new 80 48 example_env (Some z) 176 = (t, Some r') /\
    Snapshot t r' empty_snapshot
      = Ok (r2, mkSnapshot [] 0 [110; 101; 116] 88 77, true).
Proof.
  destruct (X16_recycled_block_is_fresh 4 2 80 48 ltac:(lia) ltac:(lia)
              example_global 32 1032 c9_region example_env empty_snapshot)
    as (g1 & g2 & z & t & r' & H1 & H2 & H3 & H4 & _ & _ & H5);
    [reflexivity|discriminate|simpl; lia|reflexivity
    |unfold kMinStackDepth, UINT32_MAX; lia|lia
    |repeat split; discriminate|].
  exists g1, g2, z, t, r', (with_hdr (set_stack_unchanged 1) r').
  split; [exact H1|]. split; [exact H2|]. split; [exact H3|].
  split; [exact H4|exact H5].
Defined.

(** ** Changing the type and the data of the top record *)

(** X17: ChangeActivity of type and data in one call is the change of the
    type followed by the change of the data, faults included: the two
    fields are stored one after the other and nothing ties them together. *)
Theorem X17_ChangeActivity_in_two_calls t type d r :
  ChangeActivity t type (RefOther d) r
    = (do r1 <- ChangeActivity t type RefNullActivityData r;
       ChangeActivity t ACT_NULL (RefOther d) r1).
Proof.
  unfold ChangeActivity. cbv zeta.
  destruct (Z.leb_spec (current_depth (hdr r)) (stack_slots_ t)) as [Hle|Hgt].
  - cbn [is_kNullActivityData deref].
    destruct (type =? ACT_NULL) eqn:Hty; cbn [rbind].
    + apply Z.leb_le in Hle. rewrite Hle. reflexivity.
    + destruct (store_slot (wrap32 (current_depth (hdr r) - 1))
                  (set_activity_type type) r) as [r1|] eqn:Hs;
        cbn [rbind]; [|reflexivity].
      rewrite (store_slot_hdr _ _ _ _ Hs).
      apply Z.leb_le in Hle. rewrite Hle. reflexivity.
  - cbn [rbind]. apply Z.leb_gt in Hgt. rewrite Hgt. reflexivity.
Qed.

(** ** The activity types of ScopedActivity *)

(** X18: the assertion of ScopedActivity implies the assertions of
    ChangeActivity.  An action without category bits gives a type
    [ACT_GENERIC | action] that is not ACT_NULL and whose category is
    ACT_GENERIC; so on a record pushed with one such action, a change to
    another is within ChangeActivity's contract, and it replaces the type
    and nothing else. *)
Theorem X18_ScopedActivity_types_keep_category t action action' r a :
  Z.land action ACT_CATEGORY_MASK = 0 ->
  Z.land action' ACT_CATEGORY_MASK = 0 ->
  0 < current_depth (hdr r) <= stack_slots_ t ->
  stack r !! top_index r = Some a ->
  activity_type a = ScopedActivity_type action ->
  ScopedActivity_type action' <> ACT_NULL /\
  category (ScopedActivity_type action') = ACT_GENERIC /\
  change_precondition (ScopedActivity_type action') r /\
  ChangeActivity t (ScopedActivity_type action') RefNullActivityData r
    = Ok (mkRegion (hdr r)
            (<[top_index r := set_activity_type (ScopedActivity_type action') a]>
               (stack r))).
Proof.
  intros Ha Ha' Hd Htop Hty.
  assert (Hcat : forall x, Z.land x ACT_CATEGORY_MASK = 0 ->
                           category (ScopedActivity_type x) = ACT_GENERIC).
  { intros x Hx. unfold category, ScopedActivity_type.
    rewrite Z.land_lor_distr_l, Hx. reflexivity. }
  assert (Hnn : ScopedActivity_type action' <> ACT_NULL).
  { unfold ScopedActivity_type, ACT_NULL. intros H.
    apply Z.lor_eq_0_iff in H as [H _]. discriminate. }
  split; [exact Hnn|]. split; [apply Hcat; exact Ha'|]. split.
  - split; [lia|]. intros _ a0 Ha0. rewrite Htop in Ha0. injection Ha0 as <-.
    rewrite Hty, !Hcat by assumption. reflexivity.
  - rewrite (ChangeActivity_top _ _ _ _ a) by (lia || exact Htop).
    unfold changed_record. cbn [is_kNullActivityData].
    destruct (Z.eqb_spec (ScopedActivity_type action') ACT_NULL);
      [contradiction|reflexivity].
Qed.

Lemma X18_ScopedActivity_types_keep_category_witness :
  ChangeActivity two_slots (ScopedActivity_type 2) RefNullActivityData c9_region
    = Ok (mkRegion (hdr c9_region)
            [mkActivity 510 4096 (ACT_GENERIC + 2) zero_call_stack 42;
             zero_activity]).
Proof.
  exact (proj2 (proj2 (proj2
    (X18_ScopedActivity_types_keep_category two_slots 1 2 c9_region
       (mkActivity 510 4096 (ACT_GENERIC + 1) zero_call_stack 42)
       eq_refl eq_refl ltac:(simpl; lia) eq_refl eq_refl)))).
Defined.

(** ** What Snapshot writes *)

(** X19: Snapshot writes one thing to the block.  In every access of the
    reader the records, the depth and the identity fields are left as they
    are; the tear flag is either left or set to 1, and it is set in
    exactly one place, before the depth is read. *)
Theorem X19_Snapshot_writes_only_the_flag t r s r' s' :
  reader_step t r s = Ok (r', s') ->
  (r' = r \/
   (r_pc s = R_store_unchanged /\ r' = with_hdr (set_stack_unchanged 1) r)) /\
  stack r' = stack r /\
  current_depth (hdr r') = current_depth (hdr r) /\
  same_identity (hdr r') (hdr r).
Proof.
  intros Hstep.
  assert (H : r' = r \/
              (r_pc s = R_store_unchanged /\
               r' = with_hdr (set_stack_unchanged 1) r)).
  { unfold reader_step in Hstep. destruct (r_pc s) eqn:Hpc;
      try (injection Hstep as <- _; auto; fail).
    - destruct (negb (IsValid t r)); injection Hstep as <- _; auto.
    - destruct (stack r !! i); [|discriminate].
      destruct (activity_stack (r_out s) !! i); [|discriminate].
      injection Hstep as <- _; auto.
    - destruct (stack_unchanged (hdr r) =? 0); injection Hstep as <- _; auto.
    - cbv zeta in Hstep.
      match type of Hstep with
      | (if ?c then _ else _) = _ => destruct c
      end; injection Hstep as <- _; auto.
    - destruct (negb (IsValid t r)); injection Hstep as <- _; auto. }
  split; [exact H|].
  destruct H as [->|[_ ->]]; repeat split.
Qed.

Lemma X19_Snapshot_writes_only_the_flag_witness :
  exists r' s',
    reader_step two_slots c3_region
      (r_goto R_store_unchanged (reader_init empty_snapshot)) = Ok (r', s') /\
    stack r' = stack c3_region /\
    stack_unchanged (hdr r') = 1.
Proof.
  eexists _, _. split; [reflexivity|].
  split; [|reflexivity].
  exact (proj1 (proj2 (X19_Snapshot_writes_only_the_flag two_slots c3_region
                         (r_goto R_store_unchanged (reader_init empty_snapshot))
                         _ _ eq_refl))).
Defined.
